(** * jgscm: a Jupyter contents manager on Google Cloud Storage

    A shallow embedding of [jgscm/__init__.py] (the classes
    [GoogleStorageCheckpoints] and [JupyterGoogleStorageContentManager])
    together with the properties of its path mapping, fetch, save, rename
    and checkpoint operations.

    Conventions of the embedding:
    - a Python [str] is a Rocq [string] holding its UTF-8 bytes, and a
      Python [bytes] is a [string] of arbitrary bytes; [encode("utf8")] is
      then the identity and [decode("utf8")] a validity check;
    - a method of the manager is a computation in the monad [M]: it reads
      and updates the manager (the storage behind [self.client], the bucket
      cache, the log) and either returns a value or raises a Python
      exception; the state reached when the exception is raised is kept;
    - debug-level logging (including the [debug_args] decorator, which only
      logs the call and its result) is left out; error-level records are
      kept in the log;
    - an exception has its class; the wording that the interpreter or a
      library gives it is theirs, so [str(e)] is a function of the
      environment ([exception_text]) and the text that such an exception
      carries here only names its cause.  The texts that the source
      itself writes ([HTTPError]) are the source's. *)

From stdpp Require Import base option list strings gmap sorting.
From Stdlib Require Import ZArith Lia Ascii.

Open Scope string_scope.
Open Scope Z_scope.

(** ** Python string operations used by the source *)

Module PyStr.

Definition slash : ascii := "/"%char.
Definition dot : ascii := "."%char.

(** [c in s] for a one-character [c]. *)
Fixpoint contains (c : ascii) (s : string) : bool :=
  match s with
  | EmptyString => false
  | String a s' => if Ascii.eqb a c then true else contains c s'
  end.

(** [s.startswith(p)]. *)
Definition startswith (s p : string) : bool := String.prefix p s.

(** [s.endswith(p)]. *)
Definition endswith (s p : string) : bool :=
  String.prefix (String.rev p) (String.rev s).

(** [s[n:]] for [0 <= n]. *)
Fixpoint drop (n : nat) (s : string) : string :=
  match n, s with
  | O, _ => s
  | S n', String _ s' => drop n' s'
  | S _, EmptyString => EmptyString
  end.

(** [s[:n]] for [0 <= n]. *)
Fixpoint take (n : nat) (s : string) : string :=
  match n, s with
  | O, _ => EmptyString
  | S n', String a s' => String a (take n' s')
  | S _, EmptyString => EmptyString
  end.

(** [s[:-n]] and [s[-n:]] for [0 < n]. *)
Definition drop_last (n : nat) (s : string) : string :=
  take (String.length s - n)%nat s.
Definition take_last (n : nat) (s : string) : string :=
  drop (String.length s - n)%nat s.

(** [s.split(sep, 1)]: at most one split, at the first separator. *)
Fixpoint split1 (sep : ascii) (s : string) : list string :=
  match s with
  | EmptyString => [EmptyString]
  | String a s' =>
      if Ascii.eqb a sep then [EmptyString; s']
      else match split1 sep s' with
           | h :: t => String a h :: t
           | [] => [String a EmptyString]
           end
  end.

(** [s.rfind(c)]: the index of the last [c], or -1. *)
Fixpoint rfind_from (c : ascii) (i : Z) (last : Z) (s : string) : Z :=
  match s with
  | EmptyString => last
  | String a s' => rfind_from c (i + 1) (if Ascii.eqb a c then i else last) s'
  end.
Definition rfind (c : ascii) (s : string) : Z := rfind_from c 0 (-1) s.

(** [s.rsplit(sep, 1)[-1]]: what follows the last separator. *)
Definition rsplit1_last (sep : ascii) (s : string) : string :=
  drop (Z.to_nat (rfind sep s + 1)) s.

(** [s.replace(old, new, 1)]: the first occurrence only. *)
Fixpoint replace1 (old new : string) (s : string) : string :=
  if String.prefix old s then new +:+ drop (String.length old) s
  else match s with
       | EmptyString => EmptyString
       | String a s' => String a (replace1 old new s')
       end.

(** [os.path.splitext(p)] of [posixpath]: the extension starts at the
    last dot of the last path component, unless that component has only
    dots before it. *)
Fixpoint all_dots (s : string) : bool :=
  match s with
  | EmptyString => true
  | String a s' => if Ascii.eqb a dot then all_dots s' else false
  end.

Definition splitext (p : string) : string * string :=
  let sepIndex := rfind slash p in
  let dotIndex := rfind dot p in
  if decide (sepIndex < dotIndex) then
    let filenameIndex := sepIndex + 1 in
    if all_dots (take (Z.to_nat (dotIndex - filenameIndex))
                      (drop (Z.to_nat filenameIndex) p))
    then (p, EmptyString)
    else (take (Z.to_nat dotIndex) p, drop (Z.to_nat dotIndex) p)
  else (p, EmptyString).

End PyStr.

(** ** Exceptions and the manager monad *)

Inductive exn : Type :=
  | NotFound                                  (* gcloud.exceptions *)
  | Forbidden
  | BadRequest
  | HTTPError (status : Z) (msg : string)     (* tornado.web.HTTPError *)
  | ValueError (msg : string)                 (* Python built-ins *)
  | TypeError (msg : string)
  | NameError (name : string)
  | AttributeError (msg : string)
  | KeyError (key : string)
  | UnicodeError (msg : string)
  | BinasciiError (msg : string)              (* binascii.Error *)
  | RecursionError
  | Conflict                                  (* gcloud.exceptions *)
  | CollaboratorError (msg : string).         (* raised by nbformat, a hook, ... *)

Inductive result (A : Type) : Type :=
  | Ok (a : A)
  | Raise (e : exn).
Arguments Ok {A} a.
Arguments Raise {A} e.

Definition is_HTTPError (e : exn) : bool :=
  match e with HTTPError _ _ => true | _ => false end.
Definition is_NotFound (e : exn) : bool :=
  match e with NotFound => true | _ => false end.
Definition is_Forbidden (e : exn) : bool :=
  match e with Forbidden => true | _ => false end.
Definition is_BadRequest_or_NotFound (e : exn) : bool :=
  match e with BadRequest | NotFound => true | _ => false end.
Definition is_UnicodeError (e : exn) : bool :=
  match e with UnicodeError _ => true | _ => false end.
(** [except Exception]: every exception of the model is one. *)
Definition is_Exception (e : exn) : bool := true.

Section Monad.
Context {S : Type}.

Definition M (A : Type) : Type := S → result A * S.

Definition ret {A} (a : A) : M A := λ s, (Ok a, s).
Definition raise {A} (e : exn) : M A := λ s, (Raise e, s).
Definition bind {A B} (m : M A) (k : A → M B) : M B :=
  λ s, match m s with
       | (Ok a, s') => k a s'
       | (Raise e, s') => (Raise e, s')
       end.
(** [try: m  except <handles>: h]. *)
Definition try_except {A} (m : M A) (handles : exn → bool) (h : exn → M A) : M A :=
  λ s, match m s with
       | (Raise e, s') => if handles e then h e s' else (Raise e, s')
       | r => r
       end.
(** [try: a = m  except <handles>: return h] and then go on with [k a]. *)
Definition try_else {A R} (m : M A) (handles : exn → bool) (h : exn → M R)
    (k : A → M R) : M R :=
  λ s, match m s with
       | (Ok a, s') => k a s'
       | (Raise e, s') => if handles e then h e s' else (Raise e, s')
       end.
Definition lift {A} (r : result A) : M A := λ s, (r, s).
Definition gets {A} (f : S → A) : M A := λ s, (Ok (f s), s).
Definition modify (f : S → S) : M unit := λ s, (Ok tt, f s).

(** [for x in l: body(x)]. *)
Fixpoint for_each {A} (l : list A) (body : A → M unit) : M unit :=
  match l with
  | [] => ret tt
  | x :: l' => bind (body x) (λ _, for_each l' body)
  end.
End Monad.
Arguments M : clear implicits.

Notation "x <- m ; k" := (bind m (λ x, k))
  (at level 20, m at level 100, k at level 200, only parsing) : stdpp_scope.
Notation "' p <- m ; k" := (bind m (λ x, let 'p := x in k))
  (at level 20, p pattern, m at level 100, k at level 200, only parsing) : stdpp_scope.

(** ** The path resolver *)

(** [bucket, name = path.split("/", 1)]: unpacking a list that does not
    have exactly two elements raises [ValueError]. *)
Definition unpack2 (l : list string) : result (string * string) :=
  match l with
  | [a; b] => Ok (a, b)
  | [] | [_] => Raise (ValueError "not enough values to unpack (expected 2)")
  | _ => Raise (ValueError "too many values to unpack (expected 2)")
  end.

Definition _parse_path (path : string) : result (string * string) :=
  match unpack2 (PyStr.split1 PyStr.slash path) with
  | Ok (bucket, name) => Ok (bucket, name)
  | Raise (ValueError _) => Ok (path, "")
  | Raise e => Raise e
  end.


(** ** Codecs of the Python library: UTF-8, ASCII, base64, URL quoting *)

Module Codec.

Definition byte (a : ascii) : N := N_of_ascii a.
Definition chr (n : N) : ascii := ascii_of_N n.

Definition continuation (a : ascii) : bool :=
  (128 <=? byte a)%N && (byte a <=? 191)%N.
Definition between (lo hi : N) (a : ascii) : bool :=
  (lo <=? byte a)%N && (byte a <=? hi)%N.

(** Whether a byte string is well-formed UTF-8, as the strict decoder of
    [bytes.decode("utf8")] requires: shortest forms only, no surrogates,
    nothing above U+10FFFF. *)
Fixpoint utf8_valid (s : string) : bool :=
  match s with
  | EmptyString => true
  | String a s1 =>
      if (byte a <? 128)%N then utf8_valid s1
      else if between 194 223 a then
        match s1 with
        | String c1 s2 => continuation c1 && utf8_valid s2
        | _ => false
        end
      else if between 224 239 a then
        match s1 with
        | String c1 (String c2 s3) =>
            (if (byte a =? 224)%N then between 160 191 c1
             else if (byte a =? 237)%N then between 128 159 c1
             else continuation c1)
            && continuation c2 && utf8_valid s3
        | _ => false
        end
      else if between 240 244 a then
        match s1 with
        | String c1 (String c2 (String c3 s4)) =>
            (if (byte a =? 240)%N then between 144 191 c1
             else if (byte a =? 244)%N then between 128 143 c1
             else continuation c1)
            && continuation c2 && continuation c3 && utf8_valid s4
        | _ => false
        end
      else false
  end.

(** [content.encode("utf8")]. *)
Definition encode_utf8 (s : string) : result string := Ok s.

(** [bcontent.decode("utf8")]. *)
Definition decode_utf8 (b : string) : result string :=
  if utf8_valid b then Ok b
  else Raise (UnicodeError "'utf-8' codec can't decode bytes").

Fixpoint is_ascii (s : string) : bool :=
  match s with
  | EmptyString => true
  | String a s' => (byte a <? 128)%N && is_ascii s'
  end.

(** [content.encode("ascii")] and [b.decode("ascii")]. *)
Definition encode_ascii (s : string) : result string :=
  if is_ascii s then Ok s
  else Raise (UnicodeError "'ascii' codec can't encode characters").
Definition decode_ascii (b : string) : result string :=
  if is_ascii b then Ok b
  else Raise (UnicodeError "'ascii' codec can't decode bytes").

(** The base64 alphabet. *)
Definition b64char (n : N) : ascii :=
  if (n <? 26)%N then chr (65 + n)
  else if (n <? 52)%N then chr (97 + (n - 26))
  else if (n <? 62)%N then chr (48 + (n - 52))
  else if (n =? 62)%N then "+"%char
  else "/"%char.

Definition b64val (a : ascii) : option N :=
  let b := byte a in
  if between 65 90 a then Some (b - 65)%N
  else if between 97 122 a then Some (b - 97 + 26)%N
  else if between 48 57 a then Some (b - 48 + 52)%N
  else if (b =? 43)%N then Some 62%N
  else if (b =? 47)%N then Some 63%N
  else None.

(** The groups of [binascii.b2a_base64], without the final newline. *)
Fixpoint b2a_groups (bs : string) : string :=
  match bs with
  | EmptyString => EmptyString
  | String a EmptyString =>
      String (b64char (byte a / 4))
        (String (b64char (byte a mod 4 * 16)) "==")
  | String a (String b EmptyString) =>
      String (b64char (byte a / 4))
        (String (b64char (byte a mod 4 * 16 + byte b / 16))
           (String (b64char (byte b mod 16 * 4)) "="))
  | String a (String b (String c rest)) =>
      String (b64char (byte a / 4))
        (String (b64char (byte a mod 4 * 16 + byte b / 16))
           (String (b64char (byte b mod 16 * 4 + byte c / 64))
              (String (b64char (byte c mod 64)) (b2a_groups rest))))
  end.

Definition newline : string := String (chr 10) EmptyString.

Definition b2a_base64 (bs : string) : string := b2a_groups bs +:+ newline.

(** [base64.encodebytes]: one line of output, newline included, for every
    57 bytes of input; nothing for the empty input. *)
Definition MAXBINSIZE : nat := 57.

Fixpoint encodebytes_chunks (fuel : nat) (bs : string) : string :=
  match fuel with
  | O => EmptyString
  | S fuel' =>
      match bs with
      | EmptyString => EmptyString
      | _ => b2a_base64 (PyStr.take MAXBINSIZE bs)
             +:+ encodebytes_chunks fuel' (PyStr.drop MAXBINSIZE bs)
      end
  end.
Definition encodebytes (bs : string) : string :=
  encodebytes_chunks (String.length bs) bs.

(** [binascii.a2b_base64] in its default, lenient mode: characters
    outside the alphabet are skipped, decoding stops at the padding that
    completes a group, and a group left open is an error. *)
Fixpoint a2b_loop (s : string) (quad_pos : nat) (leftchar : N) (pads : nat)
    (out : string) : result string :=
  match s with
  | EmptyString =>
      match quad_pos with
      | O => Ok out
      | 1%nat => Raise (BinasciiError "Invalid base64-encoded string: number of data characters cannot be 1 more than a multiple of 4")
      | _ => Raise (BinasciiError "Incorrect padding")
      end
  | String a s' =>
      if Ascii.eqb a "="%char then
        if (2 <=? quad_pos)%nat then
          if (4 <=? quad_pos + (pads + 1))%nat then Ok out
          else a2b_loop s' quad_pos leftchar (pads + 1) out
        else a2b_loop s' quad_pos leftchar pads out
      else
        match b64val a with
        | None => a2b_loop s' quad_pos leftchar pads out
        | Some v =>
            match quad_pos with
            | O => a2b_loop s' 1 v 0 out
            | 1%nat =>
                a2b_loop s' 2 (v mod 16)%N 0
                  (out +:+ String (chr (leftchar * 4 + v / 16)) EmptyString)
            | 2%nat =>
                a2b_loop s' 3 (v mod 4)%N 0
                  (out +:+ String (chr (leftchar * 16 + v / 4)) EmptyString)
            | _ =>
                a2b_loop s' 0 0%N 0
                  (out +:+ String (chr (leftchar * 64 + v)) EmptyString)
            end
        end
  end.

(** [base64.decodebytes]. *)
Definition decodebytes (s : string) : result string :=
  a2b_loop s 0 0%N 0 EmptyString.

(** Hexadecimal digits of percent-encoding. *)
Definition hexdigit (n : N) : ascii :=
  if (n <? 10)%N then chr (48 + n) else chr (55 + n).
Definition unhex (a : ascii) : option N :=
  if between 48 57 a then Some (byte a - 48)%N
  else if between 65 70 a then Some (byte a - 55)%N
  else if between 97 102 a then Some (byte a - 87)%N
  else None.

(** [urllib.parse.quote(name, safe="")], which gcloud applies to the
    object name inside [Blob.path]: letters, digits and [_.-~] stay,
    every other byte becomes [%XX]. *)
Definition unreserved (a : ascii) : bool :=
  between 65 90 a || between 97 122 a || between 48 57 a
  || Ascii.eqb a "_"%char || Ascii.eqb a "."%char
  || Ascii.eqb a "-"%char || Ascii.eqb a "~"%char.

Fixpoint quote (s : string) : string :=
  match s with
  | EmptyString => EmptyString
  | String a s' =>
      if unreserved a then String a (quote s')
      else String "%"%char
             (String (hexdigit (byte a / 16))
                (String (hexdigit (byte a mod 16)) (quote s')))
  end.

(** [tornado.escape.url_unescape(value)]: [+] becomes a space and every
    well-formed [%XX] the byte it names; anything else is kept. *)
Fixpoint url_unescape (s : string) : string :=
  match s with
  | EmptyString => EmptyString
  | String a s1 =>
      if Ascii.eqb a "+"%char then String " "%char (url_unescape s1)
      else if Ascii.eqb a "%"%char then
        match s1 with
        | String h (String l s3) =>
            match unhex h, unhex l with
            | Some x, Some y => String (chr (x * 16 + y)) (url_unescape s3)
            | _, _ => String a (url_unescape s1)
            end
        | _ => String a (url_unescape s1)
        end
      else String a (url_unescape s1)
  end.

End Codec.

Example encodebytes_hello : Codec.encodebytes "hello" = "aGVsbG8=" +:+ Codec.newline.
Proof. reflexivity. Qed.
Example decodebytes_hello : Codec.decodebytes "aGVsbG8=" = Ok "hello".
Proof. reflexivity. Qed.
Example quote_x : Codec.url_unescape (Codec.quote "dir/a b+c%") = "dir/a b+c%".
Proof. reflexivity. Qed.

(** ** The storage service behind [gcloud.storage]

    A bucket name is unknown to the service, names a bucket the caller may
    not see ([Forbidden]), is refused as a name ([BadRequest]), or names a
    bucket with its objects.  The clock stamps every upload. *)

Record Object : Type := mkObject {
  o_data : string;
  o_content_type : option string;
  o_updated : Z;
}.

Inductive BucketEntry : Type :=
  | Live (objects : gmap string Object)
  | Denied
  | Rejected.

Record Storage : Type := mkStorage {
  st_buckets : gmap string BucketEntry;
  st_clock : Z;
}.

(** The handles of the client library: a [Bucket] knows its name, a [Blob]
    its bucket and name and, once loaded or uploaded, its properties. *)
Record Bucket : Type := mkBucket { bucket_name : string }.

Record Blob : Type := mkBlob {
  blob_bucket : Bucket;
  blob_name : string;
  blob_content_type : option string;
  blob_updated : option Z;
}.

#[global] Instance Bucket_eq_dec : EqDecision Bucket.
Proof. solve_decision. Defined.
#[global] Instance Blob_eq_dec : EqDecision Blob.
Proof. solve_decision. Defined.

(** [Bucket.path] and [Blob.path]. *)
Definition bucket_path_of (b : Bucket) : string := "/b/" +:+ bucket_name b.
Definition blob_path (b : Blob) : string :=
  bucket_path_of (blob_bucket b) +:+ "/o/" +:+ Codec.quote (blob_name b).

(** [bucket.blob(name)]: a handle whose properties are not loaded. *)
Definition bucket_blob (b : Bucket) (name : string) : Blob :=
  mkBlob b name None None.

Definition loaded_blob (b : Bucket) (name : string) (o : Object) : Blob :=
  mkBlob b name (o_content_type o) (Some (o_updated o)).

(** Object names in the order the service lists them. *)
Fixpoint insert_by_name (x : string * Object) (l : list (string * Object))
    : list (string * Object) :=
  match l with
  | [] => [x]
  | y :: l' => if String.leb x.1 y.1 then x :: l else y :: insert_by_name x l'
  end.
Definition sort_by_name (l : list (string * Object)) : list (string * Object) :=
  foldr insert_by_name [] l.

(** What a listing with [prefix] and [delimiter="/"] makes of one object
    name: nothing, an item, or the sub-prefix that ends at the first
    delimiter after the prefix. *)
Fixpoint upto_slash (s : string) : option string :=
  match s with
  | EmptyString => None
  | String a s' =>
      if Ascii.eqb a PyStr.slash then Some (String a EmptyString)
      else option_map (String a) (upto_slash s')
  end.

Inductive Listed : Type :=
  | Unlisted
  | Item
  | SubPrefix (p : string).

Definition classify (prefix name : string) : Listed :=
  if PyStr.startswith name prefix then
    match upto_slash (PyStr.drop (String.length prefix) name) with
    | None => Item
    | Some d => SubPrefix (prefix +:+ d)
    end
  else Unlisted.

Definition is_item (prefix : string) (name : string) : bool :=
  match classify prefix name with Item => true | _ => false end.

Definition listed_items (b : Bucket) (prefix : string)
    (objs : gmap string Object) : list Blob :=
  (λ kv, loaded_blob b kv.1 kv.2) <$>
    sort_by_name (map_to_list (filter (λ kv, is_item prefix kv.1 = true) objs)).

Definition listed_prefixes (prefix : string) (objs : gmap string Object)
    : gset string :=
  list_to_set
    (omap (λ kv : string * Object,
             match classify prefix kv.1 with
             | SubPrefix p => Some p
             | _ => None
             end)
          (map_to_list objs)).

Definition entry_objects (e : option BucketEntry) : result (gmap string Object) :=
  match e with
  | None => Raise NotFound
  | Some Denied => Raise Forbidden
  | Some Rejected => Raise BadRequest
  | Some (Live objs) => Ok objs
  end.

Definition objects_of (st : Storage) (b : Bucket) : result (gmap string Object) :=
  entry_objects (st_buckets st !! bucket_name b).

Definition put_object (st : Storage) (b : Bucket) (name : string) (o : Object)
    : Storage :=
  match st_buckets st !! bucket_name b with
  | Some (Live objs) =>
      mkStorage (<[bucket_name b := Live (<[name := o]> objs)]> (st_buckets st))
                (st_clock st)
  | _ => st
  end.

Definition remove_object (st : Storage) (b : Bucket) (name : string) : Storage :=
  match st_buckets st !! bucket_name b with
  | Some (Live objs) =>
      mkStorage (<[bucket_name b := Live (delete name objs)]> (st_buckets st))
                (st_clock st)
  | _ => st
  end.

Definition tick (st : Storage) : Storage :=
  mkStorage (st_buckets st) (st_clock st + 1).

(** ** The contents manager *)

(** Python values that one field or result can hold in several types. *)
Inductive pyval : Type :=
  | VNone
  | VBool (b : bool)
  | VStr (s : string)
  | VTime (t : Z)
  | VBoundMethod (name : string) (self : Blob).

(** [bool(v)], as [if v] and [not v] compute it. *)
Definition truthy (v : pyval) : bool :=
  match v with
  | VNone => false
  | VBool b => b
  | VStr s => negb (String.eqb s "")
  | VTime _ => true
  | VBoundMethod _ _ => true
  end.

Definition time_val (t : option Z) : pyval :=
  match t with Some z => VTime z | None => VNone end.

Inductive ContentOf (notebook model : Type) : Type :=
  | CNone
  | CText (s : string)
  | CNotebook (nb : notebook)
  | CListing (l : list model).
Arguments CNone {notebook model}.
Arguments CText {notebook model} s.
Arguments CNotebook {notebook model} nb.
Arguments CListing {notebook model} l.

(** The second component of what [_fetch] returns: nothing, the members
    of a directory, or a blob. *)
Inductive Payload : Type :=
  | PNone
  | PMembers (files : list Blob) (folders : list string)
  | PBlob (b : Blob).

(** [get] takes a path or a blob. *)
Inductive PathArg : Type :=
  | PathStr (s : string)
  | PathBlob (b : Blob).

Record Checkpoint : Type := mkCheckpoint {
  cp_id : string;
  cp_last_modified : option Z;
}.

(** [str(uuid.uuid4())]: 36 characters, hexadecimal digits and dashes; the
    [n]-th identifier drawn stands for the random one. *)
Fixpoint hexpad (digits : nat) (n : N) : string :=
  match digits with
  | O => EmptyString
  | S d => hexpad d (n / 16) +:+ String (Codec.hexdigit (n mod 16)) EmptyString
  end.
Definition uuid4_str (n : nat) : string :=
  "00000000-0000-4000-8000-" +:+ hexpad 12 (N.of_nat n).

Set Warnings "-register-all".

Section Manager.
Context {NotebookNode : Type}.

(** A contents model as [get] builds it; [m_type] and [m_message] are
    keys that may be absent. *)
Inductive Model : Type := mkModel {
  m_name : string;
  m_path : string;
  m_last_modified : pyval;
  m_created : pyval;
  m_content : ContentOf NotebookNode Model;
  m_format : option string;
  m_mimetype : option string;
  m_writable : pyval;
  m_type : option string;
  m_message : option string;
}.
Definition Content : Type := ContentOf NotebookNode Model.

(** The dict handed to [save], read through the keys [type], [content],
    [format] and [message]; [None] is an absent key, except for
    [d_format] and [d_message], read with [model.get]. *)
Record ModelDict : Type := mkModelDict {
  d_type : option string;
  d_content : option Content;
  d_format : option string;
  d_message : option string;
}.

(** The manager object: the storage behind [self.client], the
    [_bucket_cache] attribute ([None] until it is first created), the
    error log, the identifiers drawn so far, and the calls the post-save
    hook has received. *)
Record Manager : Type := mkManager {
  storage : Storage;
  _bucket_cache : option (gmap string Bucket);
  log : list (string * string);
  uuids : nat;
  hook_calls : list (string * Model);
}.

(** Configuration traits. *)
Record Config : Type := mkConfig {
  checkpoint_dir : string;
  checkpoint_bucket : string;
  max_list_size : Z;
  cache_buckets : bool;
  post_save_hook : option (string → Model → result unit);
}.

(** What the notebook packages provide: [nbformat], the signing and
    validation methods and the pre-save hook of [ContentsManager], the
    listing filter; and what the interpreter and the libraries make of
    [str(e)] for an exception, whose wording is theirs. *)
Record Collaborators : Type := mkCollaborators {
  from_dict : Content → result NotebookNode;
  check_and_sign : NotebookNode → string → result unit;
  writes : NotebookNode → result string;
  reads : string → result NotebookNode;
  mark_trusted_cells : NotebookNode → string → result NotebookNode;
  validate_nb : Content → option string;
  should_list : string → bool;
  run_pre_save_hook : ModelDict → string → result ModelDict;
  exception_text : exn → string;
}.

Variable cfg : Config.
Variable env : Collaborators.

Local Abbreviation Mgr := (M Manager).

Definition set_storage (st : Storage) (m : Manager) : Manager :=
  mkManager st (_bucket_cache m) (log m) (uuids m) (hook_calls m).
Definition set_bucket_cache (c : option (gmap string Bucket)) (m : Manager)
    : Manager :=
  mkManager (storage m) c (log m) (uuids m) (hook_calls m).
Definition add_log (level msg : string) (m : Manager) : Manager :=
  mkManager (storage m) (_bucket_cache m) (log m ++ [(level, msg)])
            (uuids m) (hook_calls m).
Definition next_uuid (m : Manager) : Manager :=
  mkManager (storage m) (_bucket_cache m) (log m) (S (uuids m)) (hook_calls m).
Definition add_hook_call (os_path : string) (model : Model) (m : Manager)
    : Manager :=
  mkManager (storage m) (_bucket_cache m) (log m) (uuids m)
            (hook_calls m ++ [(os_path, model)]).

Definition log_error (msg : string) : Mgr unit := modify (add_log "error" msg).

Definition uuid4 : Mgr string :=
  n <- gets uuids;
  _ <- modify next_uuid;
  ret (uuid4_str n).

(** *** Calls into the client library *)

(** [client.get_bucket(name)]: the library builds the path of the bucket
    first, and refuses to build one for the empty name, before it asks
    the service. *)
Definition no_bucket_name : exn :=
  ValueError "Cannot determine path without bucket name.".

Definition client_get_bucket (name : string) : Mgr Bucket :=
  if decide (name = "") then raise no_bucket_name
  else
    st <- gets storage;
    _ <- lift (entry_objects (st_buckets st !! name));
    ret (mkBucket name).

Definition client_list_buckets : Mgr (list Bucket) :=
  st <- gets storage;
  ret (omap (λ kv : string * BucketEntry,
               match kv.2 with
               | Live _ => Some (mkBucket kv.1)
               | _ => None
               end)
            (map_to_list (st_buckets st))).

Definition client_create_bucket (name : string) : Mgr Bucket :=
  st <- gets storage;
  match st_buckets st !! name with
  | None =>
      _ <- modify (set_storage
             (mkStorage (<[name := Live ∅]> (st_buckets st)) (st_clock st)));
      ret (mkBucket name)
  | Some _ => raise Conflict
  end.

(** [blob.exists()]: a missing bucket or object is [False]. *)
Definition blob_exists (b : Blob) : Mgr bool :=
  st <- gets storage;
  try_except
    (objs <- lift (objects_of st (blob_bucket b));
     ret (bool_decide (is_Some (objs !! blob_name b))))
    is_NotFound (λ _, ret false).

(** [bucket.get_blob(name)]: a missing bucket or object is [None]. *)
Definition bucket_get_blob (b : Bucket) (name : string) : Mgr (option Blob) :=
  st <- gets storage;
  try_except
    (objs <- lift (objects_of st b);
     ret (loaded_blob b name <$> objs !! name))
    is_NotFound (λ _, ret None).

(** [it = bucket.list_blobs(prefix, delimiter="/", max_results)] read
    through [list(it)] and [it.prefixes].  The library sends
    [max_results] as the size of one page and [list(it)] reads page after
    page, so that it has every item, in the order of the names;
    [it.prefixes] is a set, read in the order the set gives. *)
Definition bucket_list_blobs (b : Bucket) (prefix : string) (max_results : Z)
    : Mgr (list Blob * list string) :=
  st <- gets storage;
  objs <- lift (objects_of st b);
  ret (listed_items b prefix objs, elements (listed_prefixes prefix objs)).

(** [blob.upload_from_string(data, content_type)]; the library's default
    content type is [text/plain].  The handle comes back loaded. *)
Definition blob_upload_from_string (b : Blob) (data : string)
    (content_type : string) : Mgr Blob :=
  st <- gets storage;
  _ <- lift (objects_of st (blob_bucket b));
  let o := mkObject data (Some content_type) (st_clock st) in
  _ <- modify (set_storage
         (tick (put_object st (blob_bucket b) (blob_name b) o)));
  ret (loaded_blob (blob_bucket b) (blob_name b) o).

Definition blob_download_as_string (b : Blob) : Mgr string :=
  st <- gets storage;
  objs <- lift (objects_of st (blob_bucket b));
  match objs !! blob_name b with
  | Some o => ret (o_data o)
  | None => raise NotFound
  end.

Definition blob_delete (b : Blob) : Mgr unit :=
  st <- gets storage;
  objs <- lift (objects_of st (blob_bucket b));
  match objs !! blob_name b with
  | Some _ => modify (set_storage (remove_object st (blob_bucket b) (blob_name b)))
  | None => raise NotFound
  end.

(** [bucket.delete_blob(x)] with the value the source passes, a handle or
    [None]. *)
Definition bucket_delete_blob (b : Bucket) (x : option Blob) : Mgr unit :=
  match x with
  | Some blob => blob_delete (bucket_blob b (blob_name blob))
  | None => raise (TypeError "quote_from_bytes() expected bytes")
  end.

Definition bucket_delete_blobs (b : Bucket) (blobs : list Blob) : Mgr unit :=
  for_each blobs (λ blob, blob_delete (bucket_blob b (blob_name blob))).

Definition bucket_delete (b : Bucket) : Mgr unit :=
  st <- gets storage;
  objs <- lift (objects_of st b);
  if decide (objs = ∅) then
    modify (set_storage (mkStorage (delete (bucket_name b) (st_buckets st))
                                   (st_clock st)))
  else raise Conflict.

Definition bucket_copy_blob (b : Bucket) (blob : Blob) (destination : Bucket)
    (new_name : string) : Mgr Blob :=
  st <- gets storage;
  objs <- lift (objects_of st b);
  match objs !! blob_name blob with
  | None => raise NotFound
  | Some o =>
      _ <- lift (objects_of st destination);
      let o' := mkObject (o_data o) (o_content_type o) (st_clock st) in
      _ <- modify (set_storage (tick (put_object st destination new_name o')));
      ret (loaded_blob destination new_name o')
  end.

(** [bucket.rename_blob(blob, new_name)]: copy, then delete the source. *)
Definition bucket_rename_blob (b : Bucket) (blob : Blob) (new_name : string)
    : Mgr Blob :=
  new_blob <- bucket_copy_blob b blob b new_name;
  _ <- blob_delete blob;
  ret new_blob.

(** A call that leaves out a required positional argument. *)
Definition call_without {A} (fn arg : string) : Mgr A :=
  raise (TypeError (fn +:+ "() missing 1 required positional argument: '"
                       +:+ arg +:+ "'")).

(** A name that is bound neither in the function nor in the module. *)
Definition unbound_name {A} (name : string) : Mgr A := raise (NameError name).

(** *** [_get_bucket] and the bucket cache *)

Definition _get_bucket (name : string) (throw : bool) : Mgr (option Bucket) :=
  if negb (cache_buckets cfg) then
    try_except
      (b <- client_get_bucket name; ret (Some b))
      is_NotFound
      (λ e, if throw then raise e else ret None)
  else
    cache <- gets _bucket_cache;
    cache <- match cache with
             | Some c => ret c
             | None => _ <- modify (set_bucket_cache (Some ∅)); ret ∅
             end;
    match cache !! name with
    | Some b => ret (Some b)
    | None =>
        try_else (client_get_bucket name) is_BadRequest_or_NotFound
          (λ e, if throw then raise e else ret None)
          (λ bucket,
             _ <- modify (set_bucket_cache (Some (<[name := bucket]> cache)));
             ret (Some bucket))
    end.

(** [del self._bucket_cache[name]]. *)
Definition del_bucket_cache (name : string) : Mgr unit :=
  cache <- gets _bucket_cache;
  match cache with
  | None =>
      raise (AttributeError
        "'JupyterGoogleStorageContentManager' object has no attribute '_bucket_cache'")
  | Some c =>
      match c !! name with
      | None => raise (KeyError name)
      | Some _ => modify (set_bucket_cache (Some (delete name c)))
      end
  end.

(** *** Paths of blobs *)

Definition _get_blob_path (blob : Blob) : string :=
  let path := Codec.url_unescape (blob_path blob) in
  let path := PyStr.drop 3 path in  (* /b/ *)
  PyStr.replace1 "/o/" "/" path.

Definition _get_blob_name (blob : Blob) : string :=
  PyStr.rsplit1_last PyStr.slash (Codec.url_unescape (blob_path blob)).

Definition _get_dir_name (path : string) : string :=
  let path := if PyStr.endswith path "/" then PyStr.drop_last 1 path else path in
  PyStr.rsplit1_last PyStr.slash path.

Definition strip_leading_slash (path : string) : string :=
  if PyStr.startswith path "/" then PyStr.drop 1 path else path.

(** [try: bucket_name, bucket_path = self._parse_path(path)
     except ValueError: return on_error]. *)
Definition parse_or_return {R} (path : string) (on_error : Mgr R)
    (k : string → string → Mgr R) : Mgr R :=
  match _parse_path path with
  | Ok (bucket_name, bucket_path) => k bucket_name bucket_path
  | Raise (ValueError _) => on_error
  | Raise e => raise e
  end.

(** *** [is_hidden], [file_exists], [dir_exists] and [_fetch] *)

Definition is_hidden (path : string) : Mgr bool :=
  if decide (path = "") then ret false
  else
    parse_or_return path (ret true) (λ bucket_name bucket_path,
      try_else (_get_bucket bucket_name false) is_Forbidden
        (λ _, ret true)
        (λ bucket, ret (bool_decide (bucket = None)))).

Definition file_exists (path : string) : Mgr bool :=
  if decide (path = "") then ret false
  else
    let path := strip_leading_slash path in
    parse_or_return path (ret false) (λ bucket_name bucket_path,
      bucket <- _get_bucket bucket_name false;
      match bucket with
      | None => ret false
      | Some bucket =>
          if decide (bucket_path = "") then ret false
          else if PyStr.endswith bucket_path "/" then
            (* blob may exist but we treat such as directories *)
            ret false
          else blob_exists (bucket_blob bucket bucket_path)
      end).

Definition _fetch (path : string) (content : bool) : Mgr (pyval * Payload) :=
  if decide (path = "") then
    buckets <- client_list_buckets;
    ret (VBool true, PMembers [] (bucket_name <$> buckets))
  else
    parse_or_return path (ret (VBool false, PNone)) (λ bucket_name bucket_path,
      try_else (_get_bucket bucket_name false) is_Forbidden
        (λ _, ret (VBool true, PNone))
        (λ bucket,
           match bucket with
           | None => ret (VBool false, PNone)
           | Some bucket =>
               if bool_decide (bucket_path = "") || PyStr.endswith bucket_path "/"
               then
                 marker <- (if decide (bucket_path ≠ "") then
                              blob_exists (bucket_blob bucket bucket_path)
                            else ret false);
                 if marker && negb content then ret (VBool true, PNone)
                 else
                   (* blob may not exist but at the same time be a part of
                      a path *)
                   let max_list_size :=
                     if content then max_list_size cfg else 1 in
                   try_else
                     (bucket_list_blobs bucket bucket_path max_list_size)
                     is_NotFound
                     (λ _, _ <- del_bucket_cache bucket_name;
                           ret (VBool false, PNone))
                     (λ it,
                        let files := it.1 in
                        let folders := PyStr.drop_last 1 <$> it.2 in
                        ret (VBool (negb (bool_decide (files = []))
                                    || negb (bool_decide (folders = []))
                                    || bool_decide (bucket_path = "")),
                             if content then PMembers files folders else PNone))
               else if negb content then
                 (* the method itself, not the result of calling it *)
                 ret (VBoundMethod "exists" (bucket_blob bucket bucket_path),
                      PNone)
               else
                 blob <- bucket_get_blob bucket bucket_path;
                 ret (VBool (bool_decide (blob ≠ None)),
                      match blob with Some b => PBlob b | None => PNone end)
           end)).

Definition dir_exists (path : string) : Mgr pyval :=
  let path := strip_leading_slash path in
  if decide (path = "") then ret (VBool true)
  else
    let path := if negb (PyStr.endswith path "/") then path +:+ "/" else path in
    r <- _fetch path false;
    ret r.1.

(** *** Model builders *)

(** The blob a builder was handed: [None] and the members pair have no
    blob attributes. *)
Definition as_blob (p : Payload) : Mgr Blob :=
  match p with
  | PBlob b => ret b
  | PNone => raise (AttributeError "'NoneType' object has no attribute 'updated'")
  | PMembers _ _ => raise (AttributeError "'tuple' object has no attribute 'updated'")
  end.

Definition _base_model (blob : Blob) : Model :=
  let last_modified := time_val (blob_updated blob) in
  let created := last_modified in
  {| m_name := _get_blob_name blob;
     m_path := _get_blob_path blob;
     m_last_modified := last_modified;
     m_created := created;
     m_content := CNone;
     m_format := None;
     m_mimetype := blob_content_type blob;
     m_writable := VBool true;
     m_type := None;
     m_message := None |}.

Definition set_type (t : string) (m : Model) : Model :=
  mkModel (m_name m) (m_path m) (m_last_modified m) (m_created m) (m_content m)
          (m_format m) (m_mimetype m) (m_writable m) (Some t) (m_message m).
Definition set_mimetype (mt : option string) (m : Model) : Model :=
  mkModel (m_name m) (m_path m) (m_last_modified m) (m_created m) (m_content m)
          (m_format m) mt (m_writable m) (m_type m) (m_message m).
Definition set_content (c : Content) (f : option string) (m : Model) : Model :=
  mkModel (m_name m) (m_path m) (m_last_modified m) (m_created m) c
          f (m_mimetype m) (m_writable m) (m_type m) (m_message m).
Definition set_message (msg : option string) (m : Model) : Model :=
  mkModel (m_name m) (m_path m) (m_last_modified m) (m_created m) (m_content m)
          (m_format m) (m_mimetype m) (m_writable m) (m_type m) msg.

(** [validate_notebook_model(model)] of the base class: a failed
    validation leaves its message in the model. *)
Definition validate_notebook_model (m : Model) : Model :=
  match validate_nb env (m_content m) with
  | Some msg => set_message (Some msg) m
  | None => m
  end.

Definition _read_file (blob : Blob) (format : option string)
    : Mgr (string * string) :=
  bcontent <- blob_download_as_string blob;
  decoded <-
    (if bool_decide (format = None) || bool_decide (format = Some "text") then
       (* Try to interpret as unicode if format is unknown or if unicode
          was explicitly requested. *)
       try_except
         (s <- lift (Codec.decode_utf8 bcontent); ret (Some (s, "text")))
         is_UnicodeError
         (λ _, if bool_decide (format = Some "text") then
                 raise (HTTPError 400
                          (_get_blob_path blob +:+ " is not UTF-8 encoded"))
               else ret None)
     else ret None);
  match decoded with
  | Some r => ret r
  | None =>
      s <- lift (Codec.decode_ascii (Codec.encodebytes bcontent));
      ret (s, "base64")
  end.

Definition _file_model (blob : Payload) (content : bool) (format : option string)
    : Mgr Model :=
  blob <- as_blob blob;
  let model := set_type "file" (_base_model blob) in
  if content then
    '(content, format) <- _read_file blob format;
    let model :=
      if bool_decide (m_mimetype model = None) then
        set_mimetype
          (Some (if String.eqb format "text" then "text/plain"
                 else "application/octet-stream"))
          model
      else model in
    ret (set_content (CText content) (Some format) model)
  else ret model.

Definition _read_notebook (blob : Blob) : Mgr NotebookNode :=
  bdata <- blob_download_as_string blob;
  data <- lift (Codec.decode_utf8 bdata);
  nb <- lift (reads env data);
  lift (mark_trusted_cells env nb (_get_blob_path blob)).

Definition _notebook_model (blob : Payload) (content : bool) : Mgr Model :=
  blob <- as_blob blob;
  let model := set_type "notebook" (_base_model blob) in
  if content then
    nb <- _read_notebook blob;
    ret (validate_notebook_model (set_content (CNotebook nb) (Some "json") model))
  else ret model.

(** [for x in xs: if keep(x): contents.append(build(x))]. *)
Fixpoint append_each {A} (xs : list A) (keep : A → bool)
    (build : A → Mgr Model) : Mgr (list Model) :=
  match xs with
  | [] => ret []
  | x :: xs' =>
      if keep x then
        m <- build x;
        ms <- append_each xs' keep build;
        ret (m :: ms)
      else append_each xs' keep build
  end.

(** [_dir_model] and [get] call each other; [self_get] is the [get] that
    [_dir_model] calls for the children. *)
Definition _dir_model (self_get : PathArg → bool → Mgr Model)
    (path : string) (members : Payload) (content : bool) : Mgr Model :=
  writable <-
    (if decide (path = "") then ret (VStr "")
     else match members with
          | PNone => hidden <- is_hidden path; ret (VBool (negb hidden))
          | _ => ret (VBool true)
          end);
  let model :=
    {| m_name := _get_dir_name path;
       m_path := path;
       m_last_modified := VStr "";
       m_created := VStr "";
       m_content := CNone;
       m_format := None;
       m_mimetype := Some "application/x-directory";
       m_writable := writable;
       m_type := Some "directory";
       m_message := None |} in
  if content then
    match members with
    | PMembers blobs folders =>
        files <- append_each blobs
                   (λ blob, negb (String.eqb (_get_blob_path blob) path)
                            && should_list env (_get_blob_name blob))
                   (λ blob, self_get (PathBlob blob) false);
        '(bucket, this) <- lift (_parse_path path);
        let tmpl (folder : string) :=
          if decide (path ≠ "") then bucket +:+ "/" +:+ folder +:+ "/"
          else folder in
        dirs <- append_each folders
                  (λ folder, should_list env folder
                             && negb (String.eqb folder this))
                  (λ folder, self_get (PathStr (tmpl folder)) false);
        ret (set_content (CListing (files ++ dirs)) (Some "json") model)
    | PNone => raise (TypeError "cannot unpack non-iterable NoneType object")
    | PBlob _ => raise (TypeError "cannot unpack non-iterable Blob object")
    end
  else ret model.

Definition get_body (self_get : PathArg → bool → Mgr Model)
    (path : PathArg) (content : bool) (type format : option string)
    : Mgr Model :=
  let path := match path with
              | PathBlob obj => _get_blob_path obj
              | PathStr p => strip_leading_slash p
              end in
  if negb (PyStr.contains PyStr.slash path) || PyStr.endswith path "/"
     || bool_decide (type = Some "directory")
  then
    if negb (bool_decide (type = None) || bool_decide (type = Some "directory"))
    then raise (HTTPError 400 (path +:+ " is not a directory"))
    else
      let path :=
        if PyStr.contains PyStr.slash path && negb (PyStr.endswith path "/")
        then path +:+ "/" else path in
      '(exists_, members) <- _fetch path content;
      if negb (truthy exists_) then
        raise (HTTPError 404 ("No such directory: " +:+ path))
      else _dir_model self_get path members content
  else
    '(exists_, blob) <- _fetch path true;
    if negb (truthy exists_) then
      raise (HTTPError 404 ("No such file: " +:+ path))
    else if bool_decide (type = Some "notebook")
            || (bool_decide (type = None) && PyStr.endswith path ".ipynb")
    then _notebook_model blob content
    else _file_model blob content format.

(** [_dir_model] calls [get] with [content=False] only, and a [get]
    without content never reaches the loop of [_dir_model]: the recursion
    stops at the children. *)
Definition get_child (path : PathArg) (content : bool) : Mgr Model :=
  get_body (λ _ _, raise RecursionError) path content None None.

Definition get (path : PathArg) (content : bool) (type format : option string)
    : Mgr Model :=
  get_body get_child path content type format.


(** *** Writing objects *)

(** The bucket a method goes on to use: [None] has no methods. *)
Definition need_bucket (b : option Bucket) : Mgr Bucket :=
  match b with
  | Some b => ret b
  | None => raise (AttributeError "'NoneType' object has no attribute 'blob'")
  end.

Definition _save_notebook (path : string) (nb : NotebookNode) : Mgr Blob :=
  '(bucket_name, bucket_path) <- lift (_parse_path path);
  bucket <- _get_bucket bucket_name true;
  data <- lift (writes env nb);
  bucket <- need_bucket bucket;
  let blob := bucket_blob bucket bucket_path in
  blob_upload_from_string blob data "application/x-ipynb+json".

(** [content.encode(...)]: only a [str] has the method. *)
Definition content_encode (content : Content) (codec : string → result string)
    : result string :=
  match content with
  | CText s => codec s
  | CNone => Raise (AttributeError "'NoneType' object has no attribute 'encode'")
  | CNotebook _ => Raise (AttributeError "'dict' object has no attribute 'encode'")
  | CListing _ => Raise (AttributeError "'list' object has no attribute 'encode'")
  end.

(** The text of the 400 error of [_save_file]; the two formats are in
    double quotes. *)
Definition dquote : string := String (Codec.chr 34) EmptyString.
Definition format_message : string :=
  "Must specify format of file contents as " +:+ dquote +:+ "text" +:+ dquote
  +:+ " or " +:+ dquote +:+ "base64" +:+ dquote.

Definition _save_file (path : string) (content : Content) (format : option string)
    : Mgr Blob :=
  '(bucket_name, bucket_path) <- lift (_parse_path path);
  bucket <- _get_bucket bucket_name true;
  if negb (bool_decide (format = Some "text")
           || bool_decide (format = Some "base64"))
  then
    raise (HTTPError 400 format_message)
  else
    bcontent <-
      try_except
        (if bool_decide (format = Some "text") then
           lift (content_encode content Codec.encode_utf8)
         else
           b64_bytes <- lift (content_encode content Codec.encode_ascii);
           lift (Codec.decodebytes b64_bytes))
        is_Exception
        (λ e, raise (HTTPError 400
                ("Encoding error saving " +:+ path +:+ ": "
                 +:+ exception_text env e)));
    bucket <- need_bucket bucket;
    let blob := bucket_blob bucket bucket_path in
    blob_upload_from_string blob bcontent "text/plain".

Definition _save_directory (path : string) (model : ModelDict) : Mgr unit :=
  '(exists_, obj) <- _fetch path true;
  if truthy exists_ then
    match obj with
    | PBlob _ => raise (HTTPError 400 ("Not a directory: " +:+ path))
    | _ => ret tt
    end
  else
    '(bucket_name, bucket_path) <- lift (_parse_path path);
    if decide (bucket_path = "") then
      _ <- client_create_bucket bucket_name; ret tt
    else
      bucket <- _get_bucket bucket_name true;
      bucket <- need_bucket bucket;
      _ <- blob_upload_from_string (bucket_blob bucket (bucket_path +:+ "/"))
             "" "application/x-directory";
      ret tt.

(** *** Checkpoints ([GoogleStorageCheckpoints]) *)

Definition _get_checkpoint_path (checkpoint_id : option string) (path : string)
    : result string :=
  let path := strip_leading_slash path in
  match _parse_path path with
  | Raise e => Raise e
  | Ok (bucket_name, bucket_path) =>
      let bucket_name :=
        if negb (String.eqb (checkpoint_bucket cfg) "")
        then checkpoint_bucket cfg else bucket_name in
      let slash := Z.to_nat (PyStr.rfind PyStr.slash bucket_path + 1) in
      let '(name, ext) := PyStr.splitext (PyStr.drop slash bucket_path) in
      match checkpoint_id with
      | Some checkpoint_id =>
          Ok (bucket_name +:+ "/" +:+ PyStr.take slash bucket_path
              +:+ checkpoint_dir cfg +:+ "/" +:+ name +:+ "-"
              +:+ checkpoint_id +:+ ext)
      | None =>
          Ok (bucket_name +:+ "/" +:+ PyStr.take slash bucket_path
              +:+ checkpoint_dir cfg +:+ "/" +:+ name)
      end
  end.

(** [checkpoints.sort(key=last_modified, reverse=True)]: stable, latest
    first. *)
Definition cp_key (c : Checkpoint) : Z := default 0 (cp_last_modified c).
Fixpoint insert_latest_first (c : Checkpoint) (l : list Checkpoint)
    : list Checkpoint :=
  match l with
  | [] => [c]
  | d :: l' =>
      if (cp_key d <=? cp_key c) then c :: l
      else d :: insert_latest_first c l'
  end.
Definition sort_latest_first (l : list Checkpoint) : list Checkpoint :=
  foldr insert_latest_first [] l.

(** The checkpoint a listed blob stands for. *)
Definition checkpoint_of (file : Blob) : Checkpoint :=
  {| cp_id := PyStr.take_last 36 (PyStr.splitext (blob_path file)).1;
     cp_last_modified := blob_updated file |}.

Definition list_checkpoints (path : string) : Mgr (list Checkpoint) :=
  cp <- lift (_get_checkpoint_path None path);
  '(bucket_name, bucket_path) <- lift (_parse_path cp);
  try_else
    (bucket <- _get_bucket bucket_name false;
     bucket <- need_bucket bucket;
     it <- bucket_list_blobs bucket bucket_path (max_list_size cfg);
     ret (checkpoint_of <$> it.1))
    is_NotFound
    (λ _, ret [])
    (λ checkpoints, ret (sort_latest_first checkpoints)).

(** [nbformat.writes] needs a notebook. *)
Definition content_notebook (c : Content) : Mgr NotebookNode :=
  match c with
  | CNotebook nb => ret nb
  | _ => raise (AttributeError "object has no attribute 'nbformat'")
  end.

Definition create_file_checkpoint (content : Content) (format : option string)
    (path : string) : Mgr Checkpoint :=
  checkpoint_id <- uuid4;
  cp <- lift (_get_checkpoint_path (Some checkpoint_id) path);
  blob <- _save_file cp content format;
  ret {| cp_id := checkpoint_id; cp_last_modified := blob_updated blob |}.

Definition create_notebook_checkpoint (nb : Content) (path : string)
    : Mgr Checkpoint :=
  checkpoint_id <- uuid4;
  cp <- lift (_get_checkpoint_path (Some checkpoint_id) path);
  nb <- content_notebook nb;
  blob <- _save_notebook cp nb;
  ret {| cp_id := checkpoint_id; cp_last_modified := blob_updated blob |}.

(** [create_checkpoint] of [GenericCheckpointsMixin], through which the
    manager's [create_checkpoint(path)] goes. *)
Definition create_checkpoint (path : string) : Mgr Checkpoint :=
  model <- get (PathStr path) true None None;
  match m_type model with
  | None => raise (KeyError "type")
  | Some type =>
      if String.eqb type "notebook" then
        create_notebook_checkpoint (m_content model) path
      else if String.eqb type "file" then
        create_file_checkpoint (m_content model) (m_format model) path
      else raise (HTTPError 500 ("Unexpected type " +:+ type))
  end.

Definition get_file_checkpoint (checkpoint_id path : string)
    : Mgr (string * string) :=
  cp <- lift (_get_checkpoint_path (Some checkpoint_id) path);
  '(exists_, blob) <- _fetch cp true;
  if negb (truthy exists_) then
    raise (HTTPError 404 ("No such checkpoint: " +:+ checkpoint_id
                          +:+ " for " +:+ path))
  else
    blob <- as_blob blob;
    _read_file blob None.

Definition get_notebook_checkpoint (checkpoint_id path : string)
    : Mgr NotebookNode :=
  cp <- lift (_get_checkpoint_path (Some checkpoint_id) path);
  '(exists_, blob) <- _fetch cp true;
  if negb (truthy exists_) then
    raise (HTTPError 404 ("No such checkpoint: " +:+ checkpoint_id
                          +:+ " for " +:+ path))
  else
    blob <- as_blob blob;
    _read_notebook blob.

(** *** [save] and the post-save hook *)

Definition run_post_save_hook (model : Model) (os_path : string) : Mgr unit :=
  match post_save_hook cfg with
  | None => ret tt
  | Some hook =>
      try_except
        ((* the arguments are evaluated first; [path] is not a name of
            this method *)
         path <- unbound_name "path";
         _ <- modify (add_hook_call path model);
         lift (hook path model))
        is_Exception
        (λ _, log_error ("Post-save hook failed on " +:+ os_path))
  end.

(** [model["type"]] and [model["content"]]. *)
Definition dict_type (model : ModelDict) : Mgr string :=
  match d_type model with Some t => ret t | None => raise (KeyError "type") end.
Definition dict_content (model : ModelDict) : Mgr Content :=
  match d_content model with
  | Some c => ret c
  | None => raise (KeyError "content")
  end.

(** The dispatch on the type, which [save] runs inside its [try]. *)
Definition save_dispatch (model : ModelDict) (path : string) : Mgr unit :=
  type <- dict_type model;
  if String.eqb type "notebook" then
    content <- dict_content model;
    nb <- lift (from_dict env content);
    _ <- lift (check_and_sign env nb path);
    _ <- _save_notebook path nb;
    (* One checkpoint should always exist for notebooks. *)
    checkpoints <- list_checkpoints path;
    if bool_decide (checkpoints = []) then
      _ <- create_checkpoint path; ret tt
    else ret tt
  else if String.eqb type "file" then
    (* Missing format will be handled internally by _save_file. *)
    content <- dict_content model;
    _ <- _save_file path content (d_format model); ret tt
  else if String.eqb type "directory" then
    _save_directory path model
  else
    raise (HTTPError 00 ("Unhandled contents type: " +:+ type)).

(** What follows the [try] of [save]: validation message, the model
    fetched again without content, the post-save hook. *)
Definition save_finish (model : ModelDict) (path : string) : Mgr Model :=
  type <- dict_type model;
  validation_message <-
    (if String.eqb type "notebook" then
       content <- dict_content model;
       ret (match validate_nb env content with
            | Some msg => Some msg
            | None => d_message model
            end)
     else ret None);
  model <- get (PathStr path) false None None;
  let model :=
    match validation_message with
    | Some msg => if String.eqb msg "" then model
                  else set_message (Some msg) model
    | None => model
    end in
  _ <- run_post_save_hook model path;
  ret model.

(** The path [save] works with once the type is known. *)
Definition save_path (model : ModelDict) (path bucket_path : string) : string :=
  if negb (bool_decide (bucket_path = ""))
     && bool_decide (d_type model = Some "directory")
  then path +:+ "/" else path.

Definition save (model : ModelDict) (path : string) : Mgr Model :=
  let path := strip_leading_slash path in
  if bool_decide (d_type model = None) then
    raise (HTTPError 400 "No file type provided")
  else if bool_decide (d_content model = None)
          && negb (bool_decide (d_type model = Some "directory")) then
    raise (HTTPError 400 "No file content provided")
  else
    '(bucket_name, bucket_path) <- lift (_parse_path path);
    if bool_decide (bucket_path = "")
       && negb (bool_decide (d_type model = Some "directory")) then
      raise (HTTPError 403
        "You may only create directories (buckets) at the root level.")
    else
      let path := save_path model path bucket_path in
      model <- lift (run_pre_save_hook env model path);
      _ <- try_except
             (save_dispatch model path)
             (λ e, negb (is_HTTPError e))
             (λ e,
                _ <- log_error ("Error while saving file: " +:+ path +:+ " "
                                +:+ exception_text env e);
                raise (HTTPError 500
                         ("Unexpected error while saving file: " +:+ path
                          +:+ " " +:+ exception_text env e)));
      save_finish model path.

(** *** [delete_file] and [rename_file]

    Both call themselves for the sub-directories; [fuel] is what remains
    of the interpreter's recursion limit. *)

Fixpoint delete_file_rec (fuel : nat) (path : string) : Mgr unit :=
  match fuel with
  | O => raise RecursionError
  | S fuel' =>
      let path := strip_leading_slash path in
      '(bucket_name, bucket_path) <- lift (_parse_path path);
      bucket <- _get_bucket bucket_name true;
      bucket <- need_bucket bucket;
      if decide (bucket_path = "") then
        _ <- bucket_delete bucket;
        del_bucket_cache bucket_name
      else
        it <- bucket_list_blobs bucket bucket_path (max_list_size cfg);
        let files := it.1 in
        let folders := PyStr.drop_last 1 <$> it.2 in
        _ <- bucket_delete_blobs bucket files;
        let path := if negb (PyStr.endswith path "/") then path +:+ "/"
                    else path in
        for_each folders (λ folder, delete_file_rec fuel' (path +:+ folder))
  end.

Definition recursion_limit : nat := 1000.

Definition delete_file (path : string) : Mgr unit :=
  delete_file_rec recursion_limit path.

Fixpoint rename_file_rec (fuel : nat) (old_path new_path : string) : Mgr unit :=
  match fuel with
  | O => raise RecursionError
  | S fuel' =>
      let old_path := strip_leading_slash old_path in
      let new_path := strip_leading_slash new_path in
      '(old_bucket_name, old_bucket_path) <- lift (_parse_path old_path);
      old_bucket <- _get_bucket old_bucket_name true;
      '(new_bucket_name, new_bucket_path) <- lift (_parse_path new_path);
      new_bucket <- _get_bucket new_bucket_name true;
      old_bucket <- need_bucket old_bucket;
      (* [old_bucket.get_blob()]: the blob name is not passed *)
      old_blob <- (call_without "get_blob" "blob_name" : Mgr (option Blob));
      if String.eqb old_bucket_name new_bucket_name then
        match old_blob with
        | Some blob =>
            _ <- bucket_rename_blob old_bucket blob new_bucket_path; ret tt
        | None =>
            it <- bucket_list_blobs old_bucket old_bucket_path
                    (max_list_size cfg);
            let old_blobs := it.1 in
            let folders := PyStr.drop_last 1 <$> it.2 in
            _ <- for_each old_blobs (λ ob,
                   _ <- bucket_rename_blob old_bucket ob
                          (new_bucket_path +:+ "/" +:+ _get_blob_name ob);
                   ret tt);
            for_each folders (λ f,
              rename_file_rec fuel' (old_bucket_path +:+ "/" +:+ f)
                                    (new_bucket_path +:+ "/" +:+ f))
        end
      else
        new_bucket <- need_bucket new_bucket;
        match old_blob with
        | Some blob =>
            _ <- bucket_copy_blob old_bucket blob new_bucket new_bucket_path;
            bucket_delete_blob old_bucket old_blob
        | None =>
            it <- bucket_list_blobs old_bucket old_bucket_path
                    (max_list_size cfg);
            let old_blobs := it.1 in
            let folders := PyStr.drop_last 1 <$> it.2 in
            _ <- for_each old_blobs (λ ob,
                   _ <- bucket_copy_blob old_bucket ob new_bucket
                          (new_bucket_path +:+ "/" +:+ _get_blob_name ob);
                   bucket_delete_blob old_bucket old_blob);
            for_each folders (λ f,
              rename_file_rec fuel' (old_bucket_path +:+ "/" +:+ f)
                                    (new_bucket_path +:+ "/" +:+ f))
        end
  end.

Definition rename_file (old_path new_path : string) : Mgr unit :=
  rename_file_rec recursion_limit old_path new_path.

Definition rename_checkpoint (checkpoint_id old_path new_path : string)
    : Mgr unit :=
  old_cp <- lift (_get_checkpoint_path (Some checkpoint_id) old_path);
  new_cp <- lift (_get_checkpoint_path (Some checkpoint_id) new_path);
  rename_file old_cp new_cp.

Definition delete_checkpoint (checkpoint_id path : string) : Mgr unit :=
  cp <- lift (_get_checkpoint_path (Some checkpoint_id) path);
  delete_file cp.

End Manager.

(** ** A concrete installation, for the examples *)

Module Demo.

(** Notebooks as their JSON text. *)
Definition Notebook : Type := string.

(** A stand-in for [str(e)] in the examples: the class of the exception
    and the text it carries. *)
Definition render (e : exn) : string :=
  match e with
  | NotFound => "NotFound"
  | Forbidden => "Forbidden"
  | BadRequest => "BadRequest"
  | Conflict => "Conflict"
  | RecursionError => "RecursionError"
  | HTTPError _ msg => "HTTPError: " +:+ msg
  | ValueError msg => "ValueError: " +:+ msg
  | TypeError msg => "TypeError: " +:+ msg
  | NameError n => "NameError: " +:+ n
  | AttributeError msg => "AttributeError: " +:+ msg
  | KeyError k => "KeyError: " +:+ k
  | UnicodeError msg => "UnicodeError: " +:+ msg
  | BinasciiError msg => "binascii.Error: " +:+ msg
  | CollaboratorError msg => "Error: " +:+ msg
  end.

Definition collaborators : @Collaborators Notebook :=
  {| from_dict := λ c, match c with
                       | CNotebook nb => Ok nb
                       | _ => Raise (CollaboratorError "not a notebook")
                       end;
     check_and_sign := λ _ _, Ok tt;
     writes := λ nb, Ok nb;
     reads := λ data, Ok data;
     mark_trusted_cells := λ nb _, Ok nb;
     validate_nb := λ _, None;
     should_list := λ name, negb (String.eqb name "__pycache__");
     run_pre_save_hook := λ model _, Ok model;
     exception_text := render |}.

(** The default traits, no hook. *)
Definition defaults : @Config Notebook :=
  {| checkpoint_dir := ".ipynb_checkpoints";
     checkpoint_bucket := "";
     max_list_size := 1024;
     cache_buckets := true;
     post_save_hook := None |}.

Definition with_hook (hook : string → @Model Notebook → result unit)
    : @Config Notebook :=
  {| checkpoint_dir := ".ipynb_checkpoints";
     checkpoint_bucket := "";
     max_list_size := 1024;
     cache_buckets := true;
     post_save_hook := Some hook |}.

Definition object_at (t : Z) (data : string) : Object :=
  {| o_data := data; o_content_type := Some "text/plain"; o_updated := t |}.

Definition fresh (buckets : gmap string BucketEntry) : @Manager Notebook :=
  {| storage := {| st_buckets := buckets; st_clock := 10 |};
     _bucket_cache := None;
     log := [];
     uuids := 0;
     hook_calls := [] |}.

End Demo.

Import Demo.

(** * Properties *)

(** ** The path resolver *)

Lemma split1_spec (s : string) :
  (PyStr.contains PyStr.slash s = false ∧ PyStr.split1 PyStr.slash s = [s])
  ∨ (∃ a b, PyStr.split1 PyStr.slash s = [a; b]
            ∧ s = a +:+ "/" +:+ b
            ∧ PyStr.contains PyStr.slash a = false
            ∧ PyStr.contains PyStr.slash s = true).
Proof.
  induction s as [|c s IH]; simpl.
  - by left.
  - destruct (Ascii.eqb c PyStr.slash) eqn:Hc.
    + right. exists "", s. apply Ascii.eqb_eq in Hc. subst c. done.
    + destruct IH as [[Hn ->]|(a & b & -> & -> & Ha & Hs)].
      * left. done.
      * right. exists (String c a), b. simpl. rewrite Hc. done.
Qed.

Lemma parse_path_total (p : string) : ∃ bucket name, _parse_path p = Ok (bucket, name).
Proof.
  unfold _parse_path.
  destruct (split1_spec p) as [[_ ->]|(a & b & -> & _)]; simpl; eauto.
Qed.

(** C4: on every string, and so on every path without a leading slash,
    [_parse_path] returns, never raises, and splits at the first slash:
    the bucket has no slash in it and is followed by the slash and the
    name; without a slash the bucket is the whole string and the name is
    empty.  The two examples of the specification are instances. *)
Theorem parse_path_splits_at_first_slash :
  (∀ P : string, ∃ bucket name,
      _parse_path P = Ok (bucket, name)
      ∧ PyStr.contains PyStr.slash bucket = false
      ∧ (if PyStr.contains PyStr.slash P
         then P = bucket +:+ "/" +:+ name
         else bucket = P ∧ name = ""))
  ∧ _parse_path "a/b/c" = Ok ("a", "b/c")
  ∧ _parse_path "a" = Ok ("a", "").
Proof.
  split; [|done].
  intros P. unfold _parse_path.
  destruct (split1_spec P) as [[Hn ->]|(a & b & -> & HP & Ha & Hs)]; simpl.
  - exists P, "". rewrite Hn. done.
  - exists a, b. rewrite Hs. done.
Qed.

(** ** Fetch *)

(** C6: for every non-empty path (the empty path lists the containers and
    resolves none), when resolving the container raises [Forbidden],
    [_fetch] does not raise: it returns [True] and no payload, whether or
    not content was requested. *)
Theorem fetch_swallows_forbidden {NB : Type} (cfg : @Config NB)
    (path bucket_name bucket_path : string) (content : bool)
    (st st' : @Manager NB) :
  path ≠ "" →
  _parse_path path = Ok (bucket_name, bucket_path) →
  _get_bucket cfg bucket_name false st = (Raise Forbidden, st') →
  _fetch cfg path content st = (Ok (VBool true, PNone), st').
Proof.
  intros Hne Hparse Hget. unfold _fetch.
  destruct (decide (path = "")) as [?|_]; [done|].
  unfold parse_or_return. rewrite Hparse.
  unfold try_else. rewrite Hget. done.
Qed.

Lemma fetch_swallows_forbidden_witness :
  _fetch defaults "secret/report.txt" true (fresh {[ "secret" := Denied ]})
  = (Ok (VBool true, PNone),
     set_bucket_cache (Some ∅) (fresh {[ "secret" := Denied ]})).
Proof.
  apply (fetch_swallows_forbidden defaults "secret/report.txt" "secret"
           "report.txt" true).
  - done.
  - reflexivity.
  - reflexivity.
Defined.

(** A state with one bucket that holds no object. *)
Definition empty_bucket : @Manager Notebook := fresh {[ "bucket" := Live ∅ ]}.

(** C5, on the code: asked without content for the key [missing] of an
    existing bucket, [_fetch] returns as first component the bound method
    [exists] of the blob, uncalled: not a boolean, and true for every
    caller that tests it, although the object does not exist. *)
Theorem fetch_probe_returns_uncalled_method :
  let blob := bucket_blob (mkBucket "bucket") "missing" in
  (_fetch defaults "bucket/missing" false empty_bucket).1
    = Ok (VBoundMethod "exists" blob, PNone)
  ∧ truthy (VBoundMethod "exists" blob) = true
  ∧ (blob_exists blob empty_bucket).1 = Ok false.
Proof. vm_compute. done. Qed.

(** The same on every state: once the bucket is resolved, a key that is
    neither empty nor ends in a slash gets the uncalled method. *)
Lemma fetch_probe_is_never_a_boolean {NB : Type} (cfg : @Config NB)
    (path bucket_name bucket_path : string) (bucket : Bucket)
    (st st' : @Manager NB) :
  path ≠ "" →
  _parse_path path = Ok (bucket_name, bucket_path) →
  bucket_path ≠ "" →
  PyStr.endswith bucket_path "/" = false →
  _get_bucket cfg bucket_name false st = (Ok (Some bucket), st') →
  _fetch cfg path false st
  = (Ok (VBoundMethod "exists" (bucket_blob bucket bucket_path), PNone), st').
Proof.
  intros Hne Hparse Hkey Hslash Hget. unfold _fetch.
  destruct (decide (path = "")) as [?|_]; [done|].
  unfold parse_or_return. rewrite Hparse.
  unfold try_else. rewrite Hget.
  rewrite bool_decide_eq_false_2 by done. rewrite Hslash. done.
Qed.

(** ** [file_exists] *)

(** X22: [file_exists] never answers [True] for a path of directory
    intent.  The empty path is not a file; a path whose object key is
    empty or ends in a slash is not a file whenever the lookup of its
    bucket returns, found or not, and even if a blob of that name exists;
    when the lookup raises, [file_exists] raises the same exception. *)
Theorem file_exists_false_for_directory_paths {NB : Type} (cfg : @Config NB)
    (path bucket_name bucket_path : string) (st : @Manager NB) :
  _parse_path (strip_leading_slash path) = Ok (bucket_name, bucket_path) →
  path = "" ∨ bucket_path = "" ∨ PyStr.endswith bucket_path "/" = true →
  file_exists cfg "" st = (Ok false, st)
  ∧ (path ≠ "" →
     file_exists cfg path st
     = match _get_bucket cfg bucket_name false st with
       | (Ok _, st') => (Ok false, st')
       | (Raise e, st') => (Raise e, st')
       end).
Proof.
  intros Hparse Hdir. split; [done|].
  intros Hne. destruct Hdir as [?|Hdir]; [done|].
  unfold file_exists.
  destruct (decide (path = "")) as [?|_]; [done|].
  unfold parse_or_return. rewrite Hparse. unfold bind.
  destruct (_get_bucket cfg bucket_name false st) as [[[b|]|e] st']; try done.
  destruct (decide (bucket_path = "")) as [?|Hk]; [done|].
  destruct Hdir as [?|Hs]; [done|]; rewrite Hs; done.
Qed.

(** A bucket with a directory marker and two files below it. *)
Definition bucket_with_dir : @Manager Notebook :=
  fresh {[ "bucket" := Live (<["dir/" := object_at 1 ""]>
                             (<["dir/a" := object_at 2 "A"]>
                              (<["dir/b" := object_at 3 "B"]> ∅))) ]}.

Lemma file_exists_false_for_directory_paths_witness :
  (blob_exists (bucket_blob (mkBucket "bucket") "dir/") bucket_with_dir).1
    = Ok true
  ∧ (file_exists defaults "bucket/dir/" bucket_with_dir).1 = Ok false.
Proof.
  split; [reflexivity|].
  pose proof (file_exists_false_for_directory_paths defaults "bucket/dir/"
                "bucket" "dir/" bucket_with_dir) as H.
  destruct H as [_ H].
  - reflexivity.
  - right. right. reflexivity.
  - rewrite H by done. reflexivity.
Defined.

(** C10, on the code: for a path whose key ends in a slash, in a bucket
    the caller may not see, [file_exists] does not return [False]: it
    raises [Forbidden], which [is_hidden] and [_fetch] catch around the
    same lookup and [file_exists] does not.  The same path is hidden for
    [is_hidden] and exists for [_fetch].  Nor does it return [False] for
    a path with two leading slashes: one is stripped, the bucket name is
    empty and the library raises [ValueError]. *)
Theorem file_exists_raises_on_denied_bucket :
  PyStr.endswith "dir/" "/" = true
  ∧ (file_exists defaults "secret/dir/" (fresh {[ "secret" := Denied ]})).1
    = Raise Forbidden
  ∧ (file_exists defaults "secret/dir/" (fresh {[ "secret" := Denied ]})).1
    ≠ Ok false
  ∧ (is_hidden defaults "secret/dir/" (fresh {[ "secret" := Denied ]})).1
    = Ok true
  ∧ (_fetch defaults "secret/dir/" false (fresh {[ "secret" := Denied ]})).1
    = Ok (VBool true, PNone)
  ∧ ∃ msg, (file_exists defaults "//dir/" empty_bucket).1
           = Raise (ValueError msg).
Proof.
  split; [reflexivity|]. split; [reflexivity|]. split; [by vm_compute|].
  split; [reflexivity|]. split; [reflexivity|].
  eexists. reflexivity.
Qed.

(** ** Directory listings *)

Lemma append_each_filter {NB A : Type} (P : A → Prop) `{∀ x, Decision (P x)}
    (xs : list A) (keep : A → bool) (build : A → M (@Manager NB) (@Model NB)) :
  (∀ x, keep x = true → P x) →
  append_each xs keep build = append_each (filter P xs) keep build.
Proof.
  intros Hkeep. induction xs as [|x xs IH]; [done|].
  rewrite filter_cons. destruct (decide (P x)) as [HP|HP]; simpl.
  - destruct (keep x); [|done]. by rewrite IH.
  - destruct (keep x) eqn:Hk; [|done]. by apply Hkeep in Hk.
Qed.

Lemma bind_ext {S A B : Type} (m : M S A) (k k' : A → M S B) (s : S) :
  (∀ a s', k a s' = k' a s') → bind m k s = bind m k' s.
Proof. intros H. unfold bind. destruct (m s) as [[a|e] s1]; [apply H|done]. Qed.

Lemma bind_lift_ok {S A B : Type} (a : A) (k : A → M S B) (s : S) :
  bind (lift (Ok a)) k s = k a s.
Proof. reflexivity. Qed.

(** Where the object of a child model is read from the path of its blob. *)
Definition children_paths {NB : Type} (r : result (@Model NB)) : option (list string) :=
  match r with
  | Ok m => match m_content m with
            | CListing l => Some (m_path <$> l)
            | _ => None
            end
  | Raise _ => None
  end.

(** The folder of a listing that is the key of the directory itself. *)
Definition own_folder (path folder : string) : bool :=
  match _parse_path path with
  | Ok (_, this) => String.eqb folder this
  | Raise _ => false
  end.

(** A bucket in which the directory [new] has the marker that [save]
    writes for it, [new//], and a file two levels down. *)
Definition bucket_with_saved_dir : @Manager Notebook :=
  fresh {[ "bucket" :=
             Live (<["new//" := {| o_data := "";
                                    o_content_type := Some "application/x-directory";
                                    o_updated := 1 |}]>
                   (<["new/sub/x" := object_at 2 "X"]> ∅)) ]}.

(** C7: the entry of the directory itself is never among the children.
    A listing is the same with and without the blobs whose path is the
    path of the directory and the folders whose name is its key, whatever
    the members, the filter and the state: both loops of [_dir_model]
    leave the own entry out.  With the objects [dir/a], [dir/b] and the
    marker [dir/] in [bucket], listing [bucket/dir/] yields the children
    [a] and [b] only; with the marker [new//] and the object [new/sub/x],
    where the service lists the folders [new/] and [new/sub] under
    [new/], listing [bucket/new/] yields the child [sub] only. *)
Theorem dir_listing_excludes_own_entry :
  (∀ (NB : Type) (cfg : @Config NB) (env : @Collaborators NB)
     (self_get : PathArg → bool → M (@Manager NB) (@Model NB))
     (path : string) (blobs : list Blob) (folders : list string)
     (st : @Manager NB),
     _dir_model cfg env self_get path (PMembers blobs folders) true st
     = _dir_model cfg env self_get path
         (PMembers (filter (λ blob, _get_blob_path blob ≠ path) blobs)
                   (filter (λ folder, own_folder path folder = false) folders))
         true st)
  ∧ (blob_exists (bucket_blob (mkBucket "bucket") "dir/") bucket_with_dir).1
    = Ok true
  ∧ children_paths
      (get defaults collaborators (PathStr "bucket/dir/") true None None
         bucket_with_dir).1
    = Some ["bucket/dir/a"; "bucket/dir/b"]
  ∧ (∃ folders,
       (_fetch defaults "bucket/new/" true bucket_with_saved_dir).1
       = Ok (VBool true, PMembers [] folders)
       ∧ folders ≡ₚ ["new/"; "new/sub"]
       ∧ own_folder "bucket/new/" "new/" = true)
  ∧ children_paths
      (get defaults collaborators (PathStr "bucket/new/") true None None
         bucket_with_saved_dir).1
    = Some ["bucket/new/sub/"].
Proof.
  split; [|split; [reflexivity|split; [reflexivity|split; [|reflexivity]]]].
  - intros. unfold _dir_model, own_folder.
    apply bind_ext. intros writable s1.
    rewrite (append_each_filter (λ blob, _get_blob_path blob ≠ path) blobs).
    2:{ intros blob Hk. apply andb_prop in Hk as [Hk _].
        apply negb_true_iff, String.eqb_neq in Hk. done. }
    apply bind_ext. intros files s2.
    destruct (_parse_path path) as [[bucket this]|e]; [|done].
    rewrite !bind_lift_ok.
    rewrite (append_each_filter (λ folder, String.eqb folder this = false)
               folders); [done|].
    intros folder Hk. apply andb_prop in Hk as [_ Hk].
    by apply negb_true_iff in Hk.
  - eexists. split; [vm_compute; reflexivity|]. split; [|reflexivity].
    apply Permutation_swap || reflexivity.
Qed.

(** ** Saving and reading back a file *)

Definition file_model (format content : string) : @ModelDict Notebook :=
  {| d_type := Some "file";
     d_content := Some (CText content);
     d_format := Some format;
     d_message := None |}.

(** [save(model, path)] and then [get(path, format=format)]: what the
    second call returns as content. *)
Definition saved_then_fetched (format content : string) : result (@Content Notebook) :=
  match save defaults collaborators (file_model format content)
             "bucket/hello.bin" empty_bucket with
  | (Ok _, st) =>
      match get defaults collaborators (PathStr "bucket/hello.bin") true
                (Some "file") (Some format) st with
      | (Ok m, _) => Ok (m_content m)
      | (Raise e, _) => Raise e
      end
  | (Raise e, _) => Raise e
  end.

(** The base64 encoding of [hello], saved and read back as base64, does
    not come back as the same string. *)
Lemma base64_roundtrip_is_not_the_same_string :
  Codec.decodebytes "aGVsbG8=" = Ok "hello"
  ∧ saved_then_fetched "base64" "aGVsbG8=" ≠ Ok (CText "aGVsbG8=").
Proof. vm_compute. split; [done|]. intros [=]. Qed.

(** C3 as the code has it: text comes back as it was saved; base64 comes
    back as [base64.encodebytes] writes it, the encoding of the same
    bytes followed by a line feed, which is the saved string only when
    that one ended in the line feed as well. *)
Theorem file_roundtrip_text_and_base64 :
  saved_then_fetched "text" "hello" = Ok (CText "hello")
  ∧ saved_then_fetched "base64" "aGVsbG8="
    = Ok (CText ("aGVsbG8=" +:+ Codec.newline))
  ∧ saved_then_fetched "base64" ("aGVsbG8=" +:+ Codec.newline)
    = Ok (CText ("aGVsbG8=" +:+ Codec.newline))
  ∧ Codec.decodebytes ("aGVsbG8=" +:+ Codec.newline) = Ok "hello".
Proof. vm_compute. done. Qed.

(** ** Unsupported types and the post-save hook *)

(** C8, on the code: a model of type [weird], with content, saved below a
    bucket, raises an [HTTPError] whose status is 0, not 400; the message
    names the type. *)
Theorem save_unhandled_type_has_status_zero :
  (save defaults collaborators
     {| d_type := Some "weird"; d_content := Some (CText "x");
        d_format := None; d_message := None |}
     "bucket/x" empty_bucket).1
  = Raise (HTTPError 0 "Unhandled contents type: weird").
Proof. reflexivity. Qed.

(** On every state and for every such type: the status is 0. *)
Lemma save_unhandled_type_general {NB : Type} (cfg : @Config NB)
    (env : @Collaborators NB) (model : @ModelDict NB) (type path : string)
    (bucket_name bucket_path : string) (st : @Manager NB) :
  d_type model = Some type →
  type ≠ "notebook" → type ≠ "file" → type ≠ "directory" →
  d_content model ≠ None →
  _parse_path (strip_leading_slash path) = Ok (bucket_name, bucket_path) →
  bucket_path ≠ "" →
  run_pre_save_hook env model (strip_leading_slash path) = Ok model →
  save cfg env model path st
  = (Raise (HTTPError 0 ("Unhandled contents type: " +:+ type)), st).
Proof.
  intros Ht Hn Hf Hd Hc Hp Hk Hhook. unfold save, save_path.
  rewrite (bool_decide_eq_false_2 (d_type model = None)) by congruence.
  rewrite (bool_decide_eq_false_2 (d_content model = None)) by done.
  rewrite (bool_decide_eq_false_2 (d_type model = Some "directory"))
    by congruence.
  cbn [andb negb]. unfold bind at 1, lift at 1. rewrite Hp.
  rewrite (bool_decide_eq_false_2 (bucket_path = "")) by done.
  cbn [andb negb]. unfold bind at 1, lift at 1. rewrite Hhook.
  unfold bind at 1, try_except, save_dispatch, bind at 1, dict_type.
  rewrite Ht. unfold ret at 1.
  apply String.eqb_neq in Hn, Hf, Hd. rewrite Hn, Hf, Hd. done.
Qed.

Definition accepting_hook : string → @Model Notebook → result unit :=
  λ _ _, Ok tt.

(** C9, on the code: with a post-save hook configured, a successful save
    returns, the hook has received no call, and the log holds the record
    of a failed hook: the call names [path], which the method does not
    have, and the [NameError] is caught before the hook is entered. *)
Theorem post_save_hook_is_never_called :
  ∃ m st,
    save (with_hook accepting_hook) collaborators (file_model "text" "hello")
         "bucket/hello.txt" empty_bucket = (Ok m, st)
    ∧ m_path m = "bucket/hello.txt"
    ∧ hook_calls st = []
    ∧ log st = [("error", "Post-save hook failed on bucket/hello.txt")].
Proof. eexists _, _. vm_compute. done. Qed.

(** On every state, model and hook. *)
Lemma run_post_save_hook_skips_the_hook {NB : Type} (cfg : @Config NB)
    (hook : string → @Model NB → result unit) (model : @Model NB)
    (os_path : string) (st : @Manager NB) :
  post_save_hook cfg = Some hook →
  run_post_save_hook cfg model os_path st
  = (Ok tt, add_log "error" ("Post-save hook failed on " +:+ os_path) st).
Proof. intros H. unfold run_post_save_hook. rewrite H. done. Qed.

(** ** Renaming a directory across buckets *)

(** Bucket [b1] with [dir/x] and [dir/y], and an empty bucket [b2]. *)
Definition two_buckets : @Manager Notebook :=
  fresh (<[ "b2" := Live ∅ ]>
         {[ "b1" := Live (<["dir/x" := object_at 2 "X"]>
                          (<["dir/y" := object_at 3 "Y"]> ∅)) ]}).

(** Whether [_fetch(path)] reports the path as existing. *)
Definition fetch_exists {NB : Type} (cfg : @Config NB) (path : string)
    (st : @Manager NB) : result bool :=
  match (_fetch cfg path true st).1 with
  | Ok r => Ok (truthy r.1)
  | Raise e => Raise e
  end.

(** C1, on the code: renaming [b1/dir/] to [b2/dir2/] raises [TypeError]
    at the lookup of the old blob, which is called without a name; the
    storage is as before: [x] and [y] are still under [b1/dir/] and
    nothing is under [b2/dir2/]. *)
Theorem rename_across_buckets_moves_nothing :
  ∃ msg st,
    rename_file defaults "b1/dir/" "b2/dir2/" two_buckets
      = (Raise (TypeError msg), st)
    ∧ storage st = storage two_buckets
    ∧ fetch_exists defaults "b1/dir/x" st = Ok true
    ∧ fetch_exists defaults "b1/dir/y" st = Ok true
    ∧ fetch_exists defaults "b2/dir2/x" st = Ok false
    ∧ fetch_exists defaults "b2/dir2/y" st = Ok false.
Proof. eexists _, _. vm_compute. done. Qed.

(** ** Facts about the string operations *)

Lemma append_cons (x : ascii) (a b : string) :
  String x a +:+ b = String x (a +:+ b).
Proof. reflexivity. Qed.

Lemma append_nil (b : string) : "" +:+ b = b.
Proof. reflexivity. Qed.

Ltac ssimpl := simpl; rewrite ?append_cons, ?append_nil; simpl.

Lemma contains_app (c : ascii) (a b : string) :
  PyStr.contains c (a +:+ b) = PyStr.contains c a || PyStr.contains c b.
Proof.
  induction a as [|x a IH]; ssimpl; [done|].
  destruct (Ascii.eqb x c); [done|]. apply IH.
Qed.

Lemma take_drop (n : nat) (s : string) : PyStr.take n s +:+ PyStr.drop n s = s.
Proof.
  revert s. induction n as [|n IH]; intros [|x s]; ssimpl; try done.
  f_equal. apply IH.
Qed.

Lemma contains_drop (c : ascii) (n : nat) (s : string) :
  PyStr.contains c (PyStr.drop n s) = true → PyStr.contains c s = true.
Proof.
  intros H. rewrite <- (take_drop n s), contains_app, H.
  apply orb_true_r.
Qed.

Lemma drop_app_length (a b : string) : PyStr.drop (String.length a) (a +:+ b) = b.
Proof. induction a as [|x a IH]; ssimpl; done. Qed.

Lemma drop_app_le (n : nat) (a b : string) :
  (n ≤ String.length a)%nat → PyStr.drop n (a +:+ b) = PyStr.drop n a +:+ b.
Proof.
  revert a. induction n as [|n IH]; intros [|x a] Hn; ssimpl; simpl in Hn;
    try done.
  - lia.
  - apply IH. lia.
Qed.

Lemma length_app (a b : string) :
  String.length (a +:+ b) = (String.length a + String.length b)%nat.
Proof. induction a as [|x a IH]; ssimpl; [done|]. by rewrite IH. Qed.

Lemma app_assoc_s (a b c : string) : (a +:+ b) +:+ c = a +:+ (b +:+ c).
Proof. induction a as [|x a IH]; ssimpl; [done|]. by rewrite IH. Qed.

Lemma prefix_app (p s : string) :
  String.prefix p s = true ↔ ∃ r, s = p +:+ r.
Proof.
  revert s. induction p as [|x p IH]; intros s; ssimpl.
  - destruct s; split; eauto.
  - destruct s as [|y s]; ssimpl.
    + split; [done|]. by intros [r [=]].
    + destruct (Ascii.ascii_dec x y) as [->|Hne].
      * rewrite IH. split; intros [r Hr]; exists r.
        -- by rewrite Hr.
        -- rewrite append_cons in Hr. congruence.
      * split; [done|]. intros [r Hr]. rewrite append_cons in Hr. congruence.
Qed.

(** After the last occurrence of a character there is none. *)
Lemma rfind_from_spec (c : ascii) (s : string) (i last : Z) :
  (PyStr.contains c s = false ∧ PyStr.rfind_from c i last s = last)
  ∨ (∃ j : nat, PyStr.rfind_from c i last s = i + Z.of_nat j
                ∧ PyStr.contains c (PyStr.drop (S j) s) = false).
Proof.
  revert i last. induction s as [|x s IH]; intros i last; simpl.
  - by left.
  - destruct (IH (i + 1) (if Ascii.eqb x c then i else last))
      as [[Hn Hr]|(j & Hr & Hn)].
    + destruct (Ascii.eqb x c) eqn:Hx.
      * right. exists 0%nat. rewrite Hr. split; [lia|done].
      * left. done.
    + right. exists (S j). rewrite Hr. split; [lia|done].
Qed.

Lemma no_slash_after_rfind (s : string) :
  PyStr.contains PyStr.slash
    (PyStr.drop (Z.to_nat (PyStr.rfind PyStr.slash s + 1)) s) = false.
Proof.
  unfold PyStr.rfind.
  destruct (rfind_from_spec PyStr.slash s 0 (-1)) as [[Hn ->]|(j & -> & Hn)].
  - simpl. done.
  - replace (Z.to_nat (0 + Z.of_nat j + 1)) with (S j) by lia. done.
Qed.

Lemma splitext_ext_no_slash (s : string) :
  PyStr.contains PyStr.slash s = false →
  PyStr.contains PyStr.slash (PyStr.splitext s).2 = false.
Proof.
  intros Hs. unfold PyStr.splitext.
  destruct (decide _); [|done].
  destruct (PyStr.all_dots _); [done|]. simpl.
  destruct (PyStr.contains PyStr.slash (PyStr.drop _ s)) eqn:Hd; [|done].
  apply contains_drop in Hd. congruence.
Qed.

Lemma hexdigit_not_slash (n : N) : (n < 16)%N → Codec.hexdigit n ≠ PyStr.slash.
Proof.
  intros Hn.
  assert (Hcases : n ∈ [0;1;2;3;4;5;6;7;8;9;10;11;12;13;14;15]%N).
  { rewrite !elem_of_cons. lia. }
  rewrite !elem_of_cons in Hcases.
  repeat destruct Hcases as [->|Hcases]; try done.
  by apply elem_of_nil in Hcases.
Qed.

Lemma hexpad_no_slash (d : nat) (n : N) :
  PyStr.contains PyStr.slash (hexpad d n) = false.
Proof.
  revert n. induction d as [|d IH]; intros n; simpl; [done|].
  rewrite contains_app, IH. simpl.
  destruct (Ascii.eqb _ _) eqn:He; [|done].
  apply Ascii.eqb_eq in He.
  by apply hexdigit_not_slash in He; [|apply N.mod_lt].
Qed.

Lemma uuid4_str_no_slash (n : nat) :
  PyStr.contains PyStr.slash (uuid4_str n) = false.
Proof.
  unfold uuid4_str. rewrite contains_app, hexpad_no_slash. done.
Qed.

(** The parse of a path that starts with a bucket and a slash does not
    depend on what follows the slash. *)
Lemma split1_app (bn : string) :
  ∃ c X, ∀ R, PyStr.split1 PyStr.slash (bn +:+ "/" +:+ R) = [c; X +:+ R].
Proof.
  induction bn as [|x bn (c & X & IH)].
  - exists "", "". done.
  - destruct (Ascii.eqb x PyStr.slash) eqn:Hx.
    + exists "", (bn +:+ "/"). intros R. rewrite append_cons. simpl.
      rewrite Hx. by rewrite app_assoc_s.
    + exists (String x c), X. intros R. rewrite append_cons. simpl.
      rewrite Hx. by rewrite IH.
Qed.

Lemma parse_path_app (bn : string) :
  ∃ c X, ∀ R, _parse_path (bn +:+ "/" +:+ R) = Ok (c, X +:+ R).
Proof.
  destruct (split1_app bn) as (c & X & H). exists c, X. intros R.
  unfold _parse_path. by rewrite H.
Qed.

Lemma split1_join (bn R : string) :
  PyStr.contains PyStr.slash bn = false →
  PyStr.split1 PyStr.slash (bn +:+ "/" +:+ R) = [bn; R].
Proof.
  induction bn as [|x bn IH]; [done|]. intros Hn. simpl in Hn.
  destruct (Ascii.eqb x PyStr.slash) eqn:Hx; [done|].
  rewrite append_cons. cbn [PyStr.split1]. rewrite Hx. by rewrite IH.
Qed.

Lemma parse_path_join (bn R : string) :
  PyStr.contains PyStr.slash bn = false →
  _parse_path (bn +:+ "/" +:+ R) = Ok (bn, R).
Proof. intros Hn. unfold _parse_path. by rewrite split1_join. Qed.

Lemma parse_path_inv (P bn bp : string) :
  _parse_path P = Ok (bn, bp) →
  PyStr.contains PyStr.slash bn = false
  ∧ ((P = bn ∧ bp = "") ∨ P = bn +:+ "/" +:+ bp).
Proof.
  unfold _parse_path.
  destruct (split1_spec P) as [[Hn ->]|(a & b & -> & HP & Ha & _)]; simpl.
  - intros [= <- <-]. auto.
  - intros [= <- <-]. auto.
Qed.

(** Listing: an object name that continues the prefix without a slash is
    an item; one that has a slash where the prefix has none is not. *)
Lemma upto_slash_none (s : string) :
  PyStr.contains PyStr.slash s = false → upto_slash s = None.
Proof.
  induction s as [|x s IH]; simpl; [done|].
  destruct (Ascii.eqb x PyStr.slash); [done|].
  intros H. by rewrite IH.
Qed.

Lemma is_item_extension (pre suf : string) :
  PyStr.contains PyStr.slash suf = false → is_item pre (pre +:+ suf) = true.
Proof.
  intros Hs. unfold is_item, classify, PyStr.startswith.
  rewrite (proj2 (prefix_app pre (pre +:+ suf))) by eauto.
  by rewrite drop_app_length, upto_slash_none.
Qed.

Lemma is_item_false (dir base A B : string) :
  PyStr.contains PyStr.slash base = false →
  (String.length dir ≤ String.length A)%nat →
  is_item (A +:+ "/" +:+ B) (dir +:+ base) = false.
Proof.
  intros Hb Hlen. unfold is_item, classify, PyStr.startswith.
  destruct (String.prefix _ _) eqn:Hp; [|done].
  apply prefix_app in Hp as [r Hr].
  assert (PyStr.contains PyStr.slash base = true); [|congruence].
  rewrite <- (drop_app_length dir base), Hr, !app_assoc_s.
  rewrite drop_app_le by done. rewrite contains_app. simpl.
  apply orb_true_r.
Qed.

(** ** Facts about the storage and its listings *)

Lemma objects_of_put (st : Storage) (h h' : Bucket) (name : string) (o : Object)
    (objs : gmap string Object) :
  objects_of st h = Ok objs →
  objects_of (tick (put_object st h name o)) h'
  = if decide (bucket_name h' = bucket_name h) then Ok (<[name := o]> objs)
    else objects_of st h'.
Proof.
  unfold objects_of, put_object, entry_objects.
  destruct (st_buckets st !! bucket_name h) as [[objs0| |]|] eqn:Hh; try done.
  intros [= ->]. simpl.
  destruct (decide (bucket_name h' = bucket_name h)) as [->|Hne].
  - by rewrite lookup_insert_eq.
  - by rewrite lookup_insert_ne.
Qed.

Lemma entry_kind_put (st : Storage) (h : Bucket) (name : string) (o : Object)
    (n : string) (b : Bucket) :
  match entry_objects (st_buckets (tick (put_object st h name o)) !! n) with
  | Ok _ => Ok b
  | Raise e => Raise e
  end
  = match entry_objects (st_buckets st !! n) with
    | Ok _ => Ok b
    | Raise e => Raise e
    end.
Proof.
  unfold put_object.
  destruct (st_buckets st !! bucket_name h) as [[objs0| |]|] eqn:Hh; try done.
  simpl. destruct (decide (bucket_name h = n)) as [<-|Hne].
  - by rewrite lookup_insert_eq, Hh.
  - by rewrite lookup_insert_ne.
Qed.

Lemma objects_of_same_name (st : Storage) (h h' : Bucket) :
  bucket_name h' = bucket_name h → objects_of st h' = objects_of st h.
Proof. unfold objects_of. by intros ->. Qed.

Lemma listed_items_insert_other (h : Bucket) (pre k : string) (o : Object)
    (objs : gmap string Object) :
  is_item pre k = false →
  listed_items h pre (<[k := o]> objs) = listed_items h pre objs.
Proof.
  intros Hk. unfold listed_items.
  rewrite map_filter_insert_not; [done|].
  intros y. simpl. congruence.
Qed.

Lemma listed_items_nil (h : Bucket) (pre : string) (objs : gmap string Object) :
  listed_items h pre objs = [] →
  filter (λ kv : string * Object, is_item pre kv.1 = true) objs = ∅.
Proof.
  unfold listed_items. intros H. apply fmap_nil_inv in H.
  apply map_to_list_empty_iff.
  destruct (map_to_list _) as [|x l]; [done|].
  exfalso. unfold sort_by_name in H. simpl in H.
  destruct (foldr insert_by_name [] l) as [|y l']; simpl in H; [done|].
  destruct (String.leb x.1 y.1); done.
Qed.

Lemma listed_items_insert_new (h : Bucket) (pre k : string) (o : Object)
    (objs : gmap string Object) :
  is_item pre k = true →
  listed_items h pre objs = [] →
  listed_items h pre (<[k := o]> objs) = [loaded_blob h k o].
Proof.
  intros Hk Hnil. apply listed_items_nil in Hnil. unfold listed_items.
  rewrite map_filter_insert_True by done.
  rewrite Hnil, insert_empty, map_to_list_singleton. done.
Qed.

Lemma sort_latest_first_nil (l : list Checkpoint) :
  sort_latest_first l = [] → l = [].
Proof.
  destruct l as [|x l]; [done|]. unfold sort_latest_first. simpl.
  destruct (foldr insert_latest_first [] l) as [|y l']; simpl; [done|].
  destruct (_ <=? _); done.
Qed.

(** ** Computations that leave the manager as it is *)

Definition readonly {S A : Type} (m : M S A) : Prop :=
  ∀ s r s', m s = (r, s') → s' = s.

Lemma readonly_ret {S A : Type} (a : A) : readonly (@ret S A a).
Proof. by intros s r s' [= _ <-]. Qed.

Lemma readonly_raise {S A : Type} (e : exn) : readonly (@raise S A e).
Proof. by intros s r s' [= _ <-]. Qed.

Lemma readonly_lift {S A : Type} (x : result A) : readonly (@lift S A x).
Proof. by intros s r s' [= _ <-]. Qed.

Lemma readonly_gets {S A : Type} (f : S → A) : readonly (gets f).
Proof. by intros s r s' [= _ <-]. Qed.

Lemma readonly_bind {S A B : Type} (m : M S A) (k : A → M S B) :
  readonly m → (∀ a, readonly (k a)) → readonly (bind m k).
Proof.
  intros Hm Hk s r s'. unfold bind.
  destruct (m s) as [[a|e] s1] eqn:Hms.
  - intros H. apply Hk in H. apply Hm in Hms. congruence.
  - intros [= _ <-]. by apply Hm in Hms.
Qed.

Lemma readonly_try_except {S A : Type} (m : M S A) (handles : exn → bool)
    (h : exn → M S A) :
  readonly m → (∀ e, readonly (h e)) → readonly (try_except m handles h).
Proof.
  intros Hm Hh s r s'. unfold try_except.
  destruct (m s) as [[a|e] s1] eqn:Hms.
  - intros [= _ <-]. by apply Hm in Hms.
  - destruct (handles e).
    + intros H. apply Hh in H. apply Hm in Hms. congruence.
    + intros [= _ <-]. by apply Hm in Hms.
Qed.

Create HintDb readonly.
#[global] Hint Resolve readonly_ret readonly_raise readonly_lift readonly_gets
  : readonly.
#[global] Hint Extern 2 (readonly (bind _ _)) =>
  apply readonly_bind; [|intros ?] : readonly.
#[global] Hint Extern 2 (readonly (try_except _ _ _)) =>
  apply readonly_try_except; [|intros ?] : readonly.
#[global] Hint Extern 3 (readonly (match ?x with _ => _ end)) =>
  destruct x : readonly.
#[global] Hint Extern 3 (readonly (if ?x then _ else _)) =>
  destruct x : readonly.
#[global] Hint Extern 4 (readonly (let '(_, _) := ?x in _)) =>
  destruct x : readonly.

(** ** Notebook saves and checkpoints *)

Lemma bind_ok {S A B : Type} (m : M S A) (k : A → M S B) (s s' : S) (b : B) :
  bind m k s = (Ok b, s') → ∃ a s1, m s = (Ok a, s1) ∧ k a s1 = (Ok b, s').
Proof.
  unfold bind. destruct (m s) as [[a|e] s1]; [eauto|done].
Qed.

Lemma try_except_ok {S A : Type} (m : M S A) (handles : exn → bool)
    (h : exn → M S A) (s s' : S) (a : A) :
  try_except m handles h s = (Ok a, s') →
  m s = (Ok a, s')
  ∨ ∃ e s1, m s = (Raise e, s1) ∧ handles e = true ∧ h e s1 = (Ok a, s').
Proof.
  unfold try_except. destruct (m s) as [[a'|e] s1]; [by left|].
  destruct (handles e) eqn:He; [|done]. right. eauto.
Qed.

Lemma lift_ok {S A : Type} (r : result A) (s s' : S) (a : A) :
  lift r s = (Ok a, s') → r = Ok a ∧ s' = s.
Proof. unfold lift. by intros [= -> ->]. Qed.

Lemma ret_ok {S A : Type} (x a : A) (s s' : S) :
  ret x s = (Ok a, s') → a = x ∧ s' = s.
Proof. unfold ret. by intros [= -> ->]. Qed.

Section Checkpoints.
Context {NB : Type} (cfg : @Config NB) (env : @Collaborators NB).

Local Abbreviation Mgr := (M (@Manager NB)).

(** What [client.get_bucket] answers for the name [n] in the state [s]. *)
Definition asked (s : @Manager NB) (n : string) : result Bucket :=
  if decide (n = "") then Raise no_bucket_name
  else
    match entry_objects (st_buckets (storage s) !! n) with
    | Ok _ => Ok (mkBucket n)
    | Raise e => Raise e
    end.

(** What a lookup of the bucket [n] comes to in the state [s]: the handle
    in the cache if there is one, else the answer of the library. *)
Definition view (s : @Manager NB) (n : string) : result Bucket :=
  match (if cache_buckets cfg then default ∅ (_bucket_cache s) !! n else None) with
  | Some h => Ok h
  | None => asked s n
  end.

(** The state changes only in ways that no lookup and no listing sees. *)
Definition steady (s s' : @Manager NB) : Prop :=
  storage s' = storage s ∧ ∀ n, view s' n = view s n.

Lemma steady_refl s : steady s s.
Proof. done. Qed.

Lemma steady_trans s1 s2 s3 : steady s1 s2 → steady s2 s3 → steady s1 s3.
Proof.
  intros [H1 V1] [H2 V2]. split; [congruence|].
  intros n. by rewrite V2, V1.
Qed.

Lemma client_get_bucket_asked (n : string) (s : @Manager NB) :
  client_get_bucket n s = (asked s n, s).
Proof.
  unfold client_get_bucket, asked. destruct (decide (n = "")); [done|].
  unfold bind, gets, lift, ret. by destruct (entry_objects _).
Qed.

Lemma asked_set_cache (c : option (gmap string Bucket)) (s : @Manager NB)
    (n : string) :
  asked (set_bucket_cache c s) n = asked s n.
Proof. done. Qed.

Lemma asked_ok (s : @Manager NB) (n : string) (h : Bucket) :
  asked s n = Ok h → h = mkBucket n.
Proof.
  unfold asked. destruct (decide (n = "")); [done|].
  destruct (entry_objects _); [|done]. by intros [= <-].
Qed.

Lemma asked_kind (s : @Manager NB) (n : string) (e : exn) :
  asked s n = Raise e →
  e = NotFound ∨ e = Forbidden ∨ e = BadRequest ∨ (e = no_bucket_name ∧ n = "").
Proof.
  unfold asked. destruct (decide (n = "")); [intros [= <-]; auto|].
  unfold entry_objects.
  destruct (st_buckets (storage s) !! n) as [[| |]|]; intros [= <-]; auto.
Qed.

(** The state after a lookup that went past the cache: the cache exists. *)
Definition touched (s : @Manager NB) : @Manager NB :=
  match _bucket_cache s with
  | Some _ => s
  | None => set_bucket_cache (Some ∅) s
  end.

(** The outcomes of a lookup: the cached handle, or what the library
    answers, kept in the cache when it is a bucket and caching is on. *)
Lemma get_bucket_eq (n : string) (t : bool) (s : @Manager NB) :
  _get_bucket cfg n t s
  = if cache_buckets cfg then
      match default ∅ (_bucket_cache s) !! n with
      | Some h => (Ok (Some h), s)
      | None =>
          match asked s n with
          | Ok h =>
              (Ok (Some h),
               set_bucket_cache
                 (Some (<[n := h]> (default ∅ (_bucket_cache s)))) s)
          | Raise e =>
              (if is_BadRequest_or_NotFound e
               then (if t then Raise e else Ok None)
               else Raise e, touched s)
          end
      end
    else
      (match asked s n with
       | Ok h => Ok (Some h)
       | Raise e => if is_NotFound e
                    then (if t then Raise e else Ok None)
                    else Raise e
       end, s).
Proof.
  unfold _get_bucket, touched.
  destruct (cache_buckets cfg) eqn:Hc; simpl.
  - unfold bind at 1, gets at 1.
    destruct (_bucket_cache s) as [c|] eqn:Hcache; simpl.
    + unfold bind at 1, ret at 1.
      destruct (c !! n) as [h|] eqn:Hn; [done|].
      unfold try_else. rewrite client_get_bucket_asked.
      destruct (asked s n) as [h|e] eqn:He; [done|].
      by destruct (is_BadRequest_or_NotFound e), t.
    + unfold bind at 1, bind at 1, modify at 1, ret at 1.
      rewrite lookup_empty.
      unfold try_else. rewrite client_get_bucket_asked, asked_set_cache.
      destruct (asked s n) as [h|e] eqn:He; [done|].
      by destruct (is_BadRequest_or_NotFound e), t.
  - unfold try_except, bind. rewrite client_get_bucket_asked.
    destruct (asked s n) as [h|e]; [done|].
    by destruct (is_NotFound e), t.
Qed.

Lemma touched_steady (s : @Manager NB) : steady s (touched s).
Proof.
  unfold touched, steady, view.
  destruct (_bucket_cache s) eqn:Hcache; [by rewrite Hcache|]. simpl.
  split; [done|]. intros n. rewrite asked_set_cache.
  by destruct (cache_buckets cfg).
Qed.

Lemma get_bucket_steady (n : string) (t : bool) (s s' : @Manager NB) r :
  _get_bucket cfg n t s = (r, s') → steady s s'.
Proof.
  rewrite get_bucket_eq.
  destruct (cache_buckets cfg) eqn:Hc.
  - destruct (default ∅ (_bucket_cache s) !! n) as [h|] eqn:Hn.
    + intros [= _ <-]. apply steady_refl.
    + destruct (asked s n) as [h|e] eqn:He.
      * intros [= _ <-]. split; [done|]. intros m. unfold view. rewrite Hc.
        simpl. destruct (decide (n = m)) as [->|Hne].
        -- by rewrite lookup_insert_eq, Hn.
        -- by rewrite lookup_insert_ne.
      * intros [= _ <-]. apply touched_steady.
  - intros [= _ <-]. apply steady_refl.
Qed.

Lemma get_bucket_view (n : string) (t : bool) (s s' : @Manager NB) (h : Bucket) :
  _get_bucket cfg n t s = (Ok (Some h), s') → view s n = Ok h.
Proof.
  rewrite get_bucket_eq. unfold view.
  destruct (cache_buckets cfg) eqn:Hc.
  - destruct (default ∅ (_bucket_cache s) !! n) as [h'|] eqn:Hn.
    + by intros [= <- _].
    + destruct (asked s n) as [h'|e] eqn:He; [by intros [= <- _]|].
      by destruct (is_BadRequest_or_NotFound e), t.
  - destruct (asked s n) as [h'|e] eqn:He; [by intros [= <- _]|].
    by destruct (is_NotFound e), t.
Qed.

Lemma view_get_bucket (n : string) (t : bool) (s : @Manager NB) (h : Bucket) :
  view s n = Ok h → (_get_bucket cfg n t s).1 = Ok (Some h).
Proof.
  rewrite get_bucket_eq. unfold view.
  destruct (cache_buckets cfg) eqn:Hc.
  - destruct (default ∅ (_bucket_cache s) !! n) as [h'|] eqn:Hn.
    + by intros [= <-].
    + by intros ->.
  - by intros ->.
Qed.

Lemma get_bucket_no_NotFound (n : string) (s s' : @Manager NB) (e : exn) :
  _get_bucket cfg n false s = (Raise e, s') → is_NotFound e = false.
Proof.
  rewrite get_bucket_eq.
  destruct (cache_buckets cfg) eqn:Hc.
  - destruct (default ∅ (_bucket_cache s) !! n) as [h'|] eqn:Hn; [done|].
    destruct (asked s n) as [h'|e'] eqn:He; [done|].
    destruct e'; simpl; intros [= <- _]; done.
  - destruct (asked s n) as [h'|e'] eqn:He; [done|].
    destruct e'; simpl; intros [= <- _]; done.
Qed.

(** One object is written under [key] in the bucket of the handle [h],
    which the service has; nothing else changes that a lookup or a listing
    sees. *)
Definition uploads (s s' : @Manager NB) (h : Bucket) (key : string) : Prop :=
  ∃ objs o,
    objects_of (storage s) h = Ok objs
    ∧ (∀ h', objects_of (storage s') h'
             = if decide (bucket_name h' = bucket_name h)
               then Ok (<[key := o]> objs)
               else objects_of (storage s) h')
    ∧ ∀ n, view s' n = view s n.

Lemma steady_uploads s1 s2 s3 h key :
  steady s1 s2 → uploads s2 s3 h key → uploads s1 s3 h key.
Proof.
  intros [Hst Hv] (objs & o & Ho & Hput & Hv'). exists objs, o.
  rewrite <- Hst. split; [done|]. split; [done|].
  intros n. by rewrite Hv', Hv.
Qed.

Lemma uploads_steady s1 s2 s3 h key :
  uploads s1 s2 h key → steady s2 s3 → uploads s1 s3 h key.
Proof.
  intros (objs & o & Ho & Hput & Hv') [Hst Hv]. exists objs, o.
  rewrite Hst. split; [done|]. split; [done|].
  intros n. by rewrite Hv, Hv'.
Qed.

Lemma upload_spec (blob : Blob) (data ct : string) (s s' : @Manager NB) b' :
  blob_upload_from_string blob data ct s = (Ok b', s') →
  uploads s s' (blob_bucket blob) (blob_name blob).
Proof.
  unfold blob_upload_from_string, bind, gets, lift, modify, ret.
  destruct (objects_of (storage s) (blob_bucket blob)) as [objs|e] eqn:Ho;
    [|done].
  intros [= _ <-]. eexists objs, _. split; [done|]. split.
  - intros h'. simpl. by apply objects_of_put.
  - intros n. unfold view, asked, set_storage. cbn [storage _bucket_cache].
    by rewrite entry_kind_put.
Qed.

Lemma need_bucket_ok (ob : option Bucket) (s s' : @Manager NB) (h : Bucket) :
  need_bucket ob s = (Ok h, s') → ob = Some h ∧ s' = s.
Proof. destruct ob; simpl; unfold ret, raise; [|done]. by intros [= -> ->]. Qed.

Lemma save_notebook_ok (path bn bp : string) (nb : NB) (s s' : @Manager NB) b :
  _parse_path path = Ok (bn, bp) →
  _save_notebook cfg env path nb s = (Ok b, s') →
  ∃ h, view s bn = Ok h ∧ uploads s s' h bp.
Proof.
  intros Hp H. unfold _save_notebook in H. rewrite Hp in H.
  apply bind_ok in H as ([bn' bp'] & s0 & H0 & H).
  apply lift_ok in H0 as [[= <- <-] ->].
  apply bind_ok in H as (ob & s1 & Hb & H).
  apply bind_ok in H as (data & s2 & Hd & H).
  apply lift_ok in Hd as [_ ->].
  apply bind_ok in H as (h & s3 & Hn & H).
  apply need_bucket_ok in Hn as [-> ->].
  exists h. split; [by eapply get_bucket_view|].
  eapply steady_uploads; [by eapply get_bucket_steady|].
  by apply upload_spec in H.
Qed.

Lemma save_file_ok (path bn bp : string) (content : @Content NB)
    (format : option string) (s s' : @Manager NB) b :
  _parse_path path = Ok (bn, bp) →
  _save_file cfg env path content format s = (Ok b, s') →
  ∃ h, view s bn = Ok h ∧ uploads s s' h bp.
Proof.
  intros Hp H. unfold _save_file in H. rewrite Hp in H.
  apply bind_ok in H as ([bn' bp'] & s0 & H0 & H).
  apply lift_ok in H0 as [[= <- <-] ->].
  apply bind_ok in H as (ob & s1 & Hb & H).
  destruct (negb _); [done|].
  apply bind_ok in H as (bcontent & s2 & Hd & H).
  assert (s2 = s1) as ->.
  { revert Hd. apply readonly_try_except.
    - destruct (bool_decide _); auto with readonly.
    - auto with readonly. }
  apply bind_ok in H as (h & s3 & Hn & H).
  apply need_bucket_ok in Hn as [-> ->].
  exists h. split; [by eapply get_bucket_view|].
  eapply steady_uploads; [by eapply get_bucket_steady|].
  by apply upload_spec in H.
Qed.


Lemma readonly_blob_exists (b : Blob) : readonly (@blob_exists NB b).
Proof. unfold blob_exists. auto 10 with readonly. Qed.

Lemma readonly_bucket_get_blob (b : Bucket) (name : string) :
  readonly (@bucket_get_blob NB b name).
Proof. unfold bucket_get_blob. auto 10 with readonly. Qed.

Lemma readonly_bucket_list_blobs (b : Bucket) (prefix : string) (n : Z) :
  readonly (@bucket_list_blobs NB b prefix n).
Proof. unfold bucket_list_blobs. auto 10 with readonly. Qed.

Lemma readonly_client_list_buckets : readonly (@client_list_buckets NB).
Proof. unfold client_list_buckets. auto 10 with readonly. Qed.

Lemma readonly_blob_download_as_string (b : Blob) :
  readonly (@blob_download_as_string NB b).
Proof. unfold blob_download_as_string. auto 10 with readonly. Qed.

Lemma readonly_as_blob (p : Payload) : readonly (@as_blob NB p).
Proof. unfold as_blob. auto with readonly. Qed.

#[local] Hint Resolve readonly_blob_exists readonly_bucket_get_blob
  readonly_bucket_list_blobs readonly_client_list_buckets
  readonly_blob_download_as_string readonly_as_blob : readonly.

Lemma list_checkpoints_spec (P cp cb pre : string) (s s' : @Manager NB) r :
  _get_checkpoint_path cfg None P = Ok cp →
  _parse_path cp = Ok (cb, pre) →
  list_checkpoints cfg P s = (r, s') →
  steady s s'
  ∧ (∀ l, r = Ok l →
       ∃ h, view s cb = Ok h
            ∧ match objects_of (storage s) h with
              | Ok objs =>
                  l = sort_latest_first
                        (checkpoint_of <$> listed_items h pre objs)
              | Raise _ => l = []
              end)
  ∧ (∀ h objs, view s cb = Ok h → objects_of (storage s) h = Ok objs →
       r = Ok (sort_latest_first
                 (checkpoint_of <$> listed_items h pre objs))).
Proof.
  intros Hcp Hparse. unfold list_checkpoints.
  unfold bind at 1, lift at 1. rewrite Hcp.
  unfold bind at 1, lift at 1. rewrite Hparse.
  unfold try_else, bind at 1.
  destruct (_get_bucket cfg cb false s) as [[[h|]|e] s1] eqn:Hg.
  - pose proof (get_bucket_steady _ _ _ _ _ Hg) as Hst.
    pose proof (get_bucket_view _ _ _ _ _ Hg) as Hv.
    unfold bind at 1, need_bucket, ret at 1.
    unfold bucket_list_blobs, bind, gets, lift, ret.
    destruct Hst as [Hst Hvs]. rewrite Hst.
    destruct (objects_of (storage s) h) as [objs|e] eqn:Ho.
    + intros [= <- <-]. split; [done|]. split.
      * intros l [= <-]. exists h. by rewrite Ho.
      * intros h' objs' Hv' Ho'. rewrite Hv in Hv'. injection Hv' as <-.
        rewrite Ho in Ho'. by injection Ho' as <-.
    + destruct (is_NotFound e) eqn:He.
      * intros [= <- <-]. split; [done|]. split.
        -- intros l [= <-]. exists h. by rewrite Ho.
        -- intros h' objs' Hv' Ho'. rewrite Hv in Hv'. injection Hv' as <-.
           congruence.
      * intros [= <- <-]. split; [done|]. split; [done|].
        intros h' objs' Hv' Ho'. rewrite Hv in Hv'. injection Hv' as <-.
        congruence.
  - pose proof (get_bucket_steady _ _ _ _ _ Hg) as Hst.
    unfold bind at 1, need_bucket, raise at 1. simpl.
    intros [= <- <-]. split; [done|]. split; [done|].
    intros h objs Hv _. apply (view_get_bucket _ false) in Hv.
    rewrite Hg in Hv. done.
  - pose proof (get_bucket_steady _ _ _ _ _ Hg) as Hst.
    rewrite (get_bucket_no_NotFound _ _ _ _ Hg).
    intros [= <- <-]. split; [done|]. split; [done|].
    intros h objs Hv _. apply (view_get_bucket _ false) in Hv.
    rewrite Hg in Hv. done.
Qed.

Lemma fetch_steady (path : string) (content : bool) (s s' : @Manager NB)
    (ex : pyval) (pl : Payload) :
  _fetch cfg path content s = (Ok (ex, pl), s') → truthy ex = true →
  steady s s'.
Proof.
  unfold _fetch. destruct (decide (path = "")) as [_|_].
  - intros H _. apply readonly_bind in H as ->; auto with readonly.
    apply steady_refl.
  - unfold parse_or_return.
    destruct (_parse_path path) as [[bn bp]|e].
    2:{ destruct e; unfold ret, raise; try done. by intros [= <- _ <-]. }
    unfold try_else at 1.
    destruct (_get_bucket cfg bn false s) as [[[h|]|e] s1] eqn:Hg.
    + pose proof (get_bucket_steady _ _ _ _ _ Hg) as Hst.
      destruct (bool_decide (bp = "") || PyStr.endswith bp "/").
      * unfold bind at 1.
        destruct ((if decide (bp ≠ "")
                   then blob_exists (bucket_blob h bp) else ret false) s1)
          as [[marker|e] s2] eqn:Hm; [|done].
        assert (s2 = s1) as ->.
        { destruct (decide _).
          - by apply readonly_blob_exists in Hm.
          - by apply readonly_ret in Hm. }
        destruct (marker && negb content).
        -- unfold ret. by intros [= <- <- <-].
        -- unfold try_else.
           destruct (bucket_list_blobs h bp _ s1) as [[it|e] s3] eqn:Hl.
           ++ apply readonly_bucket_list_blobs in Hl as ->.
              unfold ret. by intros [= <- <- <-].
           ++ destruct (is_NotFound e); [|done].
              intros H Ht. apply bind_ok in H as (? & ? & _ & H).
              apply ret_ok in H as [[= -> _] _]. done.
      * destruct (negb content).
        -- unfold ret. by intros [= <- <- <-].
        -- intros H _. apply bind_ok in H as (blob & s2 & Hb & H).
           apply readonly_bucket_get_blob in Hb as ->.
           apply ret_ok in H as [_ ->]. done.
    + unfold ret. by intros [= <- _ <-].
    + pose proof (get_bucket_steady _ _ _ _ _ Hg) as Hst.
      destruct (is_Forbidden e); [|done].
      unfold ret. by intros [= <- <- <-].
Qed.


(** Whether [get] takes a path, given without a type, for a directory. *)
Definition is_dir_path (P : string) : bool :=
  negb (PyStr.contains PyStr.slash (strip_leading_slash P))
  || PyStr.endswith (strip_leading_slash P) "/".

Lemma dir_model_type self_get (path : string) (members : Payload)
    (content : bool) (s s' : @Manager NB) (m : @Model NB) :
  _dir_model cfg env self_get path members content s = (Ok m, s') →
  m_type m = Some "directory".
Proof.
  unfold _dir_model. intros H.
  apply bind_ok in H as (w & s1 & _ & H).
  destruct content.
  - destruct members as [|blobs folders|b]; try done.
    apply bind_ok in H as (files & s2 & _ & H).
    apply bind_ok in H as ([bucket this] & s3 & _ & H).
    apply bind_ok in H as (dirs & s4 & _ & H).
    apply ret_ok in H as [-> _]. done.
  - apply ret_ok in H as [-> _]. done.
Qed.

Lemma file_model_ok (p : Payload) (content : bool) (format : option string)
    (s s' : @Manager NB) (m : @Model NB) :
  _file_model p content format s = (Ok m, s') →
  s' = s ∧ m_type m = Some "file".
Proof.
  unfold _file_model, _read_file. intros H. split.
  - revert H. apply readonly_bind; [auto with readonly|]. intros blob.
    destruct content; [|auto with readonly].
    apply readonly_bind; [|intros []; auto with readonly].
    apply readonly_bind; [auto with readonly|]. intros bcontent.
    apply readonly_bind.
    + destruct (_ || _); [|auto with readonly].
      apply readonly_try_except; [auto with readonly|].
      intros e. destruct (bool_decide _); auto with readonly.
    + intros [r|]; auto with readonly.
  - apply bind_ok in H as (blob & s1 & _ & H).
    destruct content.
    + apply bind_ok in H as ([c f] & s2 & _ & H).
      apply ret_ok in H as [-> _].
      by destruct (bool_decide _).
    + apply ret_ok in H as [-> _]. done.
Qed.

Lemma notebook_model_ok (p : Payload) (content : bool)
    (s s' : @Manager NB) (m : @Model NB) :
  _notebook_model env p content s = (Ok m, s') →
  s' = s ∧ m_type m = Some "notebook".
Proof.
  unfold _notebook_model, _read_notebook. intros H. split.
  - revert H. apply readonly_bind; [auto with readonly|]. intros blob.
    destruct content; auto 10 with readonly.
  - apply bind_ok in H as (blob & s1 & _ & H).
    destruct content.
    + apply bind_ok in H as (nb & s2 & _ & H).
      apply ret_ok in H as [-> _].
      unfold validate_notebook_model. by destruct (validate_nb _ _).
    + apply ret_ok in H as [-> _]. done.
Qed.

Lemma get_dir (P : string) (content : bool) (s s' : @Manager NB) (m : @Model NB) :
  is_dir_path P = true →
  get cfg env (PathStr P) content None None s = (Ok m, s') →
  m_type m = Some "directory".
Proof.
  unfold is_dir_path, get, get_body. intros ->.
  rewrite orb_true_l. simpl negb. cbv iota.
  intros H. apply bind_ok in H as ([ex members] & s1 & _ & H).
  destruct (negb (truthy ex)); [done|].
  by apply dir_model_type in H.
Qed.

Lemma get_file (P : string) (content : bool) (s s' : @Manager NB) (m : @Model NB) :
  is_dir_path P = false →
  get cfg env (PathStr P) content None None s = (Ok m, s') →
  steady s s' ∧ (m_type m = Some "notebook" ∨ m_type m = Some "file").
Proof.
  unfold is_dir_path, get, get_body. intros ->.
  rewrite orb_false_l.
  rewrite (bool_decide_eq_false_2 (None = Some "directory")) by done.
  intros H. apply bind_ok in H as ([ex blob] & s1 & Hf & H).
  destruct (truthy ex) eqn:Ht; [|done]. simpl in H.
  apply fetch_steady in Hf; [|done].
  destruct (PyStr.endswith _ _).
  - apply notebook_model_ok in H as [-> ?]. auto.
  - apply file_model_ok in H as [-> ?]. auto.
Qed.

Lemma uuid4_steady (s s' : @Manager NB) (id : string) :
  uuid4 s = (Ok id, s') → steady s s' ∧ ∃ n, id = uuid4_str n.
Proof.
  unfold uuid4, bind, gets, modify, ret. intros [= <- <-].
  split; [done|]. eauto.
Qed.

Lemma run_post_save_hook_steady (model : @Model NB) (os_path : string)
    (s s' : @Manager NB) r :
  run_post_save_hook cfg model os_path s = (r, s') → steady s s'.
Proof.
  unfold run_post_save_hook. destruct (post_save_hook cfg).
  - unfold try_except, bind, unbound_name, raise, log_error, modify. simpl.
    by intros [= _ <-].
  - unfold ret. by intros [= _ <-].
Qed.

Lemma create_checkpoint_ok (P : string) (s s' : @Manager NB) (c : Checkpoint) :
  create_checkpoint cfg env P s = (Ok c, s') →
  is_dir_path P = false
  ∧ ∃ n cpfull cb key h,
      _get_checkpoint_path cfg (Some (uuid4_str n)) P = Ok cpfull
      ∧ _parse_path cpfull = Ok (cb, key)
      ∧ view s cb = Ok h
      ∧ uploads s s' h key.
Proof.
  unfold create_checkpoint. intros H.
  apply bind_ok in H as (model & s1 & Hget & H).
  destruct (is_dir_path P) eqn:Hdir.
  { apply get_dir in Hget; [|done]. rewrite Hget in H. done. }
  split; [done|].
  apply get_file in Hget as [Hst Hty]; [|done].
  destruct (m_type model) as [type|]; [|done].
  destruct (String.eqb type "notebook").
  - unfold create_notebook_checkpoint in H.
    apply bind_ok in H as (id & s2 & Hu & H).
    apply uuid4_steady in Hu as [Hst2 [n ->]].
    apply bind_ok in H as (cpfull & s3 & Hcp & H).
    apply lift_ok in Hcp as [Hcp ->].
    apply bind_ok in H as (nb & s4 & Hnb & H).
    assert (s4 = s2) as ->.
    { assert (readonly (content_notebook (m_content model))) as Hro
        by (unfold content_notebook; destruct (m_content model);
            auto with readonly).
      by apply Hro in Hnb. }
    apply bind_ok in H as (blob & s5 & Hs & H).
    destruct (parse_path_total cpfull) as (cb & key & Hparse).
    eapply save_notebook_ok in Hs as (h & Hv & Hup); [|done].
    apply ret_ok in H as [_ ->].
    exists n, cpfull, cb, key, h. split; [done|]. split; [done|].
    destruct Hst as [? Hv1]. destruct Hst2 as [? Hv2]. split.
    + by rewrite <- Hv1, <- Hv2.
    + eapply steady_uploads; [|done]. eapply steady_trans; done.
  - destruct (String.eqb type "file"); [|done].
    unfold create_file_checkpoint in H.
    apply bind_ok in H as (id & s2 & Hu & H).
    apply uuid4_steady in Hu as [Hst2 [n ->]].
    apply bind_ok in H as (cpfull & s3 & Hcp & H).
    apply lift_ok in Hcp as [Hcp ->].
    apply bind_ok in H as (blob & s5 & Hs & H).
    destruct (parse_path_total cpfull) as (cb & key & Hparse).
    eapply save_file_ok in Hs as (h & Hv & Hup); [|done].
    apply ret_ok in H as [_ ->].
    exists n, cpfull, cb, key, h. split; [done|]. split; [done|].
    destruct Hst as [? Hv1]. destruct Hst2 as [? Hv2]. split.
    + by rewrite <- Hv1, <- Hv2.
    + eapply steady_uploads; [|done]. eapply steady_trans; done.
Qed.


(** Where the checkpoints of a path are kept: one bucket and one prefix
    for the listing; the key of the checkpoint [id] is the prefix, a dash,
    the identifier and the extension; the key of the path itself is not
    among the items of the prefix. *)
Lemma checkpoint_path_parse (P b k : string) :
  _parse_path (strip_leading_slash P) = Ok (b, k) →
  ∃ cb pre ext,
    (∃ cp, _get_checkpoint_path cfg None P = Ok cp
           ∧ _parse_path cp = Ok (cb, pre))
    ∧ (∀ id, ∃ cp, _get_checkpoint_path cfg (Some id) P = Ok cp
                   ∧ _parse_path cp = Ok (cb, pre +:+ "-" +:+ id +:+ ext))
    ∧ PyStr.contains PyStr.slash ext = false
    ∧ is_item pre k = false.
Proof.
  intros Hp. unfold _get_checkpoint_path. rewrite Hp.
  set (bn := if negb (String.eqb (checkpoint_bucket cfg) "")
             then checkpoint_bucket cfg else b).
  set (n := Z.to_nat (PyStr.rfind PyStr.slash k + 1)).
  pose proof (no_slash_after_rfind k) as Hbase. fold n in Hbase.
  destruct (PyStr.splitext (PyStr.drop n k)) as [name ext] eqn:Hsp.
  destruct (parse_path_app bn) as (cb & X & Hpp).
  exists cb, (X +:+ PyStr.take n k +:+ checkpoint_dir cfg +:+ "/" +:+ name), ext.
  split; [|split; [|split]].
  - eexists. split; [done|]. apply Hpp.
  - intros id. eexists. split; [done|]. rewrite Hpp. by rewrite !app_assoc_s.
  - replace ext with (PyStr.splitext (PyStr.drop n k)).2 by by rewrite Hsp.
    by apply splitext_ext_no_slash.
  - rewrite <- (take_drop n k) at 2.
    replace (X +:+ PyStr.take n k +:+ checkpoint_dir cfg +:+ "/" +:+ name)
      with ((X +:+ PyStr.take n k +:+ checkpoint_dir cfg) +:+ "/" +:+ name)
      by by rewrite !app_assoc_s.
    apply is_item_false; [done|]. rewrite !length_app. lia.
Qed.


(** What the listing of a prefix comes to when nothing is listed. *)
Definition nothing_listed (s : @Manager NB) (h : Bucket) (pre : string) : Prop :=
  match objects_of (storage s) h with
  | Ok objs => listed_items h pre objs = []
  | Raise _ => True
  end.

Lemma nothing_listed_after_upload (s s' : @Manager NB) (h hb : Bucket)
    (pre k : string) :
  is_item pre k = false →
  nothing_listed s h pre → uploads s s' hb k → nothing_listed s' h pre.
Proof.
  unfold nothing_listed. intros Hk Hn (objs & o & Ho & Hput & _).
  rewrite Hput. destruct (decide _) as [Hname|_]; [|done].
  rewrite (objects_of_same_name _ _ _ Hname), Ho in Hn.
  by rewrite listed_items_insert_other.
Qed.

Lemma nothing_listed_steady (s s' : @Manager NB) (h : Bucket) (pre : string) :
  steady s s' → nothing_listed s h pre → nothing_listed s' h pre.
Proof. unfold nothing_listed. by intros [-> _]. Qed.

Lemma list_checkpoints_nil_inv (P cp cb pre : string) (s : @Manager NB) :
  _get_checkpoint_path cfg None P = Ok cp →
  _parse_path cp = Ok (cb, pre) →
  (list_checkpoints cfg P s).1 = Ok [] →
  ∃ h, view s cb = Ok h ∧ nothing_listed s h pre.
Proof.
  intros Hcp Hparse Hl.
  destruct (list_checkpoints cfg P s) as [r s'] eqn:Hlist. simpl in Hl. subst r.
  destruct (list_checkpoints_spec _ _ _ _ _ _ _ Hcp Hparse Hlist)
    as (_ & Hinv & _).
  destruct (Hinv [] eq_refl) as (h & Hv & Hobjs).
  exists h. split; [done|]. unfold nothing_listed.
  destruct (objects_of (storage s) h) as [objs|e]; [|done].
  symmetry in Hobjs. by apply sort_latest_first_nil, fmap_nil_inv in Hobjs.
Qed.

(** One object is listed under a prefix. *)
Definition one_listed (s : @Manager NB) (h : Bucket) (pre : string) : Prop :=
  ∃ objs key o,
    objects_of (storage s) h = Ok (<[key := o]> objs)
    ∧ listed_items h pre objs = []
    ∧ is_item pre key = true.

Lemma one_listed_steady (s s' : @Manager NB) (h : Bucket) (pre : string) :
  steady s s' → one_listed s h pre → one_listed s' h pre.
Proof. unfold one_listed. by intros [-> _]. Qed.

Lemma list_checkpoints_one (P cp cb pre : string) (h : Bucket) (s : @Manager NB) :
  _get_checkpoint_path cfg None P = Ok cp →
  _parse_path cp = Ok (cb, pre) →
  view s cb = Ok h → one_listed s h pre →
  ∃ c, (list_checkpoints cfg P s).1 = Ok [c].
Proof.
  intros Hcp Hparse Hv (objs & key & o & Ho & Hnil & Hkey).
  destruct (list_checkpoints cfg P s) as [r s'] eqn:Hlist.
  destruct (list_checkpoints_spec _ _ _ _ _ _ _ Hcp Hparse Hlist)
    as (_ & _ & Hfwd).
  rewrite (Hfwd _ _ Hv Ho).
  rewrite listed_items_insert_new by done. simpl. eauto.
Qed.

Lemma save_dispatch_notebook_ok (model : @ModelDict NB) (P b k : string)
    (cb pre ext : string) (h : Bucket) (s s' : @Manager NB) :
  d_type model = Some "notebook" →
  _parse_path P = Ok (b, k) →
  (∃ cp, _get_checkpoint_path cfg None P = Ok cp
         ∧ _parse_path cp = Ok (cb, pre)) →
  (∀ id, ∃ cp, _get_checkpoint_path cfg (Some id) P = Ok cp
               ∧ _parse_path cp = Ok (cb, pre +:+ "-" +:+ id +:+ ext)) →
  PyStr.contains PyStr.slash ext = false →
  is_item pre k = false →
  view s cb = Ok h → nothing_listed s h pre →
  save_dispatch cfg env model P s = (Ok tt, s') →
  is_dir_path P = false
  ∧ view s' cb = Ok h
  ∧ one_listed s' h pre.
Proof.
  intros Htype Hp (cp0 & Hcp0 & Hparse0) Hsome Hext Hk Hv Hnil H.
  unfold save_dispatch in H.
  apply bind_ok in H as (type & s0 & Ht & H).
  unfold dict_type in Ht. rewrite Htype in Ht.
  apply ret_ok in Ht as [-> ->]. simpl in H.
  apply bind_ok in H as (content & s1 & Hc & H).
  assert (s1 = s) as ->.
  { unfold dict_content in Hc. destruct (d_content model).
    - by apply ret_ok in Hc as [_ ->].
    - done. }
  apply bind_ok in H as (nb & s1 & Hnb & H). apply lift_ok in Hnb as [_ ->].
  apply bind_ok in H as (u & s1 & Hsign & H). apply lift_ok in Hsign as [_ ->].
  apply bind_ok in H as (blob & s2 & Hsave & H).
  eapply save_notebook_ok in Hsave as (hb & Hvb & Hup); [|done].
  assert (Hv2 : view s2 cb = Ok h).
  { destruct Hup as (? & ? & _ & _ & ->). done. }
  pose proof (nothing_listed_after_upload _ _ _ _ _ _ Hk Hnil Hup) as Hnil2.
  apply bind_ok in H as (cps & s3 & Hlist & H).
  destruct (list_checkpoints_spec _ _ _ _ _ _ _ Hcp0 Hparse0 Hlist)
    as (Hst3 & Hinv & _).
  destruct (Hinv cps eq_refl) as (h' & Hv' & Hcps).
  rewrite Hv2 in Hv'. injection Hv' as <-.
  assert (cps = []) as ->.
  { unfold nothing_listed in Hnil2.
    destruct (objects_of (storage s2) h); [|done].
    rewrite Hnil2 in Hcps. done. }
  rewrite bool_decide_eq_true_2 in H by done.
  apply bind_ok in H as (c & s4 & Hcreate & H).
  apply ret_ok in H as [_ ->].
  apply create_checkpoint_ok in Hcreate
    as (Hdir & n & cpfull & cb' & key & h' & Hcp & Hparse & Hv' & Hup').
  destruct (Hsome (uuid4_str n)) as (cp & Hcp' & Hparse').
  rewrite Hcp in Hcp'. injection Hcp' as <-.
  rewrite Hparse in Hparse'. injection Hparse' as -> ->.
  destruct Hst3 as [Hsto3 Hv3].
  rewrite Hv3, Hv2 in Hv'. injection Hv' as <-.
  split; [done|].
  pose proof (nothing_listed_steady _ _ _ _ (conj Hsto3 Hv3) Hnil2) as Hnil3.
  destruct Hup' as (objs & o & Ho & Hput & Hv4).
  split; [by rewrite Hv4, Hv3|].
  exists objs, (pre +:+ "-" +:+ uuid4_str n +:+ ext), o. split; [|split].
  - rewrite Hput. by rewrite decide_True.
  - unfold nothing_listed in Hnil3. by rewrite Ho in Hnil3.
  - apply is_item_extension.
    rewrite (contains_app _ "-"), contains_app, uuid4_str_no_slash, Hext. done.
Qed.

Lemma save_finish_steady (model : @ModelDict NB) (P : string)
    (s s' : @Manager NB) (m : @Model NB) :
  is_dir_path P = false →
  save_finish cfg env model P s = (Ok m, s') → steady s s'.
Proof.
  intros Hdir H. unfold save_finish in H.
  apply bind_ok in H as (type & s0 & Ht & H).
  assert (s0 = s) as ->.
  { unfold dict_type in Ht. destruct (d_type model); [|done].
    by apply ret_ok in Ht as [_ ->]. }
  apply bind_ok in H as (msg & s1 & Hmsg & H).
  assert (s1 = s) as ->.
  { assert (readonly (if String.eqb type "notebook"
                      then bind (dict_content model)
                             (λ content : @Content NB,
                                ret (match validate_nb env content with
                                     | Some msg => Some msg
                                     | None => d_message model
                                     end))
                      else ret None)) as Hro.
    { unfold dict_content. destruct (String.eqb _ _); auto 10 with readonly. }
    by apply Hro in Hmsg. }
  apply bind_ok in H as (m0 & s2 & Hget & H).
  apply get_file in Hget as [Hst _]; [|done].
  apply bind_ok in H as (u & s3 & Hhook & H).
  apply run_post_save_hook_steady in Hhook.
  apply ret_ok in H as [_ ->].
  by eapply steady_trans.
Qed.

End Checkpoints.

(** A notebook saved under a normalised path with no checkpoint has one
    afterwards. *)
Lemma notebook_save_then_listing {NB : Type} (cfg : @Config NB)
    (env : @Collaborators NB) (model : @ModelDict NB) (P : string)
    (st st1 : @Manager NB) (m : @Model NB) :
  PyStr.startswith P "/" = false →
  d_type model = Some "notebook" →
  (∀ model', run_pre_save_hook env model P = Ok model' →
             d_type model' = Some "notebook") →
  (list_checkpoints cfg P st).1 = Ok [] →
  save cfg env model P st = (Ok m, st1) →
  ∃ c, (list_checkpoints cfg P st1).1 = Ok [c].
Proof.
  intros Hnorm Htype Hhook Hnone Hsave.
  assert (HP : strip_leading_slash P = P).
  { unfold strip_leading_slash. by rewrite Hnorm. }
  destruct (parse_path_total P) as (b & k & Hp).
  destruct (checkpoint_path_parse cfg P b k) as (cb & pre & ext & H0 & Hsome & Hext & Hk).
  { by rewrite HP. }
  destruct H0 as (cp0 & Hcp0 & Hparse0).
  destruct (list_checkpoints_nil_inv cfg P cp0 cb pre st Hcp0 Hparse0 Hnone)
    as (h & Hv & Hnil).
  unfold save in Hsave. rewrite HP, Htype in Hsave.
  rewrite (bool_decide_eq_false_2 (Some "notebook" = None)) in Hsave by done.
  rewrite (bool_decide_eq_false_2 (Some "notebook" = Some "directory"))
    in Hsave by done.
  destruct (bool_decide (d_content model = None) && negb false); [done|].
  apply bind_ok in Hsave as ([b' k'] & s0 & Hp' & Hsave).
  apply lift_ok in Hp' as [Hp' ->]. rewrite Hp in Hp'. injection Hp' as <- <-.
  destruct (bool_decide (k = "") && negb false); [done|].
  unfold save_path in Hsave. rewrite Htype in Hsave.
  rewrite (bool_decide_eq_false_2 (Some "notebook" = Some "directory"))
    in Hsave by done.
  rewrite andb_false_r in Hsave.
  apply bind_ok in Hsave as (model' & s0 & Hh & Hsave).
  apply lift_ok in Hh as [Hh ->].
  apply Hhook in Hh.
  apply bind_ok in Hsave as ([] & s1 & Hdispatch & Hsave).
  apply try_except_ok in Hdispatch as [Hdispatch|(e & s2 & _ & _ & Hhandler)].
  2:{ apply bind_ok in Hhandler as (? & ? & _ & ?). done. }
  eapply (save_dispatch_notebook_ok cfg env) in Hdispatch
    as (Hdir & Hv1 & Hone); eauto.
  apply save_finish_steady in Hsave; [|done].
  eapply (list_checkpoints_one cfg); eauto.
  - destruct Hsave as [_ Hvs]. by rewrite Hvs.
  - by eapply one_listed_steady.
Qed.

(** [save] and [list_checkpoints] strip one leading slash themselves. *)
Lemma strip_idempotent (P : string) :
  PyStr.startswith (strip_leading_slash P) "/" = false →
  strip_leading_slash (strip_leading_slash P) = strip_leading_slash P.
Proof. intros H. unfold strip_leading_slash at 1. by rewrite H. Qed.

Lemma save_strips {NB : Type} (cfg : @Config NB) (env : @Collaborators NB)
    (model : @ModelDict NB) (P : string) :
  PyStr.startswith (strip_leading_slash P) "/" = false →
  save cfg env model (strip_leading_slash P) = save cfg env model P.
Proof. intros H. unfold save. by rewrite strip_idempotent. Qed.

Lemma list_checkpoints_strips {NB : Type} (cfg : @Config NB) (P : string) :
  PyStr.startswith (strip_leading_slash P) "/" = false →
  @list_checkpoints NB cfg (strip_leading_slash P) = list_checkpoints cfg P.
Proof.
  intros H. unfold list_checkpoints, _get_checkpoint_path.
  by rewrite strip_idempotent.
Qed.

(** C2: after [save] of a notebook model to a path that has no
    checkpoint, [list_checkpoints] for that path returns exactly one.
    For every configuration, state and path, written with or without its
    leading slash: when the model is a notebook (and still one after the
    pre-save hook), [list_checkpoints] returned the empty list before and
    [save] returns, [list_checkpoints] returns a list of one checkpoint
    in the state [save] has left. *)
Theorem notebook_save_creates_first_checkpoint {NB : Type} (cfg : @Config NB)
    (env : @Collaborators NB) (model : @ModelDict NB) (P : string)
    (st st1 : @Manager NB) (m : @Model NB) :
  PyStr.startswith (strip_leading_slash P) "/" = false →
  d_type model = Some "notebook" →
  (∀ model', run_pre_save_hook env model (strip_leading_slash P) = Ok model' →
             d_type model' = Some "notebook") →
  (list_checkpoints cfg P st).1 = Ok [] →
  save cfg env model P st = (Ok m, st1) →
  ∃ c, (list_checkpoints cfg P st1).1 = Ok [c].
Proof.
  intros Hnorm Htype Hhook Hnone Hsave.
  rewrite <- (list_checkpoints_strips cfg P Hnorm) in Hnone |- *.
  rewrite <- (save_strips cfg env model P Hnorm) in Hsave.
  by eapply notebook_save_then_listing.
Qed.

(** X1: when a notebook is saved under a normalised path (no leading
    slash) for which [list_checkpoints] returned the empty list, with a
    positive listing limit and a pre-save hook that leaves a notebook a
    notebook, and [save] returns, then [list_checkpoints] for that path
    returns exactly one checkpoint. *)
Theorem notebook_save_leaves_one_checkpoint {NB : Type} (cfg : @Config NB)
    (env : @Collaborators NB) (model : @ModelDict NB) (P : string)
    (st st1 : @Manager NB) (m : @Model NB) :
  0 < max_list_size cfg →
  PyStr.startswith P "/" = false →
  d_type model = Some "notebook" →
  (∀ model', run_pre_save_hook env model P = Ok model' →
             d_type model' = Some "notebook") →
  (list_checkpoints cfg P st).1 = Ok [] →
  save cfg env model P st = (Ok m, st1) →
  ∃ c, (list_checkpoints cfg P st1).1 = Ok [c].
Proof. intros _. apply notebook_save_then_listing. Qed.

Definition notebook_model : @ModelDict Notebook :=
  {| d_type := Some "notebook";
     d_content := Some (CNotebook "{}");
     d_format := None;
     d_message := None |}.

Lemma notebook_save_leaves_one_checkpoint_witness :
  (list_checkpoints defaults "bucket/nb.ipynb" empty_bucket).1 = Ok []
  ∧ ∃ c, (list_checkpoints defaults "bucket/nb.ipynb"
            (save defaults collaborators notebook_model "bucket/nb.ipynb"
                  empty_bucket).2).1 = Ok [c].
Proof.
  split; [reflexivity|].
  destruct (save defaults collaborators notebook_model "bucket/nb.ipynb"
                 empty_bucket) as [[m|e] st1] eqn:Hsave.
  - apply (notebook_save_leaves_one_checkpoint defaults collaborators
             notebook_model "bucket/nb.ipynb" empty_bucket st1 m).
    + reflexivity.
    + reflexivity.
    + reflexivity.
    + intros model' [= <-]. reflexivity.
    + reflexivity.
    + exact Hsave.
  - vm_compute in Hsave. discriminate Hsave.
Defined.

Lemma notebook_save_creates_first_checkpoint_witness :
  (list_checkpoints defaults "/bucket/nb.ipynb" empty_bucket).1 = Ok []
  ∧ ∃ c, (list_checkpoints defaults "/bucket/nb.ipynb"
            (save defaults collaborators notebook_model "/bucket/nb.ipynb"
                  empty_bucket).2).1 = Ok [c].
Proof.
  split; [reflexivity|].
  destruct (save defaults collaborators notebook_model "/bucket/nb.ipynb"
                 empty_bucket) as [[m|e] st1] eqn:Hsave.
  - apply (notebook_save_creates_first_checkpoint defaults collaborators
             notebook_model "/bucket/nb.ipynb" empty_bucket st1 m).
    + reflexivity.
    + reflexivity.
    + intros model' [= <-]. reflexivity.
    + reflexivity.
    + exact Hsave.
  - vm_compute in Hsave. discriminate Hsave.
Defined.

(** ** Operations that only read the storage *)

Definition keeps_storage {NB A : Type} (m : M (@Manager NB) A) : Prop :=
  ∀ s r s', m s = (r, s') → storage s' = storage s.

Lemma keeps_readonly {NB A : Type} (m : M (@Manager NB) A) :
  readonly m → keeps_storage m.
Proof. intros H s r s' Hm. by rewrite (H _ _ _ Hm). Qed.

Lemma keeps_bind {NB A B : Type} (m : M (@Manager NB) A)
    (k : A → M (@Manager NB) B) :
  keeps_storage m → (∀ a, keeps_storage (k a)) → keeps_storage (bind m k).
Proof.
  intros Hm Hk s r s'. unfold bind.
  destruct (m s) as [[a|e] s1] eqn:Hms.
  - intros H. apply Hk in H. apply Hm in Hms. congruence.
  - intros [= _ <-]. by apply Hm in Hms.
Qed.

Lemma keeps_try_except {NB A : Type} (m : M (@Manager NB) A)
    (handles : exn → bool) (h : exn → M (@Manager NB) A) :
  keeps_storage m → (∀ e, keeps_storage (h e)) →
  keeps_storage (try_except m handles h).
Proof.
  intros Hm Hh s r s'. unfold try_except.
  destruct (m s) as [[a|e] s1] eqn:Hms.
  - intros [= _ <-]. by apply Hm in Hms.
  - destruct (handles e).
    + intros H. apply Hh in H. apply Hm in Hms. congruence.
    + intros [= _ <-]. by apply Hm in Hms.
Qed.

Lemma keeps_try_else {NB A R : Type} (m : M (@Manager NB) A)
    (handles : exn → bool) (h : exn → M (@Manager NB) R)
    (k : A → M (@Manager NB) R) :
  keeps_storage m → (∀ e, keeps_storage (h e)) → (∀ a, keeps_storage (k a)) →
  keeps_storage (try_else m handles h k).
Proof.
  intros Hm Hh Hk s r s'. unfold try_else.
  destruct (m s) as [[a|e] s1] eqn:Hms.
  - intros H. apply Hk in H. apply Hm in Hms. congruence.
  - destruct (handles e).
    + intros H. apply Hh in H. apply Hm in Hms. congruence.
    + intros [= _ <-]. by apply Hm in Hms.
Qed.

Lemma keeps_append_each {NB A : Type} (xs : list A) (keep : A → bool)
    (build : A → M (@Manager NB) (@Model NB)) :
  (∀ x, keeps_storage (build x)) → keeps_storage (append_each xs keep build).
Proof.
  intros Hb. induction xs as [|x xs IH]; simpl.
  - apply keeps_readonly, readonly_ret.
  - destruct (keep x); [|done].
    apply keeps_bind; [done|]. intros m.
    apply keeps_bind; [done|]. intros ms.
    apply keeps_readonly, readonly_ret.
Qed.

Section Reading.
Context {NB : Type} (cfg : @Config NB) (env : @Collaborators NB).

Lemma keeps_get_bucket (n : string) (t : bool) :
  keeps_storage (_get_bucket cfg n t).
Proof. intros s r s' H. by apply get_bucket_steady in H as [? _]. Qed.

Lemma keeps_del_bucket_cache (n : string) :
  keeps_storage (@del_bucket_cache NB n).
Proof.
  unfold del_bucket_cache. intros s r s'. unfold bind, gets.
  destruct (_bucket_cache s) as [c|]; [|by intros [= _ <-]].
  destruct (c !! n); by intros [= _ <-].
Qed.

Lemma keeps_parse_or_return {R : Type} (path : string)
    (on_error : M (@Manager NB) R) (k : string → string → M (@Manager NB) R) :
  keeps_storage on_error → (∀ a b, keeps_storage (k a b)) →
  keeps_storage (parse_or_return path on_error k).
Proof.
  intros He Hk. unfold parse_or_return.
  destruct (_parse_path path) as [[a b]|e]; [done|].
  destruct e; try done; apply keeps_readonly, readonly_raise.
Qed.

#[local] Hint Resolve readonly_ret readonly_raise readonly_lift readonly_gets
  readonly_blob_exists readonly_bucket_get_blob readonly_bucket_list_blobs
  readonly_client_list_buckets readonly_blob_download_as_string
  readonly_as_blob : readonly.

Ltac ro := solve [apply keeps_readonly; auto 10 with readonly].

Lemma keeps_is_hidden (path : string) : keeps_storage (is_hidden cfg path).
Proof.
  unfold is_hidden. destruct (decide _); [ro|].
  apply keeps_parse_or_return; [ro|]. intros bn bp.
  apply keeps_try_else; [apply keeps_get_bucket|intros; ro|intros; ro].
Qed.

Lemma keeps_file_exists (path : string) : keeps_storage (file_exists cfg path).
Proof.
  unfold file_exists. destruct (decide _); [ro|].
  apply keeps_parse_or_return; [ro|]. intros bn bp.
  apply keeps_bind; [apply keeps_get_bucket|]. intros [h|]; [|ro].
  destruct (decide _); [ro|]. destruct (PyStr.endswith _ _); ro.
Qed.

Lemma keeps_fetch (path : string) (content : bool) :
  keeps_storage (_fetch cfg path content).
Proof.
  unfold _fetch. destruct (decide _); [ro|].
  apply keeps_parse_or_return; [ro|]. intros bn bp.
  apply keeps_try_else; [apply keeps_get_bucket|intros; ro|].
  intros [h|]; [|ro].
  destruct (_ || _).
  - apply keeps_bind; [destruct (decide _); ro|]. intros marker.
    destruct (_ && _); [ro|].
    apply keeps_try_else; [ro| |intros; ro].
    intros e. apply keeps_bind; [apply keeps_del_bucket_cache|]. intros; ro.
  - destruct (negb content); ro.
Qed.

Lemma keeps_dir_exists (path : string) : keeps_storage (dir_exists cfg path).
Proof.
  unfold dir_exists. destruct (decide _); [ro|].
  apply keeps_bind; [apply keeps_fetch|]. intros; ro.
Qed.

Lemma readonly_read_file (blob : Blob) (format : option string) :
  readonly (@_read_file NB blob format).
Proof.
  unfold _read_file.
  apply readonly_bind; [auto with readonly|]. intros bcontent.
  apply readonly_bind.
  - destruct (_ || _); [|auto with readonly].
    apply readonly_try_except; [auto with readonly|].
    intros e. destruct (bool_decide _); auto with readonly.
  - intros [r|]; auto with readonly.
Qed.

Lemma readonly_read_notebook (blob : Blob) : readonly (_read_notebook env blob).
Proof. unfold _read_notebook. auto 10 with readonly. Qed.

Lemma keeps_file_model (p : Payload) (content : bool) (format : option string) :
  keeps_storage (@_file_model NB p content format).
Proof.
  apply keeps_readonly. unfold _file_model.
  apply readonly_bind; [auto with readonly|]. intros blob.
  destruct content; [|auto with readonly].
  apply readonly_bind; [apply readonly_read_file|].
  intros []; auto with readonly.
Qed.

Lemma keeps_notebook_model (p : Payload) (content : bool) :
  keeps_storage (_notebook_model env p content).
Proof.
  apply keeps_readonly. unfold _notebook_model.
  apply readonly_bind; [auto with readonly|]. intros blob.
  destruct content; [|auto with readonly].
  apply readonly_bind; [apply readonly_read_notebook|].
  intros; auto with readonly.
Qed.

Lemma keeps_dir_model self_get (path : string) (members : Payload)
    (content : bool) :
  (∀ p c, keeps_storage (self_get p c)) →
  keeps_storage (_dir_model cfg env self_get path members content).
Proof.
  intros Hself. unfold _dir_model.
  apply keeps_bind.
  { destruct (decide _); [ro|]. destruct members; try ro.
    apply keeps_bind; [apply keeps_is_hidden|]. intros; ro. }
  intros w. destruct content; [|ro].
  destruct members as [|blobs folders|b]; try ro.
  apply keeps_bind; [by apply keeps_append_each|]. intros files.
  apply keeps_bind; [ro|]. intros [bucket this].
  apply keeps_bind; [by apply keeps_append_each|]. intros dirs. ro.
Qed.

Lemma keeps_get_body self_get (path : PathArg) (content : bool)
    (type format : option string) :
  (∀ p c, keeps_storage (self_get p c)) →
  keeps_storage (get_body cfg env self_get path content type format).
Proof.
  intros Hself. unfold get_body.
  destruct (_ || _).
  - destruct (negb _); [ro|].
    apply keeps_bind; [apply keeps_fetch|]. intros [ex members].
    destruct (negb _); [ro|]. by apply keeps_dir_model.
  - apply keeps_bind; [apply keeps_fetch|]. intros [ex blob].
    destruct (negb _); [ro|].
    destruct (_ || _); [apply keeps_notebook_model|apply keeps_file_model].
Qed.

Lemma keeps_get (path : PathArg) (content : bool) (type format : option string) :
  keeps_storage (get cfg env path content type format).
Proof.
  apply keeps_get_body. intros p c. apply keeps_get_body. intros; ro.
Qed.

Lemma keeps_list_checkpoints (path : string) :
  keeps_storage (list_checkpoints cfg path).
Proof.
  unfold list_checkpoints.
  apply keeps_bind; [ro|]. intros cp.
  apply keeps_bind; [ro|]. intros [bn bp].
  apply keeps_try_else; [|intros; ro|intros; ro].
  apply keeps_bind; [apply keeps_get_bucket|]. intros ob.
  apply keeps_bind; [unfold need_bucket; destruct ob; ro|]. intros h.
  apply keeps_bind; [ro|]. intros; ro.
Qed.

Lemma keeps_get_file_checkpoint (id path : string) :
  keeps_storage (get_file_checkpoint cfg id path).
Proof.
  unfold get_file_checkpoint.
  apply keeps_bind; [ro|]. intros cp.
  apply keeps_bind; [apply keeps_fetch|]. intros [ex blob].
  destruct (negb _); [ro|].
  apply keeps_bind; [ro|]. intros b.
  apply keeps_readonly, readonly_read_file.
Qed.

Lemma keeps_get_notebook_checkpoint (id path : string) :
  keeps_storage (get_notebook_checkpoint cfg env id path).
Proof.
  unfold get_notebook_checkpoint.
  apply keeps_bind; [ro|]. intros cp.
  apply keeps_bind; [apply keeps_fetch|]. intros [ex blob].
  destruct (negb _); [ro|].
  apply keeps_bind; [ro|]. intros b.
  apply keeps_readonly, readonly_read_notebook.
Qed.

End Reading.

(** X2: [get], [_fetch], [file_exists], [dir_exists], [is_hidden],
    [list_checkpoints] and the two checkpoint readers never change what
    the storage holds, whatever they are asked, whatever the state and
    whether they return or raise. *)
Theorem read_operations_keep_the_storage {NB : Type} (cfg : @Config NB)
    (env : @Collaborators NB) :
  (∀ path content type format,
      keeps_storage (get cfg env path content type format))
  ∧ (∀ path content, keeps_storage (_fetch cfg path content))
  ∧ (∀ path, keeps_storage (file_exists cfg path))
  ∧ (∀ path, keeps_storage (dir_exists cfg path))
  ∧ (∀ path, keeps_storage (is_hidden cfg path))
  ∧ (∀ path, keeps_storage (list_checkpoints cfg path))
  ∧ (∀ id path, keeps_storage (get_file_checkpoint cfg id path))
  ∧ (∀ id path, keeps_storage (get_notebook_checkpoint cfg env id path)).
Proof.
  repeat split; intros.
  - apply keeps_get.
  - apply keeps_fetch.
  - apply keeps_file_exists.
  - apply keeps_dir_exists.
  - apply keeps_is_hidden.
  - apply keeps_list_checkpoints.
  - apply keeps_get_file_checkpoint.
  - apply keeps_get_notebook_checkpoint.
Qed.

(** ** Renaming *)

Lemma rename_file_rec_raises {NB : Type} (cfg : @Config NB) (fuel : nat)
    (old_path new_path : string) (s : @Manager NB) :
  ∃ e s', rename_file_rec cfg fuel old_path new_path s = (Raise e, s')
          ∧ storage s' = storage s.
Proof.
  destruct fuel as [|fuel]; simpl; [by eexists _, _|].
  destruct (parse_path_total (strip_leading_slash old_path)) as (ob & op & Ho).
  destruct (parse_path_total (strip_leading_slash new_path)) as (nb & np & Hn).
  unfold bind at 1, lift at 1. rewrite Ho.
  unfold bind at 1.
  destruct (_get_bucket cfg ob true s) as [[old_bucket|e] s1] eqn:H1;
    pose proof (get_bucket_steady _ _ _ _ _ _ H1) as [Hs1 _];
    [|by eexists _, _].
  unfold bind at 1, lift at 1. rewrite Hn.
  unfold bind at 1.
  destruct (_get_bucket cfg nb true s1) as [[new_bucket|e] s2] eqn:H2;
    pose proof (get_bucket_steady _ _ _ _ _ _ H2) as [Hs2 _];
    [|eexists _, _; split; [done|congruence]].
  unfold bind at 1, need_bucket.
  destruct old_bucket as [old_bucket|]; unfold ret at 1, raise at 1.
  - unfold bind at 1, call_without, raise at 1.
    eexists _, _. split; [done|congruence].
  - eexists _, _. split; [done|congruence].
Qed.

(** X3: [rename_file] never returns: on every pair of paths and in every
    state it raises, and the storage is left as it was; so does
    [rename_checkpoint], which goes through it. *)
Theorem rename_file_always_raises {NB : Type} (cfg : @Config NB)
    (s : @Manager NB) :
  (∀ old_path new_path,
      ∃ e s', rename_file cfg old_path new_path s = (Raise e, s')
              ∧ storage s' = storage s)
  ∧ (∀ checkpoint_id old_path new_path,
      ∃ e s', rename_checkpoint cfg checkpoint_id old_path new_path s
              = (Raise e, s')
              ∧ storage s' = storage s).
Proof.
  split.
  - intros. apply rename_file_rec_raises.
  - intros. unfold rename_checkpoint, _get_checkpoint_path.
    destruct (parse_path_total (strip_leading_slash old_path)) as (ob & op & ->).
    destruct (parse_path_total (strip_leading_slash new_path)) as (nb & np & ->).
    destruct (PyStr.splitext _) as [n1 e1]. destruct (PyStr.splitext _) as [n2 e2].
    unfold bind, lift. apply rename_file_rec_raises.
Qed.

(** ** The bucket cache *)



Lemma get_bucket_miss {NB : Type} (cfg : @Config NB) (name : string)
    (t : bool) (s : @Manager NB) :
  name ≠ "" →
  st_buckets (storage s) !! name = None →
  default ∅ (_bucket_cache s) !! name = None →
  (_get_bucket cfg name t s).1 = (if t then Raise NotFound else Ok None)
  ∧ storage (_get_bucket cfg name t s).2 = storage s
  ∧ default ∅ (_bucket_cache (_get_bucket cfg name t s).2) !! name = None.
Proof.
  intros Hne Hs Hcache. rewrite get_bucket_eq, Hcache.
  assert (Ha : asked s name = Raise NotFound).
  { unfold asked. rewrite decide_False by done. by rewrite Hs. }
  rewrite Ha. destruct (cache_buckets cfg); simpl.
  - split; [done|]. unfold touched.
    destruct (_bucket_cache s) eqn:Hc; rewrite ?Hc; done.
  - done.
Qed.

(** X5: a bucket the service does not know, and that is not in the
    cache, is [None] for a lookup that does not throw and [NotFound] for
    one that does; neither answer is cached, so a bucket created
    afterwards is found by the next lookup.  The empty name is no name of
    a bucket: unless the cache holds it, its lookup raises the library's
    [ValueError], thrown or not, before the service is asked. *)
Theorem get_bucket_does_not_cache_misses {NB : Type} (cfg : @Config NB)
    (name : string) (t : bool) (s : @Manager NB) (objs : gmap string Object) :
  st_buckets (storage s) !! name = None →
  default ∅ (_bucket_cache s) !! name = None →
  let created :=
    mkStorage (<[name := Live objs]> (st_buckets (storage s)))
              (st_clock (storage s)) in
  (name ≠ "" →
   (_get_bucket cfg name false s).1 = Ok None
   ∧ (_get_bucket cfg name true s).1 = Raise NotFound
   ∧ (_get_bucket cfg name false
        (set_storage created (_get_bucket cfg name t s).2)).1
     = Ok (Some (mkBucket name)))
  ∧ (name = "" →
     ∃ msg, (_get_bucket cfg name t s).1 = Raise (ValueError msg)).
Proof.
  intros Hs Hcache created. split.
  - intros Hne.
    destruct (get_bucket_miss cfg name false s Hne Hs Hcache) as (H1 & _ & _).
    destruct (get_bucket_miss cfg name true s Hne Hs Hcache) as (H2 & _ & _).
    destruct (get_bucket_miss cfg name t s Hne Hs Hcache) as (_ & _ & H3).
    split; [done|]. split; [done|].
    apply view_get_bucket. unfold view. simpl. rewrite H3.
    unfold asked. rewrite decide_False by done. simpl.
    destruct (cache_buckets cfg); simpl; by rewrite lookup_insert_eq.
  - intros ->. eexists. rewrite get_bucket_eq, Hcache.
    by destruct (cache_buckets cfg).
Qed.

Lemma get_bucket_does_not_cache_misses_witness :
  (_get_bucket defaults "other" false empty_bucket).1 = Ok None
  ∧ (_get_bucket defaults "other" true empty_bucket).1 = Raise NotFound
  ∧ ∃ msg, (_get_bucket defaults "" false empty_bucket).1
           = Raise (ValueError msg).
Proof.
  pose proof (get_bucket_does_not_cache_misses defaults "other" false
                empty_bucket ∅) as H.
  destruct H as [H _]; [reflexivity|reflexivity|].
  destruct (H ltac:(done)) as (H1 & H2 & _).
  pose proof (get_bucket_does_not_cache_misses defaults "" false
                empty_bucket ∅) as H'.
  destruct H' as [_ H']; [reflexivity|reflexivity|].
  split; [exact H1|]. split; [exact H2|]. by apply H'.
Defined.

(** ** Hidden paths, existing directories *)

Lemma rev_app_app (a b c : string) :
  String.rev_app (a +:+ b) c = String.rev_app b (String.rev_app a c).
Proof.
  revert c. induction a as [|x a IH]; intros c; [done|].
  rewrite append_cons. simpl. apply IH.
Qed.

Lemma prefix_cons (a b : ascii) (x y : string) :
  String.prefix (String a x) (String b y)
  = if Ascii.ascii_dec a b then String.prefix x y else false.
Proof. reflexivity. Qed.

Lemma prefix_nil (s : string) : String.prefix "" s = true.
Proof. by destruct s. Qed.

Lemma strip_leading_slash_app (path : string) :
  strip_leading_slash path ≠ "" →
  strip_leading_slash (path +:+ "/") = strip_leading_slash path +:+ "/".
Proof.
  unfold strip_leading_slash, PyStr.startswith. intros Hne.
  destruct path as [|a path]; [done|]. rewrite append_cons, !prefix_cons.
  destruct (Ascii.ascii_dec "/" a) as [_|_]; [|done].
  rewrite !prefix_nil. done.
Qed.

Lemma endswith_app_slash (x : string) : PyStr.endswith (x +:+ "/") "/" = true.
Proof.
  unfold PyStr.endswith, String.rev. rewrite rev_app_app. simpl.
  by destruct (String.rev_app x "").
Qed.

Lemma view_raise_kind {NB : Type} (cfg : @Config NB) (s : @Manager NB)
    (n : string) (e : exn) :
  view cfg s n = Raise e →
  e = NotFound ∨ e = Forbidden ∨ e = BadRequest ∨ (e = no_bucket_name ∧ n = "").
Proof.
  unfold view. destruct (if cache_buckets cfg then _ else _); [done|].
  apply asked_kind.
Qed.

Lemma get_bucket_view_raise {NB : Type} (cfg : @Config NB) (n : string)
    (t : bool) (s : @Manager NB) (e : exn) :
  view cfg s n = Raise e →
  (_get_bucket cfg n t s).1
  = if (if cache_buckets cfg then is_BadRequest_or_NotFound e
        else is_NotFound e)
    then (if t then Raise e else Ok None)
    else Raise e.
Proof.
  rewrite get_bucket_eq. unfold view.
  destruct (cache_buckets cfg).
  - destruct (default ∅ (_bucket_cache s) !! n); [done|]. by intros ->.
  - by intros ->.
Qed.

(** X6: the empty path is not hidden; a path is not hidden when the
    lookup of its bucket comes to a handle, cached or found; when the
    lookup fails, the path is hidden if the service denies the bucket or
    does not know it, or refuses the name while caching is on, and
    [is_hidden] raises what the lookup raised otherwise.  The leading
    slash is not stripped here: a path that begins with one has the empty
    bucket name, for which the library raises [ValueError]. *)
Theorem is_hidden_by_bucket {NB : Type} (cfg : @Config NB)
    (path bn bp : string) (s : @Manager NB) :
  path ≠ "" →
  _parse_path path = Ok (bn, bp) →
  (is_hidden cfg "" s).1 = Ok false
  ∧ (∀ h, view cfg s bn = Ok h → (is_hidden cfg path s).1 = Ok false)
  ∧ (∀ e, view cfg s bn = Raise e →
          (is_hidden cfg path s).1
          = if is_Forbidden e
               || (if cache_buckets cfg then is_BadRequest_or_NotFound e
                   else is_NotFound e)
            then Ok true else Raise e)
  ∧ (PyStr.startswith path "/" = true →
     default ∅ (_bucket_cache s) !! "" = None →
     ∃ msg, (is_hidden cfg path s).1 = Raise (ValueError msg)).
Proof.
  intros Hne Hp. split; [done|].
  assert (Hraise : ∀ e, view cfg s bn = Raise e →
            (is_hidden cfg path s).1
            = if is_Forbidden e
                 || (if cache_buckets cfg then is_BadRequest_or_NotFound e
                     else is_NotFound e)
              then Ok true else Raise e).
  { intros e Hv. unfold is_hidden.
    destruct (decide (path = "")) as [?|_]; [done|].
    unfold parse_or_return. rewrite Hp. unfold try_else.
    apply (get_bucket_view_raise cfg _ false) in Hv.
    destruct (_get_bucket cfg bn false s) as [r s1].
    simpl in Hv. subst r.
    destruct (if cache_buckets cfg then _ else _).
    - by rewrite orb_true_r.
    - rewrite orb_false_r. by destruct (is_Forbidden e). }
  split; [|split; [done|]].
  - intros h Hv. unfold is_hidden.
    destruct (decide (path = "")) as [?|_]; [done|].
    unfold parse_or_return. rewrite Hp. unfold try_else.
    apply (view_get_bucket cfg _ false) in Hv.
    destruct (_get_bucket cfg bn false s) as [r s1].
    simpl in Hv. subst r. done.
  - intros Hslash Hcache.
    assert (bn = "") as ->.
    { destruct path as [|a path]; [done|].
      unfold PyStr.startswith in Hslash. rewrite prefix_cons in Hslash.
      destruct (Ascii.ascii_dec "/" a) as [<-|]; [|done].
      unfold _parse_path in Hp. simpl in Hp. by injection Hp as <- _. }
    exists "Cannot determine path without bucket name.".
    rewrite (Hraise no_bucket_name).
    + by destruct (cache_buckets cfg).
    + unfold view. rewrite Hcache. by destruct (cache_buckets cfg).
Qed.

Lemma is_hidden_by_bucket_witness :
  (is_hidden defaults "bucket/x" empty_bucket).1 = Ok false
  ∧ (is_hidden defaults "secret/x" (fresh {[ "secret" := Denied ]})).1 = Ok true
  ∧ (is_hidden defaults "nowhere/x" empty_bucket).1 = Ok true
  ∧ ∃ msg, (is_hidden defaults "/bucket/x" empty_bucket).1
           = Raise (ValueError msg).
Proof.
  split; [|split; [|split]].
  - destruct (is_hidden_by_bucket defaults "bucket/x" "bucket" "x" empty_bucket)
      as (_ & H & _); [done|reflexivity|].
    apply (H (mkBucket "bucket")). reflexivity.
  - destruct (is_hidden_by_bucket defaults "secret/x" "secret" "x"
                (fresh {[ "secret" := Denied ]})) as (_ & _ & H & _);
      [done|reflexivity|].
    apply (H Forbidden). reflexivity.
  - destruct (is_hidden_by_bucket defaults "nowhere/x" "nowhere" "x"
                empty_bucket) as (_ & _ & H & _); [done|reflexivity|].
    apply (H NotFound). reflexivity.
  - destruct (is_hidden_by_bucket defaults "/bucket/x" "" "bucket/x"
                empty_bucket) as (_ & _ & _ & H); [done|reflexivity|].
    apply H; reflexivity.
Defined.

(** X7: the root always exists as a directory, and for any other path
    the trailing slash is optional: [dir_exists] gives the same answer
    and the same state with and without it. *)
Theorem dir_exists_trailing_slash {NB : Type} (cfg : @Config NB)
    (path : string) (s : @Manager NB) :
  strip_leading_slash path ≠ "" →
  PyStr.endswith (strip_leading_slash path) "/" = false →
  dir_exists cfg "" s = (Ok (VBool true), s)
  ∧ dir_exists cfg "/" s = (Ok (VBool true), s)
  ∧ dir_exists cfg path s = dir_exists cfg (path +:+ "/") s.
Proof.
  intros Hne Hend. split; [done|]. split; [done|].
  unfold dir_exists. rewrite strip_leading_slash_app by done.
  destruct (decide (strip_leading_slash path = "")) as [?|_]; [done|].
  destruct (decide (strip_leading_slash path +:+ "/" = "")) as [Hnil|_].
  { destruct (strip_leading_slash path); done. }
  rewrite Hend, endswith_app_slash. done.
Qed.

Lemma dir_exists_trailing_slash_witness :
  (dir_exists defaults "bucket/dir" bucket_with_dir).1 = Ok (VBool true)
  ∧ dir_exists defaults "bucket/dir" bucket_with_dir
    = dir_exists defaults "bucket/dir/" bucket_with_dir.
Proof.
  split; [reflexivity|].
  apply (dir_exists_trailing_slash defaults "bucket/dir" bucket_with_dir).
  - done.
  - reflexivity.
Defined.

(** ** What [_fetch] finds *)

Lemma parse_path_no_slash (p : string) :
  PyStr.contains PyStr.slash p = false → _parse_path p = Ok (p, "").
Proof.
  intros Hn. unfold _parse_path.
  destruct (split1_spec p) as [[_ ->]|(a & b & _ & _ & _ & Hs)]; [done|].
  congruence.
Qed.

(** X8: the root of a bucket that the lookup resolves and the service
    has always exists for [_fetch], whether or not the bucket holds an
    object and whether or not content is asked for. *)
Theorem fetch_bucket_root_exists {NB : Type} (cfg : @Config NB)
    (path : string) (content : bool) (h : Bucket) (objs : gmap string Object)
    (s : @Manager NB) :
  path ≠ "" →
  PyStr.contains PyStr.slash path = false →
  view cfg s path = Ok h →
  objects_of (storage s) h = Ok objs →
  ∃ payload, (_fetch cfg path content s).1 = Ok (VBool true, payload).
Proof.
  intros Hne Hslash Hv Ho. unfold _fetch.
  destruct (decide (path = "")) as [?|_]; [done|].
  unfold parse_or_return. rewrite (parse_path_no_slash _ Hslash).
  unfold try_else at 1.
  pose proof (view_get_bucket cfg _ false _ _ Hv) as Hg.
  destruct (_get_bucket cfg path false s) as [r s1] eqn:Hget.
  simpl in Hg. subst r.
  apply get_bucket_steady in Hget as [Hst _].
  rewrite bool_decide_eq_true_2 by done. simpl.
  unfold bind at 1. destruct (decide ("" ≠ "")) as [?|_]; [done|].
  unfold ret at 1. simpl.
  unfold try_else, bucket_list_blobs, bind, gets, lift, ret.
  rewrite Hst, Ho. rewrite !orb_true_r. eauto.
Qed.

Lemma fetch_bucket_root_exists_witness :
  ∃ payload, (_fetch defaults "bucket" false empty_bucket).1
             = Ok (VBool true, payload).
Proof.
  apply (fetch_bucket_root_exists defaults "bucket" false (mkBucket "bucket")
           ∅ empty_bucket).
  - done.
  - reflexivity.
  - reflexivity.
  - reflexivity.
Defined.

(** X9: when the cache holds a handle for a bucket that the service no
    longer has, asking [_fetch] for a directory of that bucket answers
    that it does not exist and removes the handle from the cache. *)
Theorem fetch_evicts_vanished_bucket {NB : Type} (cfg : @Config NB)
    (path bn bp : string) (content : bool) (h : Bucket)
    (cache : gmap string Bucket) (s : @Manager NB) :
  path ≠ "" →
  _parse_path path = Ok (bn, bp) →
  bp = "" ∨ PyStr.endswith bp "/" = true →
  cache_buckets cfg = true →
  _bucket_cache s = Some cache →
  cache !! bn = Some h →
  st_buckets (storage s) !! bucket_name h = None →
  _fetch cfg path content s
  = (Ok (VBool false, PNone),
     set_bucket_cache (Some (delete bn cache)) s).
Proof.
  intros Hne Hp Hdir Hc Hcache Hh Hgone. unfold _fetch.
  destruct (decide (path = "")) as [?|_]; [done|].
  unfold parse_or_return. rewrite Hp. unfold try_else at 1.
  assert (Hget : _get_bucket cfg bn false s = (Ok (Some h), s)).
  { unfold _get_bucket. rewrite Hc. simpl.
    unfold bind, gets, ret. by rewrite Hcache, Hh. }
  rewrite Hget.
  assert (Ho : objects_of (storage s) h = Raise NotFound).
  { unfold objects_of. by rewrite Hgone. }
  replace (bool_decide (bp = "") || PyStr.endswith bp "/") with true
    by (destruct Hdir as [->| ->]; [done|by rewrite orb_true_r]).
  unfold bind at 1.
  assert (Hmarker : (if decide (bp ≠ "")
                     then blob_exists (bucket_blob h bp) else ret false) s
                    = (Ok false, s)).
  { destruct (decide _); [|done].
    unfold blob_exists, try_except, bind, gets, lift.
    cbn [blob_bucket bucket_blob]. by rewrite Ho. }
  rewrite Hmarker. simpl.
  unfold try_else, bucket_list_blobs, bind, gets, lift. cbv beta.
  rewrite Ho. simpl.
  unfold del_bucket_cache, bind, gets, modify, ret. by rewrite Hcache, Hh.
Qed.

Lemma fetch_evicts_vanished_bucket_witness :
  _fetch defaults "bucket/dir/" true
    (set_bucket_cache (Some {[ "bucket" := mkBucket "bucket" ]}) (fresh ∅))
  = (Ok (VBool false, PNone),
     set_bucket_cache (Some (delete "bucket" {[ "bucket" := mkBucket "bucket" ]}))
       (set_bucket_cache (Some {[ "bucket" := mkBucket "bucket" ]}) (fresh ∅))).
Proof.
  apply (fetch_evicts_vanished_bucket defaults "bucket/dir/" "bucket" "dir/"
           true (mkBucket "bucket")).
  - done.
  - reflexivity.
  - right. reflexivity.
  - reflexivity.
  - reflexivity.
  - reflexivity.
  - reflexivity.
Defined.

(** ** What [save] refuses *)

(** X10: [save] refuses a model without a type (400), a model that is
    not a directory and has no content (400), and anything but a
    directory at the root level, that is with an empty object key (403);
    in each case before it has looked anything up: the manager is left
    exactly as it was. *)
Theorem save_refuses_before_acting {NB : Type} (cfg : @Config NB)
    (env : @Collaborators NB) (model : @ModelDict NB) (path : string)
    (s : @Manager NB) :
  (d_type model = None →
   save cfg env model path s
   = (Raise (HTTPError 400 "No file type provided"), s))
  ∧ (d_type model ≠ None → d_type model ≠ Some "directory" →
     d_content model = None →
     save cfg env model path s
     = (Raise (HTTPError 400 "No file content provided"), s))
  ∧ (d_type model ≠ None → d_type model ≠ Some "directory" →
     d_content model ≠ None →
     PyStr.contains PyStr.slash (strip_leading_slash path) = false →
     save cfg env model path s
     = (Raise (HTTPError 403
          "You may only create directories (buckets) at the root level."), s)).
Proof.
  unfold save. split; [|split].
  - intros ->. done.
  - intros Ht Hd ->.
    rewrite (bool_decide_eq_false_2 (d_type model = None)) by done.
    rewrite (bool_decide_eq_false_2 (d_type model = Some "directory")) by done.
    done.
  - intros Ht Hd Hc Hs.
    rewrite (bool_decide_eq_false_2 (d_type model = None)) by done.
    rewrite (bool_decide_eq_false_2 (d_type model = Some "directory")) by done.
    rewrite (bool_decide_eq_false_2 (d_content model = None)) by done.
    cbn [andb negb]. unfold bind, lift.
    rewrite (parse_path_no_slash _ Hs). done.
Qed.

Lemma save_refuses_before_acting_witness :
  save defaults collaborators (file_model "text" "hello") "bucket" empty_bucket
  = (Raise (HTTPError 403
       "You may only create directories (buckets) at the root level."),
     empty_bucket).
Proof.
  destruct (save_refuses_before_acting defaults collaborators
              (file_model "text" "hello") "bucket" empty_bucket)
    as (_ & _ & H).
  apply H; done.
Defined.

(** X11: [_save_file] writes nothing when the format is neither [text]
    nor [base64], and nothing when the content cannot be encoded (not
    ASCII, not base64, not a string): once the bucket is looked up it
    raises the 400 error and the state is the one the lookup left.  The
    text of the first error is the source's, with the two formats in
    double quotes; the text of the second is [Encoding error saving],
    the path, a colon and what [str] makes of the cause. *)
Theorem save_file_rejects_without_writing {NB : Type} (cfg : @Config NB)
    (env : @Collaborators NB)
    (path bn bp : string) (content : @Content NB) (format : option string)
    (ob : option Bucket) (s s1 : @Manager NB) :
  _parse_path path = Ok (bn, bp) →
  _get_bucket cfg bn true s = (Ok ob, s1) →
  (format ≠ Some "text" → format ≠ Some "base64" →
   _save_file cfg env path content format s
   = (Raise (HTTPError 400
        ("Must specify format of file contents as " +:+ dquote +:+ "text"
         +:+ dquote +:+ " or " +:+ dquote +:+ "base64" +:+ dquote)), s1))
  ∧ (∀ e, format = Some "base64" →
          match content_encode content Codec.encode_ascii with
          | Ok b64 => Codec.decodebytes b64
          | Raise e' => Raise e'
          end = Raise e →
          _save_file cfg env path content format s
          = (Raise (HTTPError 400
               ("Encoding error saving " +:+ path +:+ ": "
                +:+ exception_text env e)),
             s1)).
Proof.
  intros Hp Hget. unfold _save_file. rewrite Hp. split.
  - intros Ht Hb. unfold bind at 1, lift at 1. unfold bind at 1. rewrite Hget.
    by rewrite !bool_decide_eq_false_2.
  - intros e -> He. unfold bind at 1, lift at 1. unfold bind at 1. rewrite Hget.
    rewrite (bool_decide_eq_false_2 (Some "base64" = Some "text")) by done.
    rewrite (bool_decide_eq_true_2 (Some "base64" = Some "base64")) by done.
    cbn [orb negb]. unfold bind at 1, try_except, bind at 1, lift at 1.
    destruct (content_encode content Codec.encode_ascii) as [b64|e'].
    + unfold lift. rewrite He. done.
    + injection He as ->. done.
Qed.

Lemma save_file_rejects_without_writing_witness :
  (_save_file defaults collaborators "bucket/f" (CText "hello") None
     empty_bucket).1
  = Raise (HTTPError 400
      ("Must specify format of file contents as " +:+ dquote +:+ "text"
       +:+ dquote +:+ " or " +:+ dquote +:+ "base64" +:+ dquote))
  ∧ String.length dquote = 1%nat
  ∧ Ascii.nat_of_ascii (default Ascii.zero (String.get 0 dquote)) = 34%nat
  ∧ storage (_save_file defaults collaborators "bucket/f" (CText "abcde")
               (Some "base64") empty_bucket).2
    = storage empty_bucket.
Proof.
  destruct (save_file_rejects_without_writing defaults collaborators
              "bucket/f" "bucket" "f"
              (CText "hello") None (Some (mkBucket "bucket")) empty_bucket
              (_get_bucket defaults "bucket" true empty_bucket).2)
    as [H1 _]; [reflexivity|reflexivity|].
  destruct (save_file_rejects_without_writing defaults collaborators
              "bucket/f" "bucket" "f"
              (CText "abcde") (Some "base64") (Some (mkBucket "bucket"))
              empty_bucket
              (_get_bucket defaults "bucket" true empty_bucket).2)
    as [_ H2]; [reflexivity|reflexivity|].
  split; [|split; [reflexivity|split; [reflexivity|]]].
  - rewrite H1; done.
  - erewrite H2; [reflexivity|reflexivity|reflexivity].
Defined.

(** ** Models without content *)

(** X12: a [get] that is asked for no content returns no content: for
    every path, type and format, the model it returns has content [None]
    and format [None]. *)
Theorem get_without_content {NB : Type} (cfg : @Config NB)
    (env : @Collaborators NB) (path : PathArg) (type format : option string)
    (s s' : @Manager NB) (m : @Model NB) :
  get cfg env path false type format s = (Ok m, s') →
  m_content m = CNone ∧ m_format m = None.
Proof.
  unfold get, get_body. destruct (_ || _).
  - destruct (negb _); [done|]. intros H.
    apply bind_ok in H as ([ex members] & s1 & _ & H).
    destruct (negb _); [done|]. unfold _dir_model in H.
    apply bind_ok in H as (w & s2 & _ & H).
    apply ret_ok in H as [-> _]. done.
  - intros H. apply bind_ok in H as ([ex blob] & s1 & _ & H).
    destruct (negb _); [done|]. destruct (_ || _).
    + unfold _notebook_model in H.
      apply bind_ok in H as (b & s2 & _ & H).
      apply ret_ok in H as [-> _]. done.
    + unfold _file_model in H.
      apply bind_ok in H as (b & s2 & _ & H).
      apply ret_ok in H as [-> _]. done.
Qed.

Lemma get_without_content_witness :
  ∃ m, (get defaults collaborators (PathStr "bucket/dir/a") false None None
          bucket_with_dir).1 = Ok m
       ∧ m_content m = CNone ∧ m_format m = None.
Proof.
  destruct (get defaults collaborators (PathStr "bucket/dir/a") false None None
              bucket_with_dir) as [[m|e] s'] eqn:H.
  - exists m. split; [done|].
    apply (get_without_content defaults collaborators (PathStr "bucket/dir/a")
             None None bucket_with_dir s' m H).
  - vm_compute in H. discriminate H.
Defined.

(** X13: asked for a directory path (no slash, or a trailing slash) with
    a type that is not [directory], [get] raises the 400 error that names
    the path, and does so without looking anything up. *)
Theorem get_directory_path_with_other_type {NB : Type} (cfg : @Config NB)
    (env : @Collaborators NB) (path type : string) (content : bool)
    (format : option string) (s : @Manager NB) :
  is_dir_path path = true →
  type ≠ "directory" →
  get cfg env (PathStr path) content (Some type) format s
  = (Raise (HTTPError 400 (strip_leading_slash path +:+ " is not a directory")),
     s).
Proof.
  unfold is_dir_path, get, get_body. intros -> Ht. cbn [orb].
  rewrite (bool_decide_eq_false_2 (Some type = None)) by done.
  rewrite (bool_decide_eq_false_2 (Some type = Some "directory")) by congruence.
  done.
Qed.

Lemma get_directory_path_with_other_type_witness :
  get defaults collaborators (PathStr "bucket/dir/") true (Some "file") None
    bucket_with_dir
  = (Raise (HTTPError 400 "bucket/dir/ is not a directory"), bucket_with_dir).
Proof.
  apply (get_directory_path_with_other_type defaults collaborators
           "bucket/dir/" "file" true None bucket_with_dir).
  - reflexivity.
  - done.
Defined.

(** ** Checkpoints *)

Lemma insert_latest_first_sorted (c : Checkpoint) (l : list Checkpoint) :
  StronglySorted (λ a b, cp_key b ≤ cp_key a) l →
  StronglySorted (λ a b, cp_key b ≤ cp_key a) (insert_latest_first c l).
Proof.
  induction 1 as [|d l Hl IH Hd]; simpl.
  - repeat constructor.
  - destruct (cp_key d <=? cp_key c) eqn:Hle.
    + apply Z.leb_le in Hle. constructor; [by constructor|].
      constructor; [done|].
      eapply Forall_impl; [exact Hd|]. simpl. intros x Hx. lia.
    + apply Z.leb_gt in Hle. constructor; [done|].
      assert (Hall : ∀ l', Forall (λ b, cp_key b ≤ cp_key d) l' →
                           Forall (λ b, cp_key b ≤ cp_key d)
                                  (insert_latest_first c l')).
      { induction l' as [|x l' IH']; simpl; intros Hf.
        - constructor; [lia|done].
        - destruct (cp_key x <=? cp_key c).
          + constructor; [lia|done].
          + inversion Hf; subst. constructor; [done|]. by apply IH'. }
      by apply Hall.
Qed.

Lemma sort_latest_first_sorted (l : list Checkpoint) :
  StronglySorted (λ a b, cp_key b ≤ cp_key a) (sort_latest_first l).
Proof.
  induction l as [|c l IH]; simpl; [constructor|].
  by apply insert_latest_first_sorted.
Qed.

Lemma insert_latest_first_perm (c : Checkpoint) (l : list Checkpoint) :
  insert_latest_first c l ≡ₚ c :: l.
Proof.
  induction l as [|d l IH]; simpl; [done|].
  destruct (_ <=? _); [done|]. rewrite IH. apply Permutation_swap.
Qed.

Lemma sort_latest_first_perm (l : list Checkpoint) : sort_latest_first l ≡ₚ l.
Proof.
  induction l as [|c l IH]; simpl; [done|].
  by rewrite insert_latest_first_perm, IH.
Qed.

(** X14: whenever [list_checkpoints] returns, the checkpoints come
    latest first: each one was modified no earlier than every one that
    follows it. *)
Theorem list_checkpoints_latest_first {NB : Type} (cfg : @Config NB)
    (path : string) (s : @Manager NB) (l : list Checkpoint) :
  (list_checkpoints cfg path s).1 = Ok l →
  StronglySorted (λ a b, cp_key b ≤ cp_key a) l.
Proof.
  intros Hl. destruct (list_checkpoints cfg path s) as [r s'] eqn:Hlist.
  simpl in Hl. subst r.
  destruct (parse_path_total (strip_leading_slash path)) as (b & k & Hp).
  destruct (checkpoint_path_parse cfg path b k Hp)
    as (cb & pre & ext & (cp & Hcp & Hparse) & _).
  destruct (list_checkpoints_spec cfg _ _ _ _ _ _ _ Hcp Hparse Hlist)
    as (_ & Hinv & _).
  destruct (Hinv l eq_refl) as (h & _ & Hobjs).
  destruct (objects_of (storage s) h).
  - subst l. apply sort_latest_first_sorted.
  - subst l. constructor.
Qed.

(** Two checkpoints of [bucket/nb.ipynb], the second written later. *)
Definition two_checkpoints : @Manager Notebook :=
  fresh {[ "bucket" :=
    Live (<[".ipynb_checkpoints/nb-11111111-1111-4111-8111-111111111111.ipynb"
              := object_at 5 "{}"]>
          (<[".ipynb_checkpoints/nb-00000000-0000-4000-8000-000000000000.ipynb"
               := object_at 7 "{}"]>
           (<["nb.ipynb" := object_at 4 "{}"]> ∅))) ]}.

Lemma list_checkpoints_latest_first_witness :
  (cp_last_modified <$>
     match (list_checkpoints defaults "bucket/nb.ipynb" two_checkpoints).1 with
     | Ok l => l
     | Raise _ => []
     end) = [Some 7; Some 5]
  ∧ ∀ l, (list_checkpoints defaults "bucket/nb.ipynb" two_checkpoints).1 = Ok l →
         StronglySorted (λ a b, cp_key b ≤ cp_key a) l.
Proof.
  split; [reflexivity|].
  intros l Hl.
  exact (list_checkpoints_latest_first defaults "bucket/nb.ipynb"
           two_checkpoints l Hl).
Defined.

Lemma app_inv_head_s (a x y : string) : a +:+ x = a +:+ y → x = y.
Proof.
  induction a as [|c a IH]; [done|]. rewrite !append_cons.
  intros [= H]. by apply IH.
Qed.

Lemma app_inv_tail_s (x y e : string) : x +:+ e = y +:+ e → x = y.
Proof.
  intros H.
  assert (Hlen : String.length x = String.length y).
  { apply (f_equal String.length) in H. rewrite !length_app in H. lia. }
  revert y H Hlen. induction x as [|c x IH]; intros [|d y] H Hlen;
    try done.
  rewrite !append_cons in H. injection H as -> H. f_equal.
  apply IH; [done|]. simpl in Hlen. lia.
Qed.

(** The last component of a key, and the key up to it. *)
Definition basename (k : string) : string :=
  PyStr.drop (Z.to_nat (PyStr.rfind PyStr.slash k + 1)) k.
Definition dirname (k : string) : string :=
  PyStr.take (Z.to_nat (PyStr.rfind PyStr.slash k + 1)) k.

(** X15: where checkpoints live.  For a path with the key [k], whose
    last component splits into [name] and [ext]: all checkpoints of the
    path are in one bucket; the key of the checkpoint [id] is the prefix
    that [list_checkpoints] scans, a dash, [id] and [ext], for every
    [id], so that two identifiers never share a key; with no checkpoint
    bucket configured the bucket is the one of the path and the prefix is
    the directory of [k], the checkpoint directory, a slash and [name];
    for every identifier drawn from [uuid4] the key is an item of the
    listing of the prefix, and the key of the path itself never is. *)
Theorem checkpoint_keys_are_listed {NB : Type} (cfg : @Config NB)
    (path b k : string) :
  _parse_path (strip_leading_slash path) = Ok (b, k) →
  let name := (PyStr.splitext (basename k)).1 in
  let ext := (PyStr.splitext (basename k)).2 in
  ∃ cb pre,
    (∃ cp, _get_checkpoint_path cfg None path = Ok cp
           ∧ _parse_path cp = Ok (cb, pre))
    ∧ (∀ id, ∃ cp,
          _get_checkpoint_path cfg (Some id) path = Ok cp
          ∧ _parse_path cp = Ok (cb, pre +:+ "-" +:+ id +:+ ext))
    ∧ (checkpoint_bucket cfg = "" →
       cb = b ∧ pre = dirname k +:+ checkpoint_dir cfg +:+ "/" +:+ name)
    ∧ (∀ id id', pre +:+ "-" +:+ id +:+ ext = pre +:+ "-" +:+ id' +:+ ext →
                 id = id')
    ∧ (∀ n, is_item pre (pre +:+ "-" +:+ uuid4_str n +:+ ext) = true)
    ∧ is_item pre k = false.
Proof.
  intros Hp name ext. unfold _get_checkpoint_path. rewrite Hp.
  set (bn := if negb (String.eqb (checkpoint_bucket cfg) "")
             then checkpoint_bucket cfg else b).
  subst name ext. unfold basename, dirname.
  set (n := Z.to_nat (PyStr.rfind PyStr.slash k + 1)).
  pose proof (no_slash_after_rfind k) as Hbase. fold n in Hbase.
  pose proof (splitext_ext_no_slash _ Hbase) as Hext.
  destruct (PyStr.splitext (PyStr.drop n k)) as [name ext] eqn:Hsp.
  cbn [fst snd] in *.
  destruct (parse_path_app bn) as (cb & X & Hpp).
  exists cb, (X +:+ PyStr.take n k +:+ checkpoint_dir cfg +:+ "/" +:+ name).
  split; [|split; [|split; [|split; [|split]]]].
  - eexists. split; [done|]. apply Hpp.
  - intros id. eexists. split; [done|]. rewrite Hpp. by rewrite !app_assoc_s.
  - intros Hnone. subst bn. rewrite Hnone in Hpp. simpl in Hpp.
    destruct (parse_path_inv _ _ _ Hp) as [Hb _].
    pose proof (Hpp "") as H0. rewrite parse_path_join in H0 by done.
    injection H0 as <- HX. split; [done|].
    destruct X; [by rewrite append_nil|]. by rewrite append_cons in HX.
  - intros id id' H. apply app_inv_head_s in H.
    rewrite !append_cons, !append_nil in H. injection H as H.
    by apply app_inv_tail_s in H.
  - intros m. apply is_item_extension.
    rewrite (contains_app _ "-"), contains_app, uuid4_str_no_slash, Hext. done.
  - rewrite <- (take_drop n k) at 2.
    replace (X +:+ PyStr.take n k +:+ checkpoint_dir cfg +:+ "/" +:+ name)
      with ((X +:+ PyStr.take n k +:+ checkpoint_dir cfg) +:+ "/" +:+ name)
      by by rewrite !app_assoc_s.
    apply is_item_false; [done|]. rewrite !length_app. lia.
Qed.

Lemma checkpoint_keys_are_listed_witness :
  _get_checkpoint_path defaults (Some (uuid4_str 0)) "bucket/dir/nb.ipynb"
  = Ok "bucket/dir/.ipynb_checkpoints/nb-00000000-0000-4000-8000-000000000000.ipynb"
  ∧ ∃ cb pre,
      (∃ cp, _get_checkpoint_path defaults None "bucket/dir/nb.ipynb" = Ok cp
             ∧ _parse_path cp = Ok (cb, pre))
      ∧ (∀ id, ∃ cp,
            _get_checkpoint_path defaults (Some id) "bucket/dir/nb.ipynb"
            = Ok cp
            ∧ _parse_path cp = Ok (cb, pre +:+ "-" +:+ id +:+ ".ipynb"))
      ∧ (checkpoint_bucket defaults = "" →
         cb = "bucket" ∧ pre = "dir/.ipynb_checkpoints/nb")
      ∧ (∀ id id',
            pre +:+ "-" +:+ id +:+ ".ipynb" = pre +:+ "-" +:+ id' +:+ ".ipynb" →
            id = id')
      ∧ (∀ n, is_item pre (pre +:+ "-" +:+ uuid4_str n +:+ ".ipynb") = true)
      ∧ is_item pre "dir/nb.ipynb" = false.
Proof.
  split; [reflexivity|].
  apply (checkpoint_keys_are_listed defaults "bucket/dir/nb.ipynb" "bucket"
           "dir/nb.ipynb").
  reflexivity.
Defined.

(** ** Files written and read back *)

Lemma rev_app_spec (b c : string) :
  String.rev_app b c = String.rev_app b "" +:+ c.
Proof.
  revert c. induction b as [|x b IH]; intros c; [done|]. simpl.
  rewrite IH, (IH (String x "")), app_assoc_s. done.
Qed.

Lemma prefix_slash_app (u c : string) :
  u ≠ "" → String.prefix "/" (u +:+ c) = String.prefix "/" u.
Proof.
  destruct u as [|y u]; [done|]. intros _.
  rewrite append_cons, !prefix_cons.
  destruct (Ascii.ascii_dec "/" y); by rewrite ?prefix_nil.
Qed.

Lemma rev_app_nonempty (b : string) : b ≠ "" → String.rev_app b "" ≠ "".
Proof.
  destruct b as [|x b]; [done|]. intros _. simpl. rewrite rev_app_spec.
  by destruct (String.rev_app b "").
Qed.

Lemma endswith_app (a b : string) :
  b ≠ "" → PyStr.endswith (a +:+ b) "/" = PyStr.endswith b "/".
Proof.
  intros Hb. unfold PyStr.endswith, String.rev.
  rewrite rev_app_app, (rev_app_spec b (String.rev_app a "")).
  change (String.rev_app "/" "") with "/".
  by apply prefix_slash_app, rev_app_nonempty.
Qed.

Lemma parse_path_slash (p bn bp : string) :
  PyStr.contains PyStr.slash p = true →
  _parse_path p = Ok (bn, bp) → p = bn +:+ "/" +:+ bp.
Proof.
  intros Hs. unfold _parse_path.
  destruct (split1_spec p) as [[Hn _]|(a & b & -> & Hp & _)]; [congruence|].
  simpl. by intros [= <- <-].
Qed.

(** The key of a file path: not empty, no trailing slash. *)
Lemma file_path_key (P bn bp : string) :
  is_dir_path P = false →
  _parse_path (strip_leading_slash P) = Ok (bn, bp) →
  strip_leading_slash P ≠ "" ∧ bp ≠ "" ∧ PyStr.endswith bp "/" = false.
Proof.
  unfold is_dir_path. intros Hd Hp.
  apply orb_false_iff in Hd as [Hs He]. apply negb_false_iff in Hs.
  pose proof (parse_path_slash _ _ _ Hs Hp) as HP.
  split; [by destruct (strip_leading_slash P)|].
  destruct (decide (bp = "")) as [->|Hne].
  - rewrite HP in He. change ("/" +:+ "") with "/" in He.
    by rewrite endswith_app_slash in He.
  - split; [done|].
    rewrite HP, <- app_assoc_s, endswith_app in He by done. done.
Qed.

Section Files.
Context {NB : Type} (cfg : @Config NB) (env : @Collaborators NB).

(** The service holds [data] under [key] in the bucket of [h]. *)
Definition holds (s : @Manager NB) (h : Bucket) (key data : string) : Prop :=
  ∃ objs o, objects_of (storage s) h = Ok objs
            ∧ objs !! key = Some o ∧ o_data o = data.

Lemma holds_steady (s s' : @Manager NB) (h : Bucket) (key data : string) :
  steady cfg s s' → holds s h key data → holds s' h key data.
Proof. unfold holds. by intros [-> _]. Qed.

Lemma upload_holds (blob : Blob) (data ct : string) (s s' : @Manager NB) b' :
  blob_upload_from_string blob data ct s = (Ok b', s') →
  holds s' (blob_bucket blob) (blob_name blob) data.
Proof.
  unfold blob_upload_from_string, bind, gets, lift, modify, ret.
  destruct (objects_of (storage s) (blob_bucket blob)) as [objs|e] eqn:Ho;
    [|done].
  intros [= _ <-]. eexists _, _. split; [|split].
  - simpl. rewrite (objects_of_put _ _ _ _ _ _ Ho). by rewrite decide_True.
  - apply lookup_insert_eq.
  - done.
Qed.

Lemma save_file_text_holds (path bn bp text : string) (s s' : @Manager NB) b :
  _parse_path path = Ok (bn, bp) →
  _save_file cfg env path (CText text) (Some "text") s = (Ok b, s') →
  ∃ h, view cfg s' bn = Ok h ∧ holds s' h bp text.
Proof.
  intros Hp H.
  destruct (save_file_ok cfg env _ _ _ _ _ _ _ _ Hp H) as (h0 & Hv0 & Hup).
  unfold _save_file in H. rewrite Hp in H.
  apply bind_ok in H as ([bn' bp'] & s0 & H0 & H).
  apply lift_ok in H0 as [[= <- <-] ->].
  apply bind_ok in H as (ob & s1 & Hb & H).
  simpl in H.
  apply bind_ok in H as (bcontent & s2 & Hd & H).
  unfold try_except, lift in Hd. simpl in Hd. injection Hd as <- <-.
  apply bind_ok in H as (h & s3 & Hn & H).
  apply need_bucket_ok in Hn as [-> ->].
  apply get_bucket_view in Hb. rewrite Hv0 in Hb. injection Hb as <-.
  exists h0. split.
  - destruct Hup as (? & ? & _ & _ & ->). done.
  - by apply upload_holds in H.
Qed.

(** What [_fetch] and [get] make of a file path whose bucket resolves. *)
Lemma fetch_file_forward (P bn bp : string) (h : Bucket) (s : @Manager NB) :
  P ≠ "" → _parse_path P = Ok (bn, bp) →
  bp ≠ "" → PyStr.endswith bp "/" = false →
  view cfg s bn = Ok h →
  ∃ s', steady cfg s s'
        ∧ _fetch cfg P true s
          = (match objects_of (storage s) h with
             | Ok objs =>
                 match objs !! bp with
                 | Some o => Ok (VBool true, PBlob (loaded_blob h bp o))
                 | None => Ok (VBool false, PNone)
                 end
             | Raise e => if is_NotFound e then Ok (VBool false, PNone)
                          else Raise e
             end, s').
Proof.
  intros Hne Hp Hk Hend Hv.
  pose proof (view_get_bucket cfg _ false _ _ Hv) as Hg.
  destruct (_get_bucket cfg bn false s) as [r s1] eqn:Hget.
  simpl in Hg. subst r.
  pose proof (get_bucket_steady _ _ _ _ _ _ Hget) as Hst.
  exists s1. split; [done|].
  unfold _fetch. destruct (decide (P = "")) as [?|_]; [done|].
  unfold parse_or_return. rewrite Hp. unfold try_else. rewrite Hget.
  rewrite (bool_decide_eq_false_2 (bp = "")) by done. rewrite Hend.
  cbn [orb negb].
  unfold bind, bucket_get_blob, try_except, bind, gets, lift, ret.
  destruct Hst as [-> _].
  destruct (objects_of (storage s) h) as [objs|e].
  - by destruct (objs !! bp).
  - by destruct (is_NotFound e).
Qed.

End Files.

(** X16: a text file comes back as it was saved.  When [save] of a file
    model with format [text] returns, for a normalised file path (no
    leading slash, a slash in it, no trailing one), well-formed text and
    a pre-save hook that leaves the model alone, a [get] of that path as
    a file with format [text] returns a model whose content is the saved
    text. *)
Theorem text_file_round_trip {NB : Type} (cfg : @Config NB)
    (env : @Collaborators NB) (model : @ModelDict NB) (P text : string)
    (s s1 : @Manager NB) (m : @Model NB) :
  PyStr.startswith P "/" = false →
  is_dir_path P = false →
  d_type model = Some "file" →
  d_content model = Some (CText text) →
  d_format model = Some "text" →
  Codec.utf8_valid text = true →
  run_pre_save_hook env model P = Ok model →
  save cfg env model P s = (Ok m, s1) →
  ∃ m' s2,
    get cfg env (PathStr P) true (Some "file") (Some "text") s1 = (Ok m', s2)
    ∧ m_content m' = CText text
    ∧ m_format m' = Some "text"
    ∧ m_type m' = Some "file".
Proof.
  intros Hnorm Hfile Htype Hcontent Hformat Hvalid Hhook Hsave.
  assert (HP : strip_leading_slash P = P).
  { unfold strip_leading_slash. by rewrite Hnorm. }
  destruct (parse_path_total P) as (bn & bp & Hp).
  destruct (file_path_key P bn bp Hfile) as (Hne & Hk & Hend);
    [by rewrite HP|]. rewrite HP in Hne.
  (* the save *)
  unfold save in Hsave. rewrite HP, Htype in Hsave.
  rewrite (bool_decide_eq_false_2 (Some "file" = None)) in Hsave by done.
  rewrite (bool_decide_eq_false_2 (Some "file" = Some "directory"))
    in Hsave by done.
  destruct (bool_decide (d_content model = None) && negb false); [done|].
  apply bind_ok in Hsave as ([b' k'] & s0 & Hp' & Hsave).
  apply lift_ok in Hp' as [Hp' ->]. rewrite Hp in Hp'. injection Hp' as <- <-.
  rewrite (bool_decide_eq_false_2 (bp = "")) in Hsave by done.
  cbn [andb negb] in Hsave.
  unfold save_path in Hsave. rewrite Htype in Hsave.
  rewrite (bool_decide_eq_false_2 (Some "file" = Some "directory"))
    in Hsave by done.
  rewrite andb_false_r in Hsave.
  apply bind_ok in Hsave as (model' & s0 & Hh & Hsave).
  apply lift_ok in Hh as [Hh ->]. rewrite Hhook in Hh. injection Hh as <-.
  apply bind_ok in Hsave as ([] & s2 & Hdispatch & Hsave).
  apply try_except_ok in Hdispatch as [Hdispatch|(e & s3 & _ & _ & Hhandler)].
  2:{ apply bind_ok in Hhandler as (? & ? & _ & ?). done. }
  unfold save_dispatch in Hdispatch.
  apply bind_ok in Hdispatch as (type & s3 & Ht & Hdispatch).
  unfold dict_type in Ht. rewrite Htype in Ht. apply ret_ok in Ht as [-> ->].
  simpl in Hdispatch.
  apply bind_ok in Hdispatch as (content & s3 & Hc & Hdispatch).
  unfold dict_content in Hc. rewrite Hcontent in Hc.
  apply ret_ok in Hc as [-> ->].
  apply bind_ok in Hdispatch as (blob & s3 & Hfile' & Hdispatch).
  apply ret_ok in Hdispatch as [_ ->]. rewrite Hformat in Hfile'.
  destruct (save_file_text_holds cfg env _ _ _ _ _ _ _ Hp Hfile')
    as (h & Hv & Hholds).
  apply save_finish_steady in Hsave; [|done].
  (* the get *)
  pose proof (holds_steady cfg _ _ _ _ _ Hsave Hholds)
    as (objs & o & Ho & Hlook & Hdata).
  destruct Hsave as [_ Hvs]. rewrite <- Hvs in Hv.
  destruct (fetch_file_forward cfg P bn bp h s1 Hne Hp Hk Hend Hv)
    as (s' & [Hst' _] & Hfetch).
  rewrite Ho, Hlook in Hfetch.
  unfold get, get_body. rewrite HP.
  unfold is_dir_path in Hfile. rewrite HP in Hfile. rewrite Hfile.
  rewrite (bool_decide_eq_false_2 (Some "file" = Some "directory")) by done.
  cbn [orb]. unfold bind at 1. rewrite Hfetch. simpl.
  unfold _file_model, bind at 1, as_blob, ret at 1.
  unfold bind at 1, _read_file, bind at 1, blob_download_as_string, bind at 1,
    gets at 1.
  unfold bind at 1, lift at 1. cbn [blob_bucket blob_name loaded_blob].
  rewrite Hst', Ho, Hlook. unfold ret at 1.
  simpl. unfold bind at 1, try_except, bind at 1, lift at 1.
  unfold Codec.decode_utf8. rewrite Hdata, Hvalid.
  eexists _, _. split; [reflexivity|].
  by destruct (bool_decide _).
Qed.

Lemma text_file_round_trip_witness :
  ∃ m' s2,
    get defaults collaborators (PathStr "bucket/hello.txt") true (Some "file")
      (Some "text")
      (save defaults collaborators (file_model "text" "hello")
            "bucket/hello.txt" empty_bucket).2 = (Ok m', s2)
    ∧ m_content m' = CText "hello"
    ∧ m_format m' = Some "text"
    ∧ m_type m' = Some "file".
Proof.
  destruct (save defaults collaborators (file_model "text" "hello")
                 "bucket/hello.txt" empty_bucket) as [[m|e] s1] eqn:Hsave.
  - apply (text_file_round_trip defaults collaborators
             (file_model "text" "hello") "bucket/hello.txt" "hello"
             empty_bucket s1 m); try reflexivity.
    exact Hsave.
  - vm_compute in Hsave. discriminate Hsave.
Defined.

(** ** Files that are not there *)

Section Missing.
Context {NB : Type} (cfg : @Config NB) (env : @Collaborators NB).

(** Nothing is stored under [bp] in the bucket [bn]: the service does not
    know the bucket, or the bucket has no object of that key. *)
Definition file_missing (s : @Manager NB) (bn bp : string) : Prop :=
  match view cfg s bn with
  | Ok h =>
      match objects_of (storage s) h with
      | Ok objs => objs !! bp = None
      | Raise e => e = NotFound
      end
  | Raise e => e = NotFound
  end.

Lemma fetch_file_missing (P bn bp : string) (s : @Manager NB) :
  P ≠ "" → _parse_path P = Ok (bn, bp) →
  bp ≠ "" → PyStr.endswith bp "/" = false →
  file_missing s bn bp →
  (_fetch cfg P true s).1 = Ok (VBool false, PNone).
Proof.
  intros Hne Hp Hk Hend Hm. unfold file_missing in Hm.
  destruct (view cfg s bn) as [h|e] eqn:Hv.
  - destruct (fetch_file_forward cfg P bn bp h s Hne Hp Hk Hend Hv)
      as (s' & _ & ->). simpl.
    destruct (objects_of (storage s) h) as [objs|e]; [by rewrite Hm|].
    by subst e.
  - subst e. pose proof (get_bucket_view_raise cfg bn false s _ Hv) as Hg.
    unfold _fetch. destruct (decide (P = "")) as [?|_]; [done|].
    unfold parse_or_return. rewrite Hp. unfold try_else.
    destruct (_get_bucket cfg bn false s) as [r s1]. simpl in Hg. subst r.
    by destruct (cache_buckets cfg).
Qed.

End Missing.

(** X17: a file that is not there is a 404.  For a file path (a slash in
    it, none at the end) and any type but [directory], when the bucket is
    unknown to the service or holds nothing under the key, [get] raises
    the 404 error that names the path, whatever [content] and [format]
    are. *)
Theorem get_missing_file_is_404 {NB : Type} (cfg : @Config NB)
    (env : @Collaborators NB) (P bn bp : string) (content : bool)
    (type format : option string) (s : @Manager NB) :
  PyStr.startswith P "/" = false →
  is_dir_path P = false →
  type ≠ Some "directory" →
  _parse_path P = Ok (bn, bp) →
  file_missing cfg s bn bp →
  (get cfg env (PathStr P) content type format s).1
  = Raise (HTTPError 404 ("No such file: " +:+ P)).
Proof.
  intros Hnorm Hfile Htype Hp Hm.
  assert (HP : strip_leading_slash P = P).
  { unfold strip_leading_slash. by rewrite Hnorm. }
  destruct (file_path_key P bn bp Hfile) as (Hne & Hk & Hend);
    [by rewrite HP|]. rewrite HP in Hne.
  pose proof (fetch_file_missing cfg P bn bp s Hne Hp Hk Hend Hm) as Hf.
  unfold get, get_body. rewrite HP.
  unfold is_dir_path in Hfile. rewrite HP in Hfile. rewrite Hfile.
  rewrite (bool_decide_eq_false_2 (type = Some "directory")) by done.
  cbn [orb]. unfold bind at 1.
  destruct (_fetch cfg P true s) as [r s1]. simpl in Hf. subst r. done.
Qed.

Lemma get_missing_file_is_404_witness :
  (get defaults collaborators (PathStr "bucket/none.txt") false None None
     empty_bucket).1
  = Raise (HTTPError 404 "No such file: bucket/none.txt")
  ∧ (get defaults collaborators (PathStr "nowhere/none.txt") true
       (Some "file") (Some "text") empty_bucket).1
    = Raise (HTTPError 404 "No such file: nowhere/none.txt").
Proof.
  split.
  - apply (get_missing_file_is_404 defaults collaborators "bucket/none.txt"
             "bucket" "none.txt" false None None empty_bucket);
      [reflexivity|reflexivity|done|reflexivity|vm_compute; reflexivity].
  - apply (get_missing_file_is_404 defaults collaborators "nowhere/none.txt"
             "nowhere" "none.txt" true (Some "file") (Some "text")
             empty_bucket);
      [reflexivity|reflexivity|done|reflexivity|vm_compute; reflexivity].
Defined.

(** ** Deleting a bucket *)

Section DeleteRoot.
Context {NB : Type} (cfg : @Config NB).

(** [delete_file] of a bucket name, up to what [bucket.delete()] and the
    [del] that follows make of the state. *)
Lemma delete_file_rec_root (fuel : nat) (bn : string) (h : Bucket)
    (s s1 : @Manager NB) :
  PyStr.startswith bn "/" = false →
  PyStr.contains PyStr.slash bn = false →
  _get_bucket cfg bn true s = (Ok (Some h), s1) →
  delete_file_rec cfg (S fuel) bn s
  = bind (bucket_delete h) (λ _, del_bucket_cache bn) s1.
Proof.
  intros Hnorm Hslash Hget.
  cbn [delete_file_rec]. unfold strip_leading_slash. rewrite Hnorm.
  unfold bind at 1, lift at 1. rewrite (parse_path_no_slash bn Hslash).
  unfold bind at 1. rewrite Hget. unfold bind at 1, need_bucket, ret at 1.
  by rewrite decide_True.
Qed.

Lemma delete_file_root (bn : string) (h : Bucket) (s s1 : @Manager NB) :
  PyStr.startswith bn "/" = false →
  PyStr.contains PyStr.slash bn = false →
  _get_bucket cfg bn true s = (Ok (Some h), s1) →
  delete_file cfg bn s
  = bind (bucket_delete h) (λ _, del_bucket_cache bn) s1.
Proof. unfold delete_file, recursion_limit. apply delete_file_rec_root. Qed.

End DeleteRoot.

Definition without_cache : @Config Notebook :=
  {| checkpoint_dir := ".ipynb_checkpoints";
     checkpoint_bucket := "";
     max_list_size := 1024;
     cache_buckets := false;
     post_save_hook := None |}.

(** X18: with the bucket cache switched off, deleting an empty bucket
    through [delete_file] removes the bucket from the service and then
    raises [AttributeError], since the [del] that follows works on a
    cache that was never made. *)
Theorem delete_bucket_without_cache {NB : Type} (cfg : @Config NB)
    (bn : string) (s : @Manager NB) :
  cache_buckets cfg = false →
  _bucket_cache s = None →
  bn ≠ "" →
  PyStr.startswith bn "/" = false →
  PyStr.contains PyStr.slash bn = false →
  st_buckets (storage s) !! bn = Some (Live ∅) →
  ∃ msg s',
    delete_file cfg bn s = (Raise (AttributeError msg), s')
    ∧ st_buckets (storage s') = delete bn (st_buckets (storage s)).
Proof.
  intros Hoff Hnone Hne Hnorm Hslash Hlive.
  assert (Hget : _get_bucket cfg bn true s = (Ok (Some (mkBucket bn)), s)).
  { rewrite get_bucket_eq, Hoff. unfold asked.
    rewrite decide_False by done. by rewrite Hlive. }
  rewrite (delete_file_root cfg bn _ s s Hnorm Hslash Hget).
  unfold bind at 1, bucket_delete, bind at 1, gets at 1, bind at 1, lift at 1.
  unfold objects_of. cbn [bucket_name]. rewrite Hlive. cbn [entry_objects].
  rewrite decide_True by done. unfold modify at 1.
  unfold del_bucket_cache, bind at 1, gets at 1. cbn [_bucket_cache set_storage].
  rewrite Hnone. eexists _, _. split; [reflexivity|]. done.
Qed.

Lemma delete_bucket_without_cache_witness :
  ∃ msg s',
    delete_file without_cache "bucket" empty_bucket
    = (Raise (AttributeError msg), s')
    ∧ st_buckets (storage s') = delete "bucket" (st_buckets (storage empty_bucket)).
Proof.
  apply (delete_bucket_without_cache without_cache "bucket" empty_bucket);
    try reflexivity. done.
Defined.

(** X19: with the bucket cache on, deleting an empty bucket through
    [delete_file] succeeds; the bucket is gone from the service and its
    name from the cache, so the next lookup does not find it (and for
    the empty name, which only a cache entry can have resolved, the
    library refuses the lookup). *)
Theorem delete_bucket_with_cache {NB : Type} (cfg : @Config NB)
    (bn : string) (s : @Manager NB) :
  cache_buckets cfg = true →
  view cfg s bn = Ok (mkBucket bn) →
  PyStr.startswith bn "/" = false →
  PyStr.contains PyStr.slash bn = false →
  st_buckets (storage s) !! bn = Some (Live ∅) →
  ∃ s',
    delete_file cfg bn s = (Ok tt, s')
    ∧ st_buckets (storage s') = delete bn (st_buckets (storage s))
    ∧ view cfg s' bn
      = Raise (if decide (bn = "") then no_bucket_name else NotFound).
Proof.
  intros Hon Hview Hnorm Hslash Hlive.
  pose proof (view_get_bucket cfg bn true s _ Hview) as Hg.
  destruct (_get_bucket cfg bn true s) as [r s1] eqn:Hget.
  simpl in Hg. subst r.
  assert (Hin : ∃ c, _bucket_cache s1 = Some c ∧ is_Some (c !! bn)).
  { revert Hget. rewrite get_bucket_eq, Hon.
    destruct (default ∅ (_bucket_cache s) !! bn) as [h'|] eqn:Hn.
    - intros [= _ <-]. destruct (_bucket_cache s) as [c|]; [|done].
      exists c. simpl in Hn. by rewrite Hn.
    - destruct (asked s bn) as [h'|e].
      + intros [= _ <-]. eexists. simpl. split; [done|].
        by rewrite lookup_insert_eq.
      + by destruct (is_BadRequest_or_NotFound e). }
  destruct Hin as (c & Hc & [h' Hh']).
  destruct (get_bucket_steady cfg _ _ _ _ _ Hget) as [Hst _].
  rewrite (delete_file_root cfg bn _ s s1 Hnorm Hslash Hget).
  unfold bind at 1, bucket_delete, bind at 1, gets at 1, bind at 1, lift at 1.
  unfold objects_of. cbn [bucket_name]. rewrite Hst, Hlive.
  cbn [entry_objects]. rewrite decide_True by done. unfold modify at 1.
  unfold del_bucket_cache, bind at 1, gets at 1.
  cbn [_bucket_cache set_storage]. rewrite Hc, Hh'. unfold modify.
  eexists. split; [reflexivity|]. split; [done|].
  unfold view. rewrite Hon. cbn [_bucket_cache set_bucket_cache storage
    st_buckets default].
  unfold id. rewrite lookup_delete_eq. unfold asked.
  destruct (decide (bn = "")); [done|]. simpl. by rewrite lookup_delete_eq.
Qed.

Lemma delete_bucket_with_cache_witness :
  ∃ s',
    delete_file defaults "bucket" empty_bucket = (Ok tt, s')
    ∧ st_buckets (storage s') = delete "bucket" (st_buckets (storage empty_bucket))
    ∧ view defaults s' "bucket" = Raise NotFound.
Proof.
  apply (delete_bucket_with_cache defaults "bucket" empty_bucket);
    reflexivity.
Defined.

(** X20: [delete_file] of a bucket that still holds objects deletes
    nothing: the path of a bucket is handed to [bucket.delete()] as it is,
    the service refuses, and the objects and the bucket stay. *)
Theorem delete_bucket_with_objects {NB : Type} (cfg : @Config NB)
    (bn : string) (objs : gmap string Object) (s : @Manager NB) :
  view cfg s bn = Ok (mkBucket bn) →
  PyStr.startswith bn "/" = false →
  PyStr.contains PyStr.slash bn = false →
  st_buckets (storage s) !! bn = Some (Live objs) →
  objs ≠ ∅ →
  (delete_file cfg bn s).1 = Raise Conflict
  ∧ storage (delete_file cfg bn s).2 = storage s.
Proof.
  intros Hview Hnorm Hslash Hlive Hne.
  pose proof (view_get_bucket cfg bn true s _ Hview) as Hg.
  destruct (_get_bucket cfg bn true s) as [r s1] eqn:Hget.
  simpl in Hg. subst r.
  destruct (get_bucket_steady cfg _ _ _ _ _ Hget) as [Hst _].
  assert (Hdel : delete_file cfg bn s = (Raise Conflict, s1)).
  { rewrite (delete_file_root cfg bn _ s s1 Hnorm Hslash Hget).
    unfold bind at 1, bucket_delete, bind at 1, gets at 1, bind at 1,
      lift at 1.
    unfold objects_of. cbn [bucket_name]. rewrite Hst, Hlive.
    cbn [entry_objects]. by rewrite decide_False by done. }
  by rewrite Hdel.
Qed.

Lemma delete_bucket_with_objects_witness :
  (delete_file defaults "bucket" bucket_with_dir).1 = Raise Conflict
  ∧ storage (delete_file defaults "bucket" bucket_with_dir).2
    = storage bucket_with_dir.
Proof.
  apply (delete_bucket_with_objects defaults "bucket"
           (<["dir/" := object_at 1 ""]>
              (<["dir/a" := object_at 2 "A"]>
                 (<["dir/b" := object_at 3 "B"]> ∅)))
           bucket_with_dir); try reflexivity.
  intros H. apply (f_equal (λ m : gmap string Object, m !! "dir/")) in H.
  vm_compute in H. discriminate H.
Defined.

(** ** Creating a directory *)

(** A relation between the state before and the state after that every
    step of an operation keeps. *)
Definition preserves {S A : Type} (R : S → S → Prop) (m : M S A) : Prop :=
  ∀ s r s', m s = (r, s') → R s s'.

Section Preserves.
Context {S : Type} (R : S → S → Prop).
Hypothesis R_refl : ∀ s, R s s.
Hypothesis R_trans : ∀ s1 s2 s3, R s1 s2 → R s2 s3 → R s1 s3.

Lemma preserves_readonly {A} (m : M S A) : readonly m → preserves R m.
Proof. intros H s r s' Hm. rewrite (H _ _ _ Hm). apply R_refl. Qed.

Lemma preserves_bind {A B} (m : M S A) (k : A → M S B) :
  preserves R m → (∀ a, preserves R (k a)) → preserves R (bind m k).
Proof.
  intros Hm Hk s r s'. unfold bind.
  destruct (m s) as [[a|e] s1] eqn:Hms.
  - intros H. apply Hk in H. apply Hm in Hms. eauto.
  - intros [= _ <-]. by apply Hm in Hms.
Qed.

Lemma preserves_try_except {A} (m : M S A) (handles : exn → bool)
    (h : exn → M S A) :
  preserves R m → (∀ e, preserves R (h e)) →
  preserves R (try_except m handles h).
Proof.
  intros Hm Hh s r s'. unfold try_except.
  destruct (m s) as [[a|e] s1] eqn:Hms.
  - intros [= _ <-]. by apply Hm in Hms.
  - destruct (handles e).
    + intros H. apply Hh in H. apply Hm in Hms. eauto.
    + intros [= _ <-]. by apply Hm in Hms.
Qed.

Lemma preserves_try_else {A B} (m : M S A) (handles : exn → bool)
    (h : exn → M S B) (k : A → M S B) :
  preserves R m → (∀ e, preserves R (h e)) → (∀ a, preserves R (k a)) →
  preserves R (try_else m handles h k).
Proof.
  intros Hm Hh Hk s r s'. unfold try_else.
  destruct (m s) as [[a|e] s1] eqn:Hms.
  - intros H. apply Hk in H. apply Hm in Hms. eauto.
  - destruct (handles e).
    + intros H. apply Hh in H. apply Hm in Hms. eauto.
    + intros [= _ <-]. by apply Hm in Hms.
Qed.

End Preserves.

Section Directories.
Context {NB : Type} (cfg : @Config NB) (env : @Collaborators NB).

(** The storage is the same, and a lookup that comes to a handle came to
    it before or has just asked the service. *)
Definition settles (s s' : @Manager NB) : Prop :=
  storage s' = storage s
  ∧ ∀ n h, view cfg s' n = Ok h → view cfg s n = Ok h ∨ h = mkBucket n.

Lemma settles_refl s : settles s s.
Proof. split; auto. Qed.

Lemma settles_trans s1 s2 s3 : settles s1 s2 → settles s2 s3 → settles s1 s3.
Proof.
  intros [H1 V1] [H2 V2]. split; [congruence|].
  intros n h Hv. destruct (V2 n h Hv) as [Hv'|]; auto.
Qed.

Lemma steady_settles s s' : steady cfg s s' → settles s s'.
Proof. intros [H V]. split; [done|]. intros n h. rewrite V. auto. Qed.

Lemma settles_get_bucket (n : string) (t : bool) :
  preserves settles (_get_bucket cfg n t).
Proof.
  intros s r s' H. apply steady_settles. by apply get_bucket_steady in H.
Qed.

Lemma settles_del_bucket_cache (k : string) :
  preserves settles (@del_bucket_cache NB k).
Proof.
  unfold del_bucket_cache. intros s r s'. unfold bind, gets.
  destruct (_bucket_cache s) as [c|] eqn:Hc;
    [|intros [= _ <-]; apply settles_refl].
  destruct (c !! k) eqn:Hk; [|intros [= _ <-]; apply settles_refl].
  unfold modify. intros [= _ <-]. split; [done|].
  intros n h. unfold view. cbn [_bucket_cache set_bucket_cache storage].
  rewrite Hc. cbn [default]. destruct (cache_buckets cfg); [|auto].
  unfold id. destruct (decide (k = n)) as [->|Hne].
  - rewrite lookup_delete_eq. intros Ha. right. by apply asked_ok in Ha.
  - rewrite lookup_delete_ne by done. auto.
Qed.

#[local] Hint Resolve readonly_ret readonly_raise readonly_lift readonly_gets
  readonly_blob_exists readonly_bucket_get_blob readonly_bucket_list_blobs
  readonly_client_list_buckets readonly_blob_download_as_string
  readonly_as_blob : readonly.

Ltac quiet :=
  solve [apply (preserves_readonly settles settles_refl);
         auto 10 with readonly].

Lemma settles_fetch (path : string) (content : bool) :
  preserves settles (_fetch cfg path content).
Proof.
  pose proof settles_refl as Hr. pose proof settles_trans as Ht.
  unfold _fetch. destruct (decide _); [quiet|].
  unfold parse_or_return. destruct (_parse_path path) as [[bn bp]|e].
  2:{ destruct e; quiet. }
  apply preserves_try_else; [done|apply settles_get_bucket|intros; quiet|].
  intros [h|]; [|quiet].
  destruct (_ || _).
  - apply preserves_bind; [done|destruct (decide _); quiet|]. intros marker.
    destruct (_ && _); [quiet|].
    apply preserves_try_else; [done|quiet| |intros; quiet].
    intros e. apply preserves_bind; [done|apply settles_del_bucket_cache|].
    intros; quiet.
  - destruct (negb content); quiet.
Qed.

Lemma upload_object (blob : Blob) (data ct : string) (s s' : @Manager NB) b' :
  blob_upload_from_string blob data ct s = (Ok b', s') →
  ∃ objs o, objects_of (storage s') (blob_bucket blob) = Ok objs
            ∧ objs !! blob_name blob = Some o
            ∧ o_data o = data ∧ o_content_type o = Some ct.
Proof.
  unfold blob_upload_from_string, bind, gets, lift, modify, ret.
  destruct (objects_of (storage s) (blob_bucket blob)) as [objs|e] eqn:Ho;
    [|done].
  intros [= _ <-]. eexists _, _. split; [|split; [|split]].
  - simpl. rewrite (objects_of_put _ _ _ _ _ _ Ho). by rewrite decide_True.
  - apply lookup_insert_eq.
  - done.
  - done.
Qed.

Lemma keeps_save_finish (model : @ModelDict NB) (path : string) :
  keeps_storage (save_finish cfg env model path).
Proof.
  unfold save_finish.
  apply keeps_bind.
  { unfold dict_type. destruct (d_type model);
      apply keeps_readonly; auto with readonly. }
  intros type. apply keeps_bind.
  { destruct (String.eqb _ _); [|apply keeps_readonly; auto with readonly].
    apply keeps_bind; [|intros; apply keeps_readonly; auto with readonly].
    unfold dict_content. destruct (d_content model);
      apply keeps_readonly; auto with readonly. }
  intros msg. apply keeps_bind; [apply keeps_get|]. intros m.
  apply keeps_bind; [|intros; apply keeps_readonly; auto with readonly].
  intros s r s' H. by apply run_post_save_hook_steady in H as [? _].
Qed.

(** What [_save_directory] writes for a path below a bucket that
    [_fetch] does not find. *)
Lemma save_directory_writes (path bn key : string) (model : @ModelDict NB)
    (s s' : @Manager NB) :
  _parse_path path = Ok (bn, key) → key ≠ "" →
  view cfg s bn = Ok (mkBucket bn) →
  fetch_exists cfg path s = Ok false →
  _save_directory cfg path model s = (Ok tt, s') →
  ∃ objs o, objects_of (storage s') (mkBucket bn) = Ok objs
            ∧ objs !! (key +:+ "/") = Some o
            ∧ o_data o = "" ∧ o_content_type o = Some "application/x-directory".
Proof.
  intros Hp Hk Hv Hex H. unfold _save_directory in H.
  apply bind_ok in H as ([ex obj] & s1 & Hf & H).
  unfold fetch_exists in Hex. rewrite Hf in Hex. simpl in Hex.
  injection Hex as Hex. rewrite Hex in H.
  apply bind_ok in H as ([bn' key'] & s0 & H0 & H).
  apply lift_ok in H0 as [H0 ->]. rewrite Hp in H0. injection H0 as <- <-.
  rewrite decide_False in H by done.
  apply bind_ok in H as (ob & s2 & Hb & H).
  apply bind_ok in H as (h & s3 & Hn & H).
  apply need_bucket_ok in Hn as [-> ->].
  apply bind_ok in H as (b' & s3 & Hup & H).
  apply ret_ok in H as [_ ->].
  apply get_bucket_view in Hb.
  destruct (settles_fetch _ _ _ _ _ Hf) as [_ Hvs].
  assert (h = mkBucket bn) as ->.
  { destruct (Hvs bn h Hb) as [Hv'|]; [congruence|done]. }
  by apply upload_object in Hup.
Qed.

End Directories.

(** X21: the key of a new directory.  When [save] of a directory model
    returns for a path below a bucket, [bucket/dir], that [_fetch] did
    not find, the object it has written is the empty object of type
    [application/x-directory] under the key [dir//]: [save] has added one
    slash to the path and [_save_directory] another to the key. *)
Theorem save_directory_marker_key {NB : Type} (cfg : @Config NB)
    (env : @Collaborators NB) (model : @ModelDict NB) (P bn bp : string)
    (s s1 : @Manager NB) (m : @Model NB) :
  PyStr.startswith P "/" = false →
  _parse_path P = Ok (bn, bp) →
  bp ≠ "" →
  d_type model = Some "directory" →
  run_pre_save_hook env model (P +:+ "/") = Ok model →
  view cfg s bn = Ok (mkBucket bn) →
  fetch_exists cfg (P +:+ "/") s = Ok false →
  save cfg env model P s = (Ok m, s1) →
  ∃ objs o,
    objects_of (storage s1) (mkBucket bn) = Ok objs
    ∧ objs !! (bp +:+ "//") = Some o
    ∧ o_data o = ""
    ∧ o_content_type o = Some "application/x-directory".
Proof.
  intros Hnorm Hp Hk Htype Hhook Hview Hex Hsave.
  assert (HP : strip_leading_slash P = P).
  { unfold strip_leading_slash. by rewrite Hnorm. }
  destruct (parse_path_inv _ _ _ Hp) as [Hbn [[_ ->]|HPeq]]; [done|].
  assert (Hp' : _parse_path (P +:+ "/") = Ok (bn, bp +:+ "/")).
  { rewrite HPeq, !app_assoc_s. by apply parse_path_join. }
  unfold save in Hsave. rewrite HP, Htype in Hsave.
  rewrite (bool_decide_eq_false_2 (Some "directory" = None)) in Hsave by done.
  rewrite (bool_decide_eq_true_2 (Some "directory" = Some "directory"))
    in Hsave by done.
  rewrite andb_false_r in Hsave.
  apply bind_ok in Hsave as ([b' k'] & s0 & Hp0 & Hsave).
  apply lift_ok in Hp0 as [Hp0 ->]. rewrite Hp in Hp0. injection Hp0 as <- <-.
  rewrite andb_false_r in Hsave.
  unfold save_path in Hsave. rewrite Htype in Hsave.
  rewrite (bool_decide_eq_false_2 (bp = "")) in Hsave by done.
  rewrite (bool_decide_eq_true_2 (Some "directory" = Some "directory"))
    in Hsave by done.
  cbn [andb negb] in Hsave.
  apply bind_ok in Hsave as (model' & s0 & Hh & Hsave).
  apply lift_ok in Hh as [Hh ->]. rewrite Hhook in Hh. injection Hh as <-.
  apply bind_ok in Hsave as ([] & s2 & Hdispatch & Hsave).
  apply try_except_ok in Hdispatch as [Hdispatch|(e & s3 & _ & _ & Hhandler)].
  2:{ apply bind_ok in Hhandler as (? & ? & _ & ?). done. }
  unfold save_dispatch in Hdispatch.
  apply bind_ok in Hdispatch as (type & s3 & Ht & Hdispatch).
  unfold dict_type in Ht. rewrite Htype in Ht. apply ret_ok in Ht as [-> ->].
  simpl in Hdispatch.
  destruct (save_directory_writes cfg _ _ _ _ _ _ Hp' ltac:(by destruct bp)
              Hview Hex Hdispatch) as (objs & o & Ho & Hlook & Hd & Hct).
  apply keeps_save_finish in Hsave.
  exists objs, o. rewrite Hsave, Ho.
  replace (bp +:+ "//") with ((bp +:+ "/") +:+ "/")
    by by rewrite app_assoc_s.
  done.
Qed.

Definition directory_model : @ModelDict Notebook :=
  {| d_type := Some "directory";
     d_content := None;
     d_format := None;
     d_message := None |}.

Lemma save_directory_marker_key_witness :
  ∃ objs o,
    objects_of (storage (save defaults collaborators directory_model
                           "bucket/new" empty_bucket).2)
               (mkBucket "bucket") = Ok objs
    ∧ objs !! "new//" = Some o
    ∧ o_data o = ""
    ∧ o_content_type o = Some "application/x-directory".
Proof.
  destruct (save defaults collaborators directory_model "bucket/new"
              empty_bucket) as [[m|e] s1] eqn:Hsave.
  - apply (save_directory_marker_key defaults collaborators directory_model
             "bucket/new" "bucket" "new" empty_bucket s1 m);
      try reflexivity; [done|exact Hsave].
  - vm_compute in Hsave. discriminate Hsave.
Defined.

(** ** From a blob back to its path *)
















(** ** Checkpoints of files *)

Lemma no_slash_endswith (y : string) :
  PyStr.contains PyStr.slash y = false → PyStr.endswith y "/" = false.
Proof.
  induction y as [|x y IH]; [done|]. intros Hn. simpl in Hn.
  destruct (Ascii.eqb x PyStr.slash) eqn:Hx; [done|].
  destruct y as [|z y].
  - unfold PyStr.endswith, String.rev. cbn [String.rev_app].
    rewrite prefix_cons.
    destruct (Ascii.ascii_dec "/" x) as [<-|]; [|done].
    by rewrite Ascii.eqb_refl in Hx.
  - change (String x (String z y)) with (String x "" +:+ String z y).
    rewrite endswith_app by done. by apply IH.
Qed.

Section FileCheckpoints.
Context {NB : Type} (cfg : @Config NB) (env : @Collaborators NB).

(** The key of a checkpoint names a blob: it is not empty and does not
    end in a slash. *)
Lemma checkpoint_key_is_file (pre ext : string) (n : nat) :
  PyStr.contains PyStr.slash ext = false →
  pre +:+ "-" +:+ uuid4_str n +:+ ext ≠ ""
  ∧ PyStr.endswith (pre +:+ "-" +:+ uuid4_str n +:+ ext) "/" = false.
Proof.
  intros Hext. split.
  - destruct pre; [|done]. rewrite append_nil. done.
  - rewrite endswith_app by done. apply no_slash_endswith.
    rewrite append_cons, append_nil. cbn [PyStr.contains].
    change (Ascii.eqb "-"%char PyStr.slash) with false. cbv iota.
    by rewrite contains_app, uuid4_str_no_slash, Hext.
Qed.

End FileCheckpoints.

(** X24: a file checkpoint comes back as it was made.  When
    [create_file_checkpoint] returns for a text of well-formed UTF-8 and
    the format [text], [get_file_checkpoint] of the identifier it has
    returned, for the same path, returns that text and the format
    [text]. *)
Theorem file_checkpoint_round_trip {NB : Type} (cfg : @Config NB)
    (env : @Collaborators NB)
    (P text : string) (s s1 : @Manager NB) (c : Checkpoint) :
  Codec.utf8_valid text = true →
  create_file_checkpoint cfg env (CText text) (Some "text") P s = (Ok c, s1) →
  ∃ s2, get_file_checkpoint cfg (cp_id c) P s1 = (Ok (text, "text"), s2).
Proof.
  intros Hvalid H. unfold create_file_checkpoint in H.
  apply bind_ok in H as (id & s2 & Hu & H).
  apply (uuid4_steady cfg) in Hu as [_ [n ->]].
  apply bind_ok in H as (cpfull & s3 & Hcp & H).
  apply lift_ok in Hcp as [Hcp ->].
  apply bind_ok in H as (blob & s3 & Hs & H).
  apply ret_ok in H as [Hc ->]. subst c. cbn [cp_id].
  destruct (parse_path_total (strip_leading_slash P)) as (b & k & Hp).
  destruct (checkpoint_path_parse cfg P b k Hp)
    as (cb & pre & ext & _ & Hid & Hext & _).
  destruct (Hid (uuid4_str n)) as (cp & Hcp' & Hparse).
  rewrite Hcp in Hcp'. injection Hcp' as <-.
  destruct (checkpoint_key_is_file pre ext n Hext) as [Hne Hend].
  destruct (save_file_text_holds cfg env _ _ _ _ _ _ _ Hparse Hs)
    as (h & Hv & objs & o & Ho & Hlook & Hdata).
  assert (Hcpne : cpfull ≠ "").
  { intros ->. rewrite (parse_path_no_slash "") in Hparse by done.
    injection Hparse as _ Hk. by rewrite <- Hk in Hne. }
  destruct (fetch_file_forward cfg cpfull cb _ h s3 Hcpne Hparse Hne Hend Hv)
    as (s' & [Hst' _] & Hfetch).
  rewrite Ho, Hlook in Hfetch.
  unfold get_file_checkpoint. unfold bind at 1, lift at 1. rewrite Hcp.
  unfold bind at 1. rewrite Hfetch. simpl.
  unfold bind at 1, as_blob, ret at 1.
  unfold _read_file, bind at 1, blob_download_as_string, bind at 1, gets at 1.
  unfold bind at 1, lift at 1. cbn [blob_bucket blob_name loaded_blob].
  rewrite Hst', Ho, Hlook. unfold ret at 1.
  simpl. unfold bind at 1, try_except, bind at 1, lift at 1.
  unfold Codec.decode_utf8. rewrite Hdata, Hvalid.
  eexists. reflexivity.
Qed.

Lemma file_checkpoint_round_trip_witness :
  ∃ s2,
    get_file_checkpoint defaults (uuid4_str 0) "bucket/hello.txt"
      (create_file_checkpoint defaults collaborators (CText "hello")
         (Some "text") "bucket/hello.txt" empty_bucket).2
    = (Ok ("hello", "text"), s2).
Proof.
  destruct (create_file_checkpoint defaults collaborators (CText "hello")
              (Some "text") "bucket/hello.txt" empty_bucket)
    as [[c|e] s1] eqn:Hc.
  - assert (Hid : cp_id c = uuid4_str 0).
    { vm_compute in Hc. by injection Hc as <- _. }
    rewrite <- Hid.
    apply (file_checkpoint_round_trip defaults collaborators
             "bucket/hello.txt" "hello" empty_bucket s1 c);
      [reflexivity|exact Hc].
  - vm_compute in Hc. discriminate Hc.
Defined.
